(** * Document acquisition and caching (package [rag] of [don])

    A shallow embedding of the cache, downloader and scanner code of
    [pkg/rag], with the properties of its specification proved (or
    refuted) on the embedding, and further properties of this code and of
    the document processing of [pkg/agent] that calls it.

    Go's [string] and [[]byte] are both sequences of 8-bit bytes; both are
    embedded as Rocq's [string], whose characters ([ascii]) are exactly the
    256 byte values.  [int64] and [int] values are embedded as [Z], with
    the wrap-around written out where the code can overflow. *)

From Stdlib Require Import ZArith Lia List Bool Ascii String.
From stdpp Require Import gmap strings.
Import ListNotations.

Local Open Scope string_scope.
Local Open Scope Z_scope.

Set Warnings "-register-all".

(** ** Bytes *)

Definition byte_val (c : ascii) : Z := Z.of_N (N_of_ascii c).
Definition byte_of (z : Z) : ascii := ascii_of_N (Z.to_N (z mod 256)).

Fixpoint bytes_of_string (s : string) : list Z :=
  match s with
  | EmptyString => []
  | String c r => byte_val c :: bytes_of_string r
  end.

Fixpoint string_of_bytes (l : list Z) : string :=
  match l with
  | [] => EmptyString
  | z :: r => String (byte_of z) (string_of_bytes r)
  end.

Definition len (s : string) : Z := Z.of_nat (String.length s).

(** ** crypto/sha256 (FIPS 180-4), on 32-bit words kept in [Z] *)

Module SHA256.

Definition w32 (x : Z) : Z := Z.land x 0xffffffff.
Definition add32 (x y : Z) : Z := w32 (x + y).
Definition rotr (n x : Z) : Z :=
  Z.lor (Z.shiftr x n) (w32 (Z.shiftl x (32 - n))).
Definition not32 (x : Z) : Z := Z.lxor x 0xffffffff.

Definition Ch (x y z : Z) : Z := Z.lxor (Z.land x y) (Z.land (not32 x) z).
Definition Maj (x y z : Z) : Z :=
  Z.lxor (Z.lxor (Z.land x y) (Z.land x z)) (Z.land y z).
Definition bsig0 (x : Z) : Z := Z.lxor (Z.lxor (rotr 2 x) (rotr 13 x)) (rotr 22 x).
Definition bsig1 (x : Z) : Z := Z.lxor (Z.lxor (rotr 6 x) (rotr 11 x)) (rotr 25 x).
Definition ssig0 (x : Z) : Z := Z.lxor (Z.lxor (rotr 7 x) (rotr 18 x)) (Z.shiftr x 3).
Definition ssig1 (x : Z) : Z := Z.lxor (Z.lxor (rotr 17 x) (rotr 19 x)) (Z.shiftr x 10).

(** The round constants (the first 32 bits of the fractional parts of
    the cube roots of the first 64 primes), eight hexadecimal digits
    each. *)
Definition K_hex : string :=
  "428a2f9871374491b5c0fbcfe9b5dba53956c25b59f111f1923f82a4ab1c5ed5" ++
  "d807aa9812835b01243185be550c7dc372be5d7480deb1fe9bdc06a7c19bf174" ++
  "e49b69c1efbe47860fc19dc6240ca1cc2de92c6f4a7484aa5cb0a9dc76f988da" ++
  "983e5152a831c66db00327c8bf597fc7c6e00bf3d5a7914706ca635114292967" ++
  "27b70a852e1b21384d2c6dfc53380d13650a7354766a0abb81c2c92e92722c85" ++
  "a2bfe8a1a81a664bc24b8b70c76c51a3d192e819d6990624f40e3585106aa070" ++
  "19a4c1161e376c082748774c34b0bcb5391c0cb34ed8aa4a5b9cca4f682e6ff3" ++
  "748f82ee78a5636f84c878148cc7020890befffaa4506cebbef9a3f7c67178f2".

Definition hex_digit_val (c : ascii) : Z :=
  let b := byte_val c in
  if b <? 58 then b - 48 else b - 87.

Fixpoint hex_words (fuel : nat) (s : string) : list Z :=
  match fuel with
  | O => []
  | S f =>
      match s with
      | EmptyString => []
      | _ =>
          fold_left (fun acc b => 16 * acc + b)
            (map (fun c => hex_digit_val (byte_of c))
                 (bytes_of_string (String.substring 0 8 s))) 0
          :: hex_words f (String.substring 8 (String.length s - 8) s)
      end
  end.

Definition K : list Z := Eval vm_compute in hex_words 64 K_hex.

(** The chaining value: eight 32-bit words. *)
Record digest := Digest
  { h0 : Z; h1 : Z; h2 : Z; h3 : Z; h4 : Z; h5 : Z; h6 : Z; h7 : Z }.

Definition init : digest :=
  Digest 0x6a09e667 0xbb67ae85 0x3c6ef372 0xa54ff53a
         0x510e527f 0x9b05688c 0x1f83d9ab 0x5be0cd19.

(** Big-endian 32-bit words of a block of bytes. *)
Fixpoint words (l : list Z) : list Z :=
  match l with
  | a :: b :: c :: d :: r =>
      (Z.shiftl a 24 + Z.shiftl b 16 + Z.shiftl c 8 + d) :: words r
  | _ => []
  end.

(** Message schedule; [ws] holds the words computed so far, the most
    recent first. *)
Fixpoint schedule (n : nat) (ws : list Z) : list Z :=
  match n with
  | O => ws
  | S n' =>
      let w := add32 (add32 (add32 (ssig1 (nth 1 ws 0)) (nth 6 ws 0))
                            (ssig0 (nth 14 ws 0))) (nth 15 ws 0) in
      schedule n' (w :: ws)
  end.

Definition round (d : digest) (kw : Z * Z) : digest :=
  let '(k, w) := kw in
  let t1 := add32 (add32 (add32 (add32 (h7 d) (bsig1 (h4 d)))
                                (Ch (h4 d) (h5 d) (h6 d))) k) w in
  let t2 := add32 (bsig0 (h0 d)) (Maj (h0 d) (h1 d) (h2 d)) in
  Digest (add32 t1 t2) (h0 d) (h1 d) (h2 d)
         (add32 (h3 d) t1) (h4 d) (h5 d) (h6 d).

Definition block (d : digest) (blk : list Z) : digest :=
  let w := rev (schedule 48 (rev (words blk))) in
  let r := fold_left round (combine K w) d in
  Digest (add32 (h0 d) (h0 r)) (add32 (h1 d) (h1 r))
         (add32 (h2 d) (h2 r)) (add32 (h3 d) (h3 r))
         (add32 (h4 d) (h4 r)) (add32 (h5 d) (h5 r))
         (add32 (h6 d) (h6 r)) (add32 (h7 d) (h7 r)).

(** Padding: 0x80, zeros up to 56 mod 64, the bit length on 8 bytes. *)
Definition be_bytes (n : nat) (x : Z) : list Z :=
  map (fun i => Z.land (Z.shiftr x (8 * Z.of_nat i)) 0xff) (rev (seq 0 n)).

Definition pad (msg : list Z) : list Z :=
  let n := Z.of_nat (List.length msg) in
  let z := Z.to_nat ((55 - n) mod 64) in
  msg ++ [0x80] ++ repeat 0 z ++ be_bytes 8 (8 * n).

Fixpoint blocks (fuel : nat) (d : digest) (l : list Z) : digest :=
  match fuel with
  | O => d
  | S f =>
      match l with
      | [] => d
      | _ => blocks f (block d (firstn 64 l)) (skipn 64 l)
      end
  end.

Definition digest_bytes (d : digest) : list Z :=
  be_bytes 4 (h0 d) ++ be_bytes 4 (h1 d) ++ be_bytes 4 (h2 d) ++
  be_bytes 4 (h3 d) ++ be_bytes 4 (h4 d) ++ be_bytes 4 (h5 d) ++
  be_bytes 4 (h6 d) ++ be_bytes 4 (h7 d).

(** [sha256.Sum256(data)]: the 32-byte digest. *)
Definition Sum256 (data : string) : string :=
  let p := pad (bytes_of_string data) in
  string_of_bytes (digest_bytes (blocks (List.length p) init p)).

End SHA256.

(** ** encoding/hex *)

Definition hextable : string := "0123456789abcdef".

Definition hexdigit (z : Z) : ascii :=
  match String.get (Z.to_nat z) hextable with
  | Some c => c
  | None => "0"%char
  end.

(** [hex.EncodeToString]: two digits per byte, [hextable[v>>4]] then
    [hextable[v&0x0f]]. *)
Fixpoint EncodeToString (src : string) : string :=
  match src with
  | EmptyString => EmptyString
  | String c r =>
      String (hexdigit (Z.shiftr (byte_val c) 4))
        (String (hexdigit (Z.land (byte_val c) 0x0f)) (EncodeToString r))
  end.

(** ** cache.go *)

(** [hashURL]: SHA-256 of the URL's bytes, in hexadecimal. *)
Definition hashURL (url : string) : string :=
  EncodeToString (SHA256.Sum256 url).

(** [ComputeContentHash]. *)
Definition ComputeContentHash (content : string) : string :=
  EncodeToString (SHA256.Sum256 content).

(** ** Go's [strings] package *)

(** [strings.HasPrefix(s, prefix)]. *)
Fixpoint HasPrefix (s p : string) : bool :=
  match p, s with
  | EmptyString, _ => true
  | String a p', String b s' => if Ascii.eqb a b then HasPrefix s' p' else false
  | String _ _, EmptyString => false
  end.

(** [strings.Contains(s, substr)]. *)
Fixpoint Contains (s sub : string) : bool :=
  HasPrefix s sub ||
  match s with
  | EmptyString => false
  | String _ r => Contains r sub
  end.

(** [strings.Split(s, sep)] for a separator of one byte: the pieces between
    the separators, never an empty list. *)
Fixpoint Split (s : string) (sep : ascii) : list string :=
  match s with
  | EmptyString => [EmptyString]
  | String c r =>
      if Ascii.eqb c sep then EmptyString :: Split r sep
      else match Split r sep with
           | h :: t => String c h :: t
           | [] => [String c EmptyString]
           end
  end.

(** [strings.Join(elems, sep)]. *)
Fixpoint JoinStrings (elems : list string) (sep : string) : string :=
  match elems with
  | [] => EmptyString
  | [e] => e
  | e :: r => e ++ sep ++ JoinStrings r sep
  end.

Fixpoint all_bytes (p : ascii -> bool) (s : string) : bool :=
  match s with
  | EmptyString => true
  | String c r => p c && all_bytes p r
  end.

Fixpoint map_bytes (f : ascii -> ascii) (s : string) : string :=
  match s with
  | EmptyString => EmptyString
  | String c r => String (f c) (map_bytes f r)
  end.

(** [c < utf8.RuneSelf]. *)
Definition is_ascii_byte (c : ascii) : bool := byte_val c <? 128.
Definition isASCII (s : string) : bool := all_bytes is_ascii_byte s.

Definition lower_byte (c : ascii) : ascii :=
  if (65 <=? byte_val c) && (byte_val c <=? 90) then byte_of (byte_val c + 32)
  else c.

(** The [asciiSpace] table of [strings]: tab, newline, vertical tab, form
    feed, carriage return, space. *)
Definition asciiSpace (c : ascii) : bool :=
  let v := byte_val c in
  (v =? 9) || (v =? 10) || (v =? 11) || (v =? 12) || (v =? 13) || (v =? 32).

(** Functions of Go's standard library that the package calls and whose
    tables or grammar are not part of the repository.  The ASCII paths of
    [strings.ToLower] and [strings.TrimSpace] are modelled below; their
    Unicode fall-backs, [url.Parse], the key folding of encoding/json and
    the lenient time layout parser are parameters. *)
Record URL := { Scheme : string; Host : string }.

Class GoLib := {
  (** [strings.Map(unicode.ToLower, s)], used when [s] has a byte >= 0x80 *)
  MapToLower : string -> string;
  (** [strings.TrimFunc(s, unicode.IsSpace)] *)
  TrimFuncIsSpace : string -> string;
  (** [strings.TrimRightFunc(s, unicode.IsSpace)] *)
  TrimRightFuncIsSpace : string -> string;
  (** [url.Parse]: the parsed URL, or the text of the parse error *)
  url_Parse : string -> string + URL;
  (** [foldName] of encoding/json: the case-folded form of an object key *)
  foldName : string -> string;
  (** [time.Parse(time.RFC3339, s)], the lenient parser that
      [Time.UnmarshalJSON] falls back to; its result as digits of civil
      time and zone offset *)
  time_Parse_layout : string -> option (Z * Z * Z * Z * Z * Z * Z * Z)
}.

(** [strings.ToLower]: ASCII strings are lowered byte by byte, any other
    string goes through the Unicode tables. *)
Definition ToLower `{GoLib} (s : string) : string :=
  if isASCII s then map_bytes lower_byte s else MapToLower s.

(** [strings.TrimSpace].  The first loop drops leading ASCII space and
    hands over to [TrimFunc] at the first non-ASCII byte; the second loop
    does the same from the end with [TrimRightFunc]. *)
Fixpoint last_byte (s : string) : option ascii :=
  match s with
  | EmptyString => None
  | String c EmptyString => Some c
  | String _ r => last_byte r
  end.

Fixpoint drop_last (s : string) : string :=
  match s with
  | EmptyString => EmptyString
  | String c EmptyString => EmptyString
  | String c r => String c (drop_last r)
  end.

(** The second loop of [TrimSpace] on [s], of which [n] bytes are left to
    look at: [stop] moves down from the end. *)
Fixpoint trim_stop `{GoLib} (n : nat) (s : string) : string :=
  match n with
  | O => s
  | S n' =>
      match last_byte s with
      | None => s
      | Some c =>
          if is_ascii_byte c then
            if asciiSpace c then trim_stop n' (drop_last s) else s
          else TrimRightFuncIsSpace s
      end
  end.

Fixpoint TrimSpace `{GoLib} (s : string) : string :=
  match s with
  | EmptyString => EmptyString
  | String c r =>
      if is_ascii_byte c then
        if asciiSpace c then TrimSpace r
        else trim_stop (String.length s) s
      else TrimFuncIsSpace s
  end.

(** ** Decimal printing ([%d], [strconv.Itoa]) *)

Definition digit_char (d : Z) : ascii := byte_of (48 + d).

Fixpoint digits_of (fuel : nat) (n : Z) (acc : string) : string :=
  match fuel with
  | O => acc
  | S f =>
      let acc' := String (digit_char (n mod 10)) acc in
      if n <? 10 then acc' else digits_of f (n / 10) acc'
  end.

Definition utoa (n : Z) : string :=
  digits_of (S (Z.to_nat (Z.log2 n))) n EmptyString.

Definition itoa (z : Z) : string :=
  if z <? 0 then String "-" (utoa (- z)) else utoa z.

(** ** path/filepath on a Unix host (separator [/], no volume names) *)

Module filepath.

Definition Separator : ascii := "/"%char.

(** One element of the path seen by the loop of [Clean]; [out] is the
    output so far as a stack of elements (last one first).  The output
    is a run of [..] elements (relative paths only) followed by ordinary
    elements, so "[out.w > dotdot]" is "the top is an ordinary element". *)
Definition clean_step (rooted : bool) (out : list string) (e : string)
  : list string :=
  if String.eqb e "" then out
  else if String.eqb e "." then out
  else if String.eqb e ".." then
    match out with
    | top :: rest =>
        if String.eqb top ".." then (if rooted then out else e :: out)
        else rest
    | [] => if rooted then out else [e]
    end
  else e :: out.

Definition render (rooted : bool) (elems : list string) : string :=
  if rooted then String Separator (JoinStrings elems "/")
  else match elems with
       | [] => "."
       | _ => JoinStrings elems "/"
       end.

(** [filepath.Clean]. *)
Definition Clean (path : string) : string :=
  if String.eqb path "" then "."
  else
    let rooted := HasPrefix path "/" in
    render rooted (rev (fold_left (clean_step rooted) (Split path Separator) [])).

(** [filepath.Join]: the elements from the first non-empty one on, joined
    by the separator and cleaned. *)
Fixpoint Join (elem : list string) : string :=
  match elem with
  | [] => EmptyString
  | e :: r =>
      if String.eqb e "" then Join r else Clean (JoinStrings elem "/")
  end.

Definition IsAbs (path : string) : bool := HasPrefix path "/".

(** The part of [path] up to and including its last separator. *)
Fixpoint upto_last_sep (path : string) : string :=
  match path with
  | EmptyString => EmptyString
  | String c r =>
      if Contains path "/" then String c (upto_last_sep r) else EmptyString
  end.

(** [filepath.Dir]. *)
Definition Dir (path : string) : string := Clean (upto_last_sep path).

(** [filepath.Ext]: from the last dot of the last element, if any. *)
Fixpoint Ext (path : string) : string :=
  match path with
  | EmptyString => EmptyString
  | String c r =>
      if Contains r "/" || Contains r "." then Ext r
      else if Ascii.eqb c "." then path else EmptyString
  end.

(** [filepath.Abs].  [getwd] is what [os.Getwd] answers: the working
    directory of the process, or the text of its error; [Abs] fails with
    that error, and only on a path that is not absolute. *)
Definition Abs (getwd : string + string) (path : string) : string + string :=
  if IsAbs path then inr (Clean path)
  else
    match getwd with
    | inl msg => inl msg
    | inr wd => inr (Join [wd; path])
    end.

End filepath.

(** ** errors.go *)

(** The error values of the package.  [Errorf p e] is
    [fmt.Errorf(p + ": %w", e)]; [LibError] is an error made by the
    standard library (os, io, net/http, encoding/json, context), known by
    its text. *)
Inductive error : Type :=
| ErrInvalidURL (msg : string)
| ErrInvalidPath (msg : string)
| ErrDownloadFailed (URL Reason : string)
| ErrCacheError (Operation Reason : string)
| ErrInvalidConfig (msg : string)
| ErrFileTooLarge (Size MaxSize : Z)
| ErrNotTextFile (msg : string)
| ErrPathTraversal (msg : string)
| Errorf (prefix : string) (cause : error)
| LibError (msg : string).

(** The [Error()] methods. *)
Fixpoint Error (e : error) : string :=
  match e with
  | ErrInvalidURL s => "invalid URL: " ++ s
  | ErrInvalidPath s => "invalid path: " ++ s
  | ErrDownloadFailed u r => "download failed for " ++ u ++ ": " ++ r
  | ErrCacheError o r => "cache error during " ++ o ++ ": " ++ r
  | ErrInvalidConfig s => "invalid configuration: " ++ s
  | ErrFileTooLarge sz mx =>
      "file size " ++ itoa sz ++ " bytes exceeds maximum " ++ itoa mx ++ " bytes"
  | ErrNotTextFile s => "not a text file: " ++ s
  | ErrPathTraversal s => "path traversal detected: " ++ s
  | Errorf p c => p ++ ": " ++ Error c
  | LibError s => s
  end.

(** The Go type of an error once the [%w] wrappers are taken off: what a
    caller tells apart with [errors.As]. *)
Inductive error_kind : Type :=
| KInvalidURL | KInvalidPath | KDownloadFailed | KCacheError | KInvalidConfig
| KFileTooLarge | KNotTextFile | KPathTraversal | KLibrary.

Fixpoint kind_of (e : error) : error_kind :=
  match e with
  | ErrInvalidURL _ => KInvalidURL
  | ErrInvalidPath _ => KInvalidPath
  | ErrDownloadFailed _ _ => KDownloadFailed
  | ErrCacheError _ _ => KCacheError
  | ErrInvalidConfig _ => KInvalidConfig
  | ErrFileTooLarge _ _ => KFileTooLarge
  | ErrNotTextFile _ => KNotTextFile
  | ErrPathTraversal _ => KPathTraversal
  | Errorf _ c => kind_of c
  | LibError _ => KLibrary
  end.

(** A Go result pair [(T, error)]. *)
Inductive result (A : Type) : Type :=
| Ok (a : A)
| Err (e : error).
Arguments Ok {A} a.
Arguments Err {A} e.

(** ** types.go *)

(** [time.Time] as the wall-clock reading it prints: civil date and time,
    nanoseconds, and the zone offset in seconds east of UTC.  The monotonic
    clock reading and the zone name are not part of the model: no
    marshalled form carries them. *)
Record Time := {
  year : Z; month : Z; day : Z;
  hour : Z; minute : Z; second : Z;
  nanosecond : Z;
  zone_offset : Z
}.

Record CacheMetadata := {
  meta_URL : string;
  DownloadedAt : Time;
  ContentHash : string;
  ETag : string;
  LastModified : string;
  ContentType : string;
  Size : Z
}.

Record DownloaderConfig := {
  CacheDir : string;
  Timeout : Z;
  MaxSize : Z;
  ForceRefresh : bool;
  Logger : bool  (* [false] is the nil logger *)
}.

(** [ValidateConfig]. *)
Definition ValidateConfig (config : DownloaderConfig) : option error :=
  if negb (Logger config) then Some (ErrInvalidConfig "logger is required")
  else if Timeout config <=? 0 then Some (ErrInvalidConfig "timeout must be positive")
  else if MaxSize config <=? 0 then Some (ErrInvalidConfig "max size must be positive")
  else None.

(** Wrap-around of [int64] arithmetic. *)
Definition MaxInt64 : Z := 9223372036854775807.
Definition wrap64 (z : Z) : Z := (z + 2 ^ 63) mod 2 ^ 64 - 2 ^ 63.

(** ** time: RFC 3339 with nanoseconds, as [Time.MarshalJSON] prints it *)

(** [k] decimal digits of [n], most significant first ([appendInt] with a
    width, for [0 <= n < 10^k]). *)
Fixpoint digitsN (k : nat) (n : Z) : string :=
  match k with
  | O => EmptyString
  | S k' => String (digit_char ((n / 10 ^ Z.of_nat k') mod 10)) (digitsN k' n)
  end.

(** The fraction of a second: nine digits with the trailing zeros
    removed, so printing stops once the rest is zero. *)
Fixpoint frac_digits (k : nat) (n : Z) : string :=
  match k with
  | O => EmptyString
  | S k' =>
      if n =? 0 then EmptyString
      else String (digit_char ((n / 10 ^ Z.of_nat k') mod 10))
                  (frac_digits k' (n mod 10 ^ Z.of_nat k'))
  end.

Definition format_zone (offset : Z) : string :=
  if offset =? 0 then "Z"
  else
    let zone := Z.quot offset 60 in
    let sign := if zone <? 0 then "-" else "+" in
    let zone := Z.abs zone in
    sign ++ digitsN 2 (zone / 60) ++ ":" ++ digitsN 2 (zone mod 60).

(** [Time.appendStrictRFC3339]: an error when the year does not take four
    digits or the zone hour is over 23. *)
Definition format_time (t : Time) : result string :=
  if (year t <? 0) || (9999 <? year t) then
    Err (LibError "Time.MarshalJSON: year outside of range [0,9999]")
  else if 24 <=? Z.abs (Z.quot (zone_offset t) 60) / 60 then
    Err (LibError "Time.MarshalJSON: timezone hour outside of range [0,23]")
  else
    Ok (digitsN 4 (year t) ++ "-" ++ digitsN 2 (month t) ++ "-" ++
        digitsN 2 (day t) ++ "T" ++ digitsN 2 (hour t) ++ ":" ++
        digitsN 2 (minute t) ++ ":" ++ digitsN 2 (second t) ++
        (if nanosecond t =? 0 then ""
         else "." ++ frac_digits 9 (nanosecond t)) ++
        format_zone (zone_offset t)).

Definition is_digit (c : ascii) : bool :=
  (48 <=? byte_val c) && (byte_val c <=? 57).

(** Exactly [k] digits at the head of [s]: their value and the rest. *)
Fixpoint read_digits (k : nat) (acc : Z) (s : string) : option (Z * string) :=
  match k with
  | O => Some (acc, s)
  | S k' =>
      match s with
      | String c r =>
          if is_digit c then read_digits k' (10 * acc + (byte_val c - 48)) r
          else None
      | EmptyString => None
      end
  end.

(** The digits of a fraction: the first [k] count, scaled to [k] places,
    any further digit is skipped. *)
Fixpoint read_frac (k : nat) (s : string) : Z * string :=
  match s with
  | String c r =>
      if is_digit c then
        match k with
        | O => read_frac O r
        | S k' =>
            let '(v, rest) := read_frac k' r in
            ((byte_val c - 48) * 10 ^ Z.of_nat k' + v, rest)
        end
      else (0, s)
  | EmptyString => (0, s)
  end.

Definition expect (c : ascii) (s : string) : option string :=
  match s with
  | String d r => if Ascii.eqb c d then Some r else None
  | EmptyString => None
  end.

Definition in_range (lo hi v : Z) : bool := (lo <=? v) && (v <=? hi).

Definition isLeap (y : Z) : bool :=
  (y mod 4 =? 0) && (negb (y mod 100 =? 0) || (y mod 400 =? 0)).

Definition daysIn (m y : Z) : Z :=
  if m =? 2 then (if isLeap y then 29 else 28)
  else if (m =? 4) || (m =? 6) || (m =? 9) || (m =? 11) then 30
  else 31.

Definition parse_zone (s : string) : option Z :=
  if String.eqb s "Z" then Some 0
  else
    match s with
    | String sg r =>
        match read_digits 2 0 r with
        | Some (hr, r1) =>
            match expect ":" r1 with
            | Some r2 =>
                match read_digits 2 0 r2 with
                | Some (mm, EmptyString) =>
                    if in_range 0 23 hr && in_range 0 59 mm then
                      if Ascii.eqb sg "-" then Some (- ((hr * 60 + mm) * 60))
                      else if Ascii.eqb sg "+" then Some ((hr * 60 + mm) * 60)
                      else None
                    else None
                | _ => None
                end
            | None => None
            end
        | None => None
        end
    | EmptyString => None
    end.

(** [parseRFC3339]: the strict, fast parser. *)
Definition parseRFC3339 (s : string) : option Time :=
  match read_digits 4 0 s with
  | Some (y, s) =>
  match expect "-" s with Some s =>
  match read_digits 2 0 s with Some (mo, s) =>
  match expect "-" s with Some s =>
  match read_digits 2 0 s with Some (d, s) =>
  match expect "T" s with Some s =>
  match read_digits 2 0 s with Some (h, s) =>
  match expect ":" s with Some s =>
  match read_digits 2 0 s with Some (mi, s) =>
  match expect ":" s with Some s =>
  match read_digits 2 0 s with Some (sec, s) =>
    if in_range 1 12 mo && in_range 1 (daysIn mo y) d && in_range 0 23 h
       && in_range 0 59 mi && in_range 0 59 sec then
      let '(ns, s) :=
        match s with
        | String "." (String c r) =>
            if is_digit c then read_frac 9 (String c r) else (0, s)
        | _ => (0, s)
        end in
      match parse_zone s with
      | Some off =>
          Some {| year := y; month := mo; day := d; hour := h; minute := mi;
                  second := sec; nanosecond := ns; zone_offset := off |}
      | None => None
      end
    else None
  | None => None end | None => None end | None => None end | None => None end
  | None => None end | None => None end | None => None end | None => None end
  | None => None end | None => None end
  | None => None
  end.

(** [parseStrictRFC3339]: the strict parser, then the layout parser on what
    the strict one refuses. *)
Definition parse_time `{GoLib} (s : string) : option Time :=
  match parseRFC3339 s with
  | Some t => Some t
  | None =>
      match time_Parse_layout s with
      | Some (y, mo, d, h, mi, sec, ns, off) =>
          Some {| year := y; month := mo; day := d; hour := h; minute := mi;
                  second := sec; nanosecond := ns; zone_offset := off |}
      | None => None
      end
  end.

(** ** unicode/utf8 *)

Definition RuneError : Z := 0xFFFD.

Definition is_cont (b : Z) : bool := in_range 0x80 0xBF b.

(** [utf8.DecodeRuneInString]: the rune at the head of [s] and its width;
    [(RuneError, 1)] for a byte that starts no valid encoding. *)
Definition DecodeRune (s : string) : Z * nat :=
  match s with
  | EmptyString => (RuneError, O)
  | String c0 r0 =>
      let b0 := byte_val c0 in
      if b0 <? 0x80 then (b0, 1%nat)
      else if in_range 0xC2 0xDF b0 then
        match r0 with
        | String c1 _ =>
            let b1 := byte_val c1 in
            if is_cont b1 then ((b0 - 0xC0) * 64 + (b1 - 0x80), 2%nat)
            else (RuneError, 1%nat)
        | _ => (RuneError, 1%nat)
        end
      else if in_range 0xE0 0xEF b0 then
        match r0 with
        | String c1 (String c2 _) =>
            let b1 := byte_val c1 in
            let b2 := byte_val c2 in
            let lo := if b0 =? 0xE0 then 0xA0 else 0x80 in
            let hi := if b0 =? 0xED then 0x9F else 0xBF in
            if in_range lo hi b1 && is_cont b2 then
              ((b0 - 0xE0) * 4096 + (b1 - 0x80) * 64 + (b2 - 0x80), 3%nat)
            else (RuneError, 1%nat)
        | _ => (RuneError, 1%nat)
        end
      else if in_range 0xF0 0xF4 b0 then
        match r0 with
        | String c1 (String c2 (String c3 _)) =>
            let b1 := byte_val c1 in
            let b2 := byte_val c2 in
            let b3 := byte_val c3 in
            let lo := if b0 =? 0xF0 then 0x90 else 0x80 in
            let hi := if b0 =? 0xF4 then 0x8F else 0xBF in
            if in_range lo hi b1 && is_cont b2 && is_cont b3 then
              ((b0 - 0xF0) * 262144 + (b1 - 0x80) * 4096 + (b2 - 0x80) * 64
               + (b3 - 0x80), 4%nat)
            else (RuneError, 1%nat)
        | _ => (RuneError, 1%nat)
        end
      else (RuneError, 1%nat)
  end.

(** [utf8.EncodeRune] ([utf8.AppendRune]). *)
Definition EncodeRune (r : Z) : string :=
  if (0 <=? r) && (r <? 0x80) then string_of_bytes [r]
  else if (0 <=? r) && (r <? 0x800) then
    string_of_bytes [0xC0 + r / 64; 0x80 + r mod 64]
  else if (r <? 0) || (0x10FFFF <? r) || in_range 0xD800 0xDFFF r then
    string_of_bytes [0xEF; 0xBF; 0xBD]
  else if r <? 0x10000 then
    string_of_bytes [0xE0 + r / 4096; 0x80 + (r / 64) mod 64; 0x80 + r mod 64]
  else
    string_of_bytes [0xF0 + r / 262144; 0x80 + (r / 4096) mod 64;
                     0x80 + (r / 64) mod 64; 0x80 + r mod 64].

(** [utf8.ValidString]. *)
Fixpoint ValidString_from (skip : nat) (s : string) : bool :=
  match s with
  | EmptyString => true
  | String c r =>
      match skip with
      | S k => ValidString_from k r
      | O =>
          let '(rn, size) := DecodeRune s in
          if (rn =? RuneError) && Nat.eqb size 1 then false
          else ValidString_from (Nat.pred size) r
      end
  end.

Definition ValidString (s : string) : bool := ValidString_from 0 s.

(** ** encoding/json, as far as [CacheMetadata] goes *)

Module json.

Definition dquote : ascii := "034"%char.
Definition backslash : ascii := "092"%char.
Definition nl : ascii := "010"%char.

Definition quoted (s : string) : string :=
  String dquote (s ++ String dquote EmptyString).

(** [htmlSafeSet]: the ASCII bytes a string keeps as they are. *)
Definition htmlSafe (b : Z) : bool :=
  (0x20 <=? b) && (b <? 0x80) &&
  negb ((b =? 34) || (b =? 92) || (b =? 60) || (b =? 62) || (b =? 38)).

Definition escape_ascii (c : ascii) : string :=
  let b := byte_val c in
  if htmlSafe b then String c EmptyString
  else if (b =? 92) || (b =? 34) then String backslash (String c EmptyString)
  else if b =? 8 then "\b"
  else if b =? 12 then "\f"
  else if b =? 10 then "\n"
  else if b =? 13 then "\r"
  else if b =? 9 then "\t"
  else "\u00" ++ String (hexdigit (Z.shiftr b 4))
                   (String (hexdigit (Z.land b 0xF)) EmptyString).

(** The loop of [appendString] with HTML escaping on.  [skip] bytes of a
    rune already looked at are passed over, copied or not. *)
Fixpoint appendString_loop (skip : nat) (copy : bool) (s : string) : string :=
  match s with
  | EmptyString => EmptyString
  | String c r =>
      match skip with
      | S k =>
          if copy then String c (appendString_loop k copy r)
          else appendString_loop k copy r
      | O =>
          if is_ascii_byte c then escape_ascii c ++ appendString_loop 0 true r
          else
            let '(rn, size) := DecodeRune s in
            if (rn =? RuneError) && Nat.eqb size 1 then
              "\ufffd" ++ appendString_loop 0 true r
            else if (rn =? 0x2028) || (rn =? 0x2029) then
              "\u202" ++ String (hexdigit (Z.land rn 0xF))
                           (appendString_loop (Nat.pred size) false r)
            else String c (appendString_loop (Nat.pred size) true r)
      end
  end.

(** A Go string as a JSON string literal. *)
Definition appendString (s : string) : string :=
  quoted (appendString_loop 0 true s).

(** [json.MarshalIndent(meta, , two spaces)] on a [CacheMetadata]:
    the fields in declaration order, [etag] and [last_modified] left out
    when empty, one per line. *)
Definition member (key val : string) : string :=
  "  " ++ quoted key ++ ": " ++ val.

Definition MarshalIndent (meta : CacheMetadata) : result string :=
  match format_time (DownloadedAt meta) with
  | Err e =>
      Err (LibError ("json: error calling MarshalJSON for type time.Time: "
                     ++ Error e))
  | Ok t =>
      let members :=
        ([ member "url" (appendString (meta_URL meta));
           member "downloaded_at" (quoted t);
           member "content_hash" (appendString (ContentHash meta)) ]
         ++ (if String.eqb (ETag meta) "" then []
             else [member "etag" (appendString (ETag meta))])
         ++ (if String.eqb (LastModified meta) "" then []
             else [member "last_modified" (appendString (LastModified meta))])
         ++ [ member "content_type" (appendString (ContentType meta));
              member "size" (itoa (Size meta)) ])%list in
      Ok ("{" ++ String nl (JoinStrings members (String "," (String nl EmptyString)))
              ++ String nl "}")
  end.

(** *** Decoding *)

(** A JSON text as the scanner sees it: string and number tokens are kept
    as written. *)
Inductive value : Type :=
| JNull
| JBool (b : bool)
| JNumber (raw : string)
| JString (raw : string)
| JArray (elems : list value)
| JObject (members : list (string * value)).

Definition is_space (c : ascii) : bool :=
  let b := byte_val c in (b =? 32) || (b =? 9) || (b =? 13) || (b =? 10).

Fixpoint skip_ws (s : string) : string :=
  match s with
  | String c r => if is_space c then skip_ws r else s
  | EmptyString => s
  end.

Definition hexval (c : ascii) : option Z :=
  let b := byte_val c in
  if in_range 48 57 b then Some (b - 48)
  else if in_range 97 102 b then Some (b - 97 + 10)
  else if in_range 65 70 b then Some (b - 65 + 10)
  else None.

Definition is_hex (c : ascii) : bool :=
  match hexval c with Some _ => true | None => false end.

Definition is_simple_escape (c : ascii) : bool :=
  let b := byte_val c in
  (b =? 98) || (b =? 102) || (b =? 110) || (b =? 114) || (b =? 116)
  || (b =? 92) || (b =? 47) || (b =? 34).

Definition cons_raw (c : ascii) (x : option (string * string))
  : option (string * string) :=
  match x with
  | Some (raw, rest) => Some (String c raw, rest)
  | None => None
  end.

(** The scanner inside a string literal, after the opening quote: state
    0 in the string, 1 after a backslash, 2 to 5 with one to four
    hexadecimal digits of a [\u] escape to come.  The result is the text
    up to the closing quote, and what follows it. *)
Fixpoint scan_string (st : nat) (s : string) : option (string * string) :=
  match s with
  | EmptyString => None
  | String c r =>
      match st with
      | O =>
          if Ascii.eqb c dquote then Some (EmptyString, r)
          else if Ascii.eqb c backslash then cons_raw c (scan_string 1 r)
          else if byte_val c <? 0x20 then None
          else cons_raw c (scan_string 0 r)
      | S O =>
          if is_simple_escape c then cons_raw c (scan_string 0 r)
          else if Ascii.eqb c "u" then cons_raw c (scan_string 5 r)
          else None
      | S (S k) =>
          if is_hex c then
            cons_raw c (scan_string (match k with O => O | S _ => S k end) r)
          else None
      end
  end.

Fixpoint scan_digits (s : string) : string * string :=
  match s with
  | String c r =>
      if is_digit c then let '(d, rest) := scan_digits r in (String c d, rest)
      else (EmptyString, s)
  | EmptyString => (EmptyString, s)
  end.

(** A number token after its sign: integer part without leading zero,
    fraction, exponent. *)
Definition scan_unsigned (sign s1 : string) : option (string * string) :=
  match s1 with
  | String c r =>
      if is_digit c then
        let '(int, s2) :=
          if Ascii.eqb c "0" then ("0", r) else scan_digits s1 in
        let frac :=
          match s2 with
          | String "." r2 =>
              match scan_digits r2 with
              | (EmptyString, _) => None
              | (d, s3) => Some ("." ++ d, s3)
              end
          | _ => Some ("", s2)
          end in
        match frac with
        | None => None
        | Some (fr, s3) =>
            match s3 with
            | String e r3 =>
                if Ascii.eqb e "e" || Ascii.eqb e "E" then
                  let '(sg, r4) :=
                    match r3 with
                    | String "+" r' => ("+", r')
                    | String "-" r' => ("-", r')
                    | _ => ("", r3)
                    end in
                  match scan_digits r4 with
                  | (EmptyString, _) => None
                  | (d, s4) =>
                      Some (sign ++ int ++ fr ++ String e sg ++ d, s4)
                  end
                else Some (sign ++ int ++ fr, s3)
            | EmptyString => Some (sign ++ int ++ fr, s3)
            end
        end
      else None
  | EmptyString => None
  end.

(** A number token. *)
Definition scan_number (s : string) : option (string * string) :=
  match s with
  | String "-" r => scan_unsigned "-" r
  | _ => scan_unsigned "" s
  end.

Definition strip_prefix (p s : string) : option string :=
  if HasPrefix s p then
    Some (String.substring (String.length p)
            (String.length s - String.length p) s)
  else None.

(** One JSON value at the head of [s]; [fuel] bounds the nesting and the
    number of members. *)
Fixpoint parse_value (fuel : nat) (s : string) : option (value * string) :=
  match fuel with
  | O => None
  | S f =>
      match skip_ws s with
      | EmptyString => None
      | String c r =>
          if Ascii.eqb c dquote then
            match scan_string 0 r with
            | Some (raw, rest) => Some (JString raw, rest)
            | None => None
            end
          else if Ascii.eqb c "{" then
            match skip_ws r with
            | String "}" rest => Some (JObject [], rest)
            | _ =>
                match parse_members f r with
                | Some (ms, rest) => Some (JObject ms, rest)
                | None => None
                end
            end
          else if Ascii.eqb c "[" then
            match skip_ws r with
            | String "]" rest => Some (JArray [], rest)
            | _ =>
                match parse_elems f r with
                | Some (es, rest) => Some (JArray es, rest)
                | None => None
                end
            end
          else if Ascii.eqb c "t" then
            match strip_prefix "rue" r with
            | Some rest => Some (JBool true, rest)
            | None => None
            end
          else if Ascii.eqb c "f" then
            match strip_prefix "alse" r with
            | Some rest => Some (JBool false, rest)
            | None => None
            end
          else if Ascii.eqb c "n" then
            match strip_prefix "ull" r with
            | Some rest => Some (JNull, rest)
            | None => None
            end
          else
            match scan_number (String c r) with
            | Some (raw, rest) => Some (JNumber raw, rest)
            | None => None
            end
      end
  end
(** The members of an object from a key on, up to the closing brace. *)
with parse_members (fuel : nat) (s : string)
  : option (list (string * value) * string) :=
  match fuel with
  | O => None
  | S f =>
      match skip_ws s with
      | String c r =>
          if Ascii.eqb c dquote then
            match scan_string 0 r with
            | Some (key, r1) =>
                match skip_ws r1 with
                | String ":" r2 =>
                    match parse_value f r2 with
                    | Some (v, r3) =>
                        match skip_ws r3 with
                        | String "," r4 =>
                            match parse_members f r4 with
                            | Some (ms, rest) => Some ((key, v) :: ms, rest)
                            | None => None
                            end
                        | String "}" rest => Some ([(key, v)], rest)
                        | _ => None
                        end
                    | None => None
                    end
                | _ => None
                end
            | None => None
            end
          else None
      | EmptyString => None
      end
  end
(** The elements of an array, up to the closing bracket. *)
with parse_elems (fuel : nat) (s : string) : option (list value * string) :=
  match fuel with
  | O => None
  | S f =>
      match parse_value f s with
      | Some (v, r1) =>
          match skip_ws r1 with
          | String "," r2 =>
              match parse_elems f r2 with
              | Some (vs, rest) => Some (v :: vs, rest)
              | None => None
              end
          | String "]" rest => Some ([v], rest)
          | _ => None
          end
      | None => None
      end
  end.

(** [checkValid]: the whole input is one value between white space. *)
Definition parse (data : string) : option value :=
  match parse_value (S (String.length data)) data with
  | Some (v, rest) =>
      match skip_ws rest with
      | EmptyString => Some v
      | _ => None
      end
  | None => None
  end.

(** [getu4]: the code unit of a [\uXXXX] at the head of [s]. *)
Definition getu4 (s : string) : option Z :=
  match s with
  | String b (String u (String c1 (String c2 (String c3 (String c4 _))))) =>
      if Ascii.eqb b backslash && Ascii.eqb u "u" then
        match hexval c1, hexval c2, hexval c3, hexval c4 with
        | Some a, Some b, Some c, Some d =>
            Some (a * 4096 + b * 256 + c * 16 + d)
        | _, _, _, _ => None
        end
      else None
  | _ => None
  end.

(** [utf16.DecodeRune]. *)
Definition utf16_DecodeRune (r1 r2 : Z) : Z :=
  if in_range 0xD800 0xDBFF r1 && in_range 0xDC00 0xDFFF r2 then
    (r1 - 0xD800) * 1024 + (r2 - 0xDC00) + 0x10000
  else RuneError.

(** The loop of [unquoteBytes] on the text between the quotes. *)
Fixpoint unquote_loop (skip : nat) (s : string) : option string :=
  match s with
  | EmptyString => Some EmptyString
  | String c r =>
      match skip with
      | S k => unquote_loop k r
      | O =>
          if Ascii.eqb c backslash then
            match r with
            | EmptyString => None
            | String e r' =>
                let b := byte_val e in
                let simple (z : Z) :=
                  match unquote_loop 1 r with
                  | Some t => Some (String (byte_of z) t)
                  | None => None
                  end in
                if (b =? 34) || (b =? 92) || (b =? 47) || (b =? 39) then simple b
                else if b =? 98 then simple 8
                else if b =? 102 then simple 12
                else if b =? 110 then simple 10
                else if b =? 114 then simple 13
                else if b =? 116 then simple 9
                else if b =? 117 then
                  match getu4 s with
                  | None => None
                  | Some rr =>
                      let single (x : Z) :=
                        match unquote_loop 5 r with
                        | Some t => Some (EncodeRune x ++ t)
                        | None => None
                        end in
                      if in_range 0xD800 0xDFFF rr then
                        let dec :=
                          match getu4 (String.substring 6 (String.length s) s) with
                          | Some rr1 => utf16_DecodeRune rr rr1
                          | None => RuneError
                          end in
                        if dec =? RuneError then single RuneError
                        else
                          match unquote_loop 11 r with
                          | Some t => Some (EncodeRune dec ++ t)
                          | None => None
                          end
                      else single rr
                  end
                else None
            end
          else if Ascii.eqb c dquote || (byte_val c <? 0x20) then None
          else if is_ascii_byte c then
            match unquote_loop 0 r with
            | Some t => Some (String c t)
            | None => None
            end
          else
            let '(rr, size) := DecodeRune s in
            match unquote_loop (Nat.pred size) r with
            | Some t => Some (EncodeRune rr ++ t)
            | None => None
            end
      end
  end.

Definition unquote (raw : string) : option string := unquote_loop 0 raw.

(** [strconv.ParseInt(raw, 10, 64)] on a number token: digits only, within
    [int64]. *)
Definition ParseInt (raw : string) : option Z :=
  let '(neg, body) :=
    match raw with
    | String "-" r => (true, r)
    | _ => (false, raw)
    end in
  match scan_digits body with
  | (EmptyString, _) => None
  | (d, EmptyString) =>
      match read_digits (String.length d) 0 d with
      | Some (v, _) =>
          let z := if neg then - v else v in
          if in_range (- MaxInt64 - 1) MaxInt64 z then Some z else None
      | None => None
      end
  | _ => None
  end.

(** The fields of [CacheMetadata] by their JSON names. *)
Inductive field : Type :=
| FURL | FDownloadedAt | FContentHash | FETag | FLastModified
| FContentType | FSize.

Definition field_names : list (string * field) :=
  [ ("url", FURL); ("downloaded_at", FDownloadedAt);
    ("content_hash", FContentHash); ("etag", FETag);
    ("last_modified", FLastModified); ("content_type", FContentType);
    ("size", FSize) ].

(** The field an object key stands for: the one with that very name, or
    else the first whose folded name is the key's. *)
Definition find_field `{GoLib} (key : string) : option field :=
  match List.find (fun nf => String.eqb (fst nf) key) field_names with
  | Some nf => Some (snd nf)
  | None =>
      match List.find (fun nf => String.eqb (foldName (fst nf)) (foldName key))
                      field_names with
      | Some nf => Some (snd nf)
      | None => None
      end
  end.

(** A JSON value into a [string] field: a string is unquoted, [null]
    leaves the field, anything else is a type error. *)
Definition store_string (v : value) (old : string) : option string :=
  match v with
  | JString raw => unquote raw
  | JNull => Some old
  | _ => None
  end.

(** Into the [int64] field. *)
Definition store_int (v : value) (old : Z) : option Z :=
  match v with
  | JNumber raw => ParseInt raw
  | JNull => Some old
  | _ => None
  end.

(** Into the [time.Time] field, through [Time.UnmarshalJSON], which takes
    the text between the quotes as it is written. *)
Definition store_time `{GoLib} (v : value) (old : Time) : option Time :=
  match v with
  | JString raw => parse_time raw
  | JNull => Some old
  | _ => None
  end.

Definition set_field `{GoLib} (m : CacheMetadata) (f : field) (v : value)
  : option CacheMetadata :=
  match f with
  | FURL =>
      match store_string v (meta_URL m) with
      | Some x => Some {| meta_URL := x; DownloadedAt := DownloadedAt m;
                          ContentHash := ContentHash m; ETag := ETag m;
                          LastModified := LastModified m;
                          ContentType := ContentType m; Size := Size m |}
      | None => None
      end
  | FDownloadedAt =>
      match store_time v (DownloadedAt m) with
      | Some x => Some {| meta_URL := meta_URL m; DownloadedAt := x;
                          ContentHash := ContentHash m; ETag := ETag m;
                          LastModified := LastModified m;
                          ContentType := ContentType m; Size := Size m |}
      | None => None
      end
  | FContentHash =>
      match store_string v (ContentHash m) with
      | Some x => Some {| meta_URL := meta_URL m; DownloadedAt := DownloadedAt m;
                          ContentHash := x; ETag := ETag m;
                          LastModified := LastModified m;
                          ContentType := ContentType m; Size := Size m |}
      | None => None
      end
  | FETag =>
      match store_string v (ETag m) with
      | Some x => Some {| meta_URL := meta_URL m; DownloadedAt := DownloadedAt m;
                          ContentHash := ContentHash m; ETag := x;
                          LastModified := LastModified m;
                          ContentType := ContentType m; Size := Size m |}
      | None => None
      end
  | FLastModified =>
      match store_string v (LastModified m) with
      | Some x => Some {| meta_URL := meta_URL m; DownloadedAt := DownloadedAt m;
                          ContentHash := ContentHash m; ETag := ETag m;
                          LastModified := x;
                          ContentType := ContentType m; Size := Size m |}
      | None => None
      end
  | FContentType =>
      match store_string v (ContentType m) with
      | Some x => Some {| meta_URL := meta_URL m; DownloadedAt := DownloadedAt m;
                          ContentHash := ContentHash m; ETag := ETag m;
                          LastModified := LastModified m;
                          ContentType := x; Size := Size m |}
      | None => None
      end
  | FSize =>
      match store_int v (Size m) with
      | Some x => Some {| meta_URL := meta_URL m; DownloadedAt := DownloadedAt m;
                          ContentHash := ContentHash m; ETag := ETag m;
                          LastModified := LastModified m;
                          ContentType := ContentType m; Size := x |}
      | None => None
      end
  end.

(** The members of the object in turn; a key that names no field is
    passed over with its value. *)
Fixpoint set_members `{GoLib} (m : CacheMetadata)
    (ms : list (string * value)) : option CacheMetadata :=
  match ms with
  | [] => Some m
  | (rawkey, v) :: rest =>
      match unquote rawkey with
      | None => None
      | Some key =>
          match find_field key with
          | None => set_members m rest
          | Some f =>
              match set_field m f v with
              | Some m' => set_members m' rest
              | None => None
              end
          end
      end
  end.

(** The zero [CacheMetadata]; the zero [time.Time] is the first instant
    of year 1, UTC. *)
Definition zero_time : Time :=
  {| year := 1; month := 1; day := 1; hour := 0; minute := 0; second := 0;
     nanosecond := 0; zone_offset := 0 |}.

Definition zero_meta : CacheMetadata :=
  {| meta_URL := ""; DownloadedAt := zero_time; ContentHash := "";
     ETag := ""; LastModified := ""; ContentType := ""; Size := 0 |}.

(** [json.Unmarshal(data, &meta)] on a fresh [CacheMetadata].  The text
    of a decoding error is not modelled. *)
Definition Unmarshal `{GoLib} (data : string) : result CacheMetadata :=
  match parse data with
  | None => Err (LibError "invalid character in JSON input")
  | Some JNull => Ok zero_meta
  | Some (JObject ms) =>
      match set_members zero_meta ms with
      | Some m => Ok m
      | None => Err (LibError "json: cannot unmarshal value into Go struct field")
      end
  | Some _ => Err (LibError "json: cannot unmarshal value into Go value of type rag.CacheMetadata")
  end.

End json.

(** ** The world outside the process *)

(** HTTP messages.  A header is a map from canonical names to values (the
    first value of each name). *)
Record Request := {
  Method : string;
  ReqURL : string;
  ReqHeader : gmap string string
}.

(** A response: [Body] is what the server sends, and [BodyErr] is set when
    the transfer breaks off after these bytes. *)
Record Response := {
  StatusCode : Z;
  RespHeader : gmap string string;
  ContentLength : Z;
  Body : string;
  BodyErr : option string
}.

(** [textproto.CanonicalMIMEHeaderKey]: a key made of header field bytes
    gets an upper-case letter at its start and after each dash, lower-case
    letters elsewhere; any other key is left as it is. *)
Definition validHeaderFieldByte (c : ascii) : bool :=
  let b := byte_val c in
  in_range 48 57 b || in_range 65 90 b || in_range 97 122 b
  || existsb (Z.eqb b) [33; 35; 36; 37; 38; 39; 42; 43; 45; 46; 94; 95; 96; 124; 126].

Fixpoint canonical_loop (upper : bool) (s : string) : string :=
  match s with
  | EmptyString => EmptyString
  | String c r =>
      let b := byte_val c in
      let c' :=
        if upper && in_range 97 122 b then byte_of (b - 32)
        else if negb upper && in_range 65 90 b then byte_of (b + 32)
        else c in
      String c' (canonical_loop (Ascii.eqb c' "-") r)
  end.

Definition CanonicalMIMEHeaderKey (s : string) : string :=
  if all_bytes validHeaderFieldByte s then canonical_loop true s else s.

(** [Header.Get]. *)
Definition Header_Get (h : gmap string string) (key : string) : string :=
  match h !! CanonicalMIMEHeaderKey key with
  | Some v => v
  | None => ""
  end.

Inductive level : Type := LDebug | LInfo | LWarn.

(** What the process does to the outside, in order. *)
Inductive event : Type :=
| EvHTTP (req : Request)
| EvBodyRead (n : Z)
| EvStat (path : string)
| EvMkdirAll (path : string)
| EvWriteFile (path data : string)
| EvReadFile (path : string)
| EvLog (lvl : level) (msg : string).

(** The state: the regular files with their contents, and the events so
    far (the oldest first). *)
Record World := {
  files : gmap string string;
  trace : list event
}.

(** What the outside answers, fixed for the run of one operation.
    [write_fault p = Some (msg, n)] makes [os.WriteFile] on [p] fail with
    [msg]; with [n = Some k] only after it has left the first [k] bytes in
    the file, with [n = None] before it touches the file. *)
Record Env := {
  http_Do : Request -> string + Response;
  stat_fault : string -> option string;
  mkdir_fault : string -> option string;
  write_fault : string -> option (string * option nat);
  read_fault : string -> option string;
  now : Time
}.

(** State passing. *)
Definition M (A : Type) : Type := World -> A * World.

Definition ret {A : Type} (a : A) : M A := fun w => (a, w).

Definition bind {A B : Type} (m : M A) (k : A -> M B) : M B :=
  fun w => let '(a, w') := m w in k a w'.

Notation "'let*' x ':=' m 'in' k" := (bind m (fun x => k))
  (at level 10, x name, m at level 100, k at level 200).
Notation "m ';;' k" := (bind m (fun _ => k))
  (at level 100, k at level 200, right associativity).

Definition emit (e : event) : M unit :=
  fun w => (tt, {| files := files w; trace := trace w ++ [e] |}).

Definition log (lvl : level) (msg : string) : M unit := emit (EvLog lvl msg).

Definition get_files : M (gmap string string) := fun w => (files w, w).

Definition put_file (path data : string) : M unit :=
  fun w => (tt, {| files := <[path := data]> (files w); trace := trace w |}).

Inductive stat_result : Type :=
| StatOk
| StatNotExist
| StatErr (msg : string).

(** [os.Stat]. *)
Definition os_Stat (env : Env) (path : string) : M stat_result :=
  emit (EvStat path) ;;
  let* fs := get_files in
  match stat_fault env path with
  | Some msg => ret (StatErr msg)
  | None =>
      match fs !! path with
      | Some _ => ret StatOk
      | None => ret StatNotExist
      end
  end.

(** [os.MkdirAll]. *)
Definition os_MkdirAll (env : Env) (path : string) : M (option error) :=
  emit (EvMkdirAll path) ;;
  match mkdir_fault env path with
  | Some msg => ret (Some (LibError msg))
  | None => ret None
  end.

(** [os.WriteFile]. *)
Definition os_WriteFile (env : Env) (path data : string) : M (option error) :=
  emit (EvWriteFile path data) ;;
  match write_fault env path with
  | None => put_file path data ;; ret None
  | Some (msg, None) => ret (Some (LibError msg))
  | Some (msg, Some k) =>
      put_file path (String.substring 0 k data) ;; ret (Some (LibError msg))
  end.

(** [os.ReadFile]. *)
Definition os_ReadFile (env : Env) (path : string) : M (result string) :=
  emit (EvReadFile path) ;;
  let* fs := get_files in
  match read_fault env path with
  | Some msg => ret (Err (LibError msg))
  | None =>
      match fs !! path with
      | Some data => ret (Ok data)
      | None => ret (Err (LibError ("open " ++ path ++ ": no such file or directory")))
      end
  end.

(** [httpClient.Do]: the text of the transport error, or the response. *)
Definition http_Client_Do (env : Env) (req : Request) : M (string + Response) :=
  emit (EvHTTP req) ;; ret (http_Do env req).

(** [io.ReadAll(io.LimitReader(resp.Body, n))]: at most [n] bytes are taken
    from the body, none when [n <= 0]; the transfer error shows only when
    the body ends before the limit. *)
Definition ReadAll_LimitReader (resp : Response) (n : Z) : M (result string) :=
  if n <=? 0 then emit (EvBodyRead 0) ;; ret (Ok "")
  else
    let got := String.substring 0 (Z.to_nat n) (Body resp) in
    emit (EvBodyRead (len got)) ;;
    if len (Body resp) <? n then
      match BodyErr resp with
      | Some msg => ret (Err (LibError msg))
      | None => ret (Ok got)
      end
    else ret (Ok got).

(** ** cache.go (continued) *)

Definition metadataExt : string := ".meta.json".
Definition documentExt : string := ".txt".

(** [GetCachedDocumentPath]. *)
Definition GetCachedDocumentPath (cacheDir url : string) : string :=
  let hash := hashURL url in
  filepath.Join [cacheDir; "documents"; hash ++ documentExt].

(** [GetCachedMetadataPath]. *)
Definition GetCachedMetadataPath (cacheDir url : string) : string :=
  let hash := hashURL url in
  filepath.Join [cacheDir; "documents"; hash ++ metadataExt].

(** [LoadMetadata]. *)
Definition LoadMetadata `{GoLib} (env : Env) (path : string)
  : M (result CacheMetadata) :=
  let* r := os_ReadFile env path in
  match r with
  | Err err => ret (Err (Errorf "failed to read metadata file" err))
  | Ok data =>
      match json.Unmarshal data with
      | Err err => ret (Err (Errorf "failed to parse metadata" err))
      | Ok meta => ret (Ok meta)
      end
  end.

(** [SaveMetadata]. *)
Definition SaveMetadata (env : Env) (path : string) (meta : CacheMetadata)
  : M (option error) :=
  let dir := filepath.Dir path in
  let* e := os_MkdirAll env dir in
  match e with
  | Some err => ret (Some (Errorf "failed to create metadata directory" err))
  | None =>
      match json.MarshalIndent meta with
      | Err err => ret (Some (Errorf "failed to marshal metadata" err))
      | Ok data =>
          let* e := os_WriteFile env path data in
          match e with
          | Some err => ret (Some (Errorf "failed to write metadata file" err))
          | None => ret None
          end
      end
  end.

(** [ValidatePath]: [None] is the nil error. *)
Definition ValidatePath (path : string) : option error :=
  if Contains path ".." then Some (ErrPathTraversal path)
  else
    let cleanPath := filepath.Clean path in
    if Contains cleanPath ".." then Some (ErrPathTraversal path)
    else None.

(** ** downloader.go *)

Record DocumentDownloader := {
  config : DownloaderConfig;
  cacheDir : string
}.

Definition textTypes : list string :=
  [ "text/"; "application/json"; "application/xml"; "application/javascript";
    "application/x-yaml"; "application/yaml" ].

(** [isTextContentType]. *)
Definition isTextContentType `{GoLib} (contentType : string) : bool :=
  let contentType := List.hd "" (Split contentType ";") in
  let contentType := TrimSpace (ToLower contentType) in
  existsb (fun textType => HasPrefix contentType textType) textTypes.

(** [validateURL]. *)
Definition validateURL `{GoLib} (urlStr : string) : option error :=
  match url_Parse urlStr with
  | inl msg => Some (ErrInvalidURL ("failed to parse: " ++ msg))
  | inr parsedURL =>
      if negb (String.eqb (Scheme parsedURL) "http")
         && negb (String.eqb (Scheme parsedURL) "https") then
        Some (ErrInvalidURL ("unsupported scheme: " ++ Scheme parsedURL))
      else if String.eqb (Host parsedURL) "" then
        Some (ErrInvalidURL "missing host")
      else None
  end.

(** [http.NewRequest] with a valid method and no body: it fails when the
    URL does not parse. *)
Definition NewRequest `{GoLib} (method urlStr : string) : result Request :=
  match url_Parse urlStr with
  | inl msg => Err (LibError msg)
  | inr _ => Ok {| Method := method; ReqURL := urlStr; ReqHeader := ∅ |}
  end.

(** [Header.Set]. *)
Definition Header_Set (req : Request) (key val : string) : Request :=
  {| Method := Method req; ReqURL := ReqURL req;
     ReqHeader := <[CanonicalMIMEHeaderKey key := val]> (ReqHeader req) |}.

(** [GetCachedPath]: the path, whether it exists, and the error. *)
Definition GetCachedPath (env : Env) (d : DocumentDownloader) (urlStr : string)
  : M (string * bool * option error) :=
  let docPath := GetCachedDocumentPath (cacheDir d) urlStr in
  let* st := os_Stat env docPath in
  match st with
  | StatNotExist => ret ("", false, None)
  | StatErr msg =>
      ret ("", false, Some (Errorf "failed to stat cached file" (LibError msg)))
  | StatOk => ret (docPath, true, None)
  end.

(** [checkCacheFreshness]. *)
Definition checkCacheFreshness `{GoLib} (env : Env) (d : DocumentDownloader)
    (urlStr : string) (meta : CacheMetadata) : M (bool * option error) :=
  match NewRequest "HEAD" urlStr with
  | Err err => ret (false, Some (Errorf "failed to create HEAD request" err))
  | Ok req =>
      let req :=
        if negb (String.eqb (ETag meta) "")
        then Header_Set req "If-None-Match" (ETag meta) else req in
      let req :=
        if negb (String.eqb (LastModified meta) "")
        then Header_Set req "If-Modified-Since" (LastModified meta) else req in
      let* r := http_Client_Do env req in
      match r with
      | inl msg =>
          log LDebug ("HEAD request failed for " ++ urlStr
                      ++ ", assuming cache is valid: " ++ msg) ;;
          ret (true, None)
      | inr resp =>
          if StatusCode resp =? 304 then ret (true, None)
          else ret (false, None)
      end
  end.

(** [ValidateCache]. *)
Definition ValidateCache `{GoLib} (env : Env) (d : DocumentDownloader)
    (urlStr : string) : M (bool * option error) :=
  let metaPath := GetCachedMetadataPath (cacheDir d) urlStr in
  let* r := LoadMetadata env metaPath in
  match r with
  | Err err => ret (false, Some (Errorf "failed to load metadata" err))
  | Ok meta =>
      if String.eqb (ETag meta) "" && String.eqb (LastModified meta) "" then
        ret (true, None)
      else checkCacheFreshness env d urlStr meta
  end.

(** [downloadWithValidation]: the content and its metadata. *)
Definition downloadWithValidation `{GoLib} (env : Env) (d : DocumentDownloader)
    (urlStr : string) : M (result (string * CacheMetadata)) :=
  match NewRequest "GET" urlStr with
  | Err err => ret (Err (Errorf "failed to create request" err))
  | Ok req =>
      let* r := http_Client_Do env req in
      match r with
      | inl msg => ret (Err (ErrDownloadFailed urlStr msg))
      | inr resp =>
          if negb (StatusCode resp =? 200) then
            ret (Err (ErrDownloadFailed urlStr ("HTTP " ++ itoa (StatusCode resp))))
          else
            let contentType := Header_Get (RespHeader resp) "Content-Type" in
            if negb (isTextContentType contentType) then
              ret (Err (ErrNotTextFile ("content type: " ++ contentType)))
            else if ContentLength resp >? MaxSize (config d) then
              ret (Err (ErrFileTooLarge (ContentLength resp) (MaxSize (config d))))
            else
              let* rd := ReadAll_LimitReader resp (wrap64 (MaxSize (config d) + 1)) in
              match rd with
              | Err err => ret (Err (Errorf "failed to read response body" err))
              | Ok content =>
                  if len content >? MaxSize (config d) then
                    ret (Err (ErrFileTooLarge (len content) (MaxSize (config d))))
                  else
                    let meta :=
                      {| meta_URL := urlStr;
                         DownloadedAt := now env;
                         ContentHash := ComputeContentHash content;
                         ETag := Header_Get (RespHeader resp) "ETag";
                         LastModified := Header_Get (RespHeader resp) "Last-Modified";
                         ContentType := contentType;
                         Size := len content |} in
                    ret (Ok (content, meta))
              end
      end
  end.

(** The second half of [Download], from "Download the document" on. *)
Definition fetch_and_store `{GoLib} (env : Env) (d : DocumentDownloader)
    (urlStr : string) : M (result string) :=
  log LInfo ("Downloading document from " ++ urlStr) ;;
  let* r := downloadWithValidation env d urlStr in
  match r with
  | Err err => ret (Err (Errorf "download failed" err))
  | Ok (content, meta) =>
      let docPath := GetCachedDocumentPath (cacheDir d) urlStr in
      let metaPath := GetCachedMetadataPath (cacheDir d) urlStr in
      let* e := os_MkdirAll env (filepath.Dir docPath) in
      match e with
      | Some err => ret (Err (Errorf "failed to create cache directory" err))
      | None =>
          let* e := os_WriteFile env docPath content in
          match e with
          | Some err => ret (Err (Errorf "failed to write document to cache" err))
          | None =>
              let* e := SaveMetadata env metaPath meta in
              match e with
              | Some err =>
                  log LWarn ("Failed to save metadata for " ++ urlStr ++ ": "
                             ++ Error err)
              | None => ret tt
              end ;;
              log LInfo ("Downloaded and cached document from " ++ urlStr ++ " ("
                         ++ itoa (len content) ++ " bytes)") ;;
              ret (Ok docPath)
          end
      end
  end.

(** [Download]. *)
Definition Download `{GoLib} (env : Env) (d : DocumentDownloader)
    (urlStr : string) : M (result string) :=
  match validateURL urlStr with
  | Some err => ret (Err (Errorf "invalid URL" err))
  | None =>
      let* cached := GetCachedPath env d urlStr in
      let '(cachedPath, found, err) := cached in
      match err with
      | Some err =>
          log LWarn ("Failed to check cache for " ++ urlStr ++ ": " ++ Error err)
      | None => ret tt
      end ;;
      if found && negb (ForceRefresh (config d)) then
        let* checked := ValidateCache env d urlStr in
        let '(valid, err) := checked in
        match err with
        | Some err =>
            log LWarn ("Failed to validate cache for " ++ urlStr ++ ": "
                       ++ Error err) ;;
            fetch_and_store env d urlStr
        | None =>
            if valid then
              log LDebug ("Using cached document for " ++ urlStr) ;;
              ret (Ok cachedPath)
            else fetch_and_store env d urlStr
        end
      else fetch_and_store env d urlStr
  end.

(** ** scanner.go *)

(** What is found at a path, under the name that is the last element of
    the path.  [File] is an entry that is neither a directory nor a
    symbolic link; [Dir] carries the error of reading the directory, if
    any, and its entries in the order [filepath.Walk] lists them (by
    name); [Broken] is an entry that cannot be examined, with the text of
    the error; [Link] is a symbolic link, with what it leads to ([Broken]
    for a link that leads nowhere). *)
Inductive node : Type :=
| File (name : string)
| Dir (name : string) (readErr : option string) (entries : list node)
| Broken (name : string) (msg : string)
| Link (name : string) (target : node).

Definition node_name (n : node) : string :=
  match n with
  | File name => name
  | Dir name _ _ => name
  | Broken name _ => name
  | Link name _ => name
  end.

(** Whether the entry itself is a directory: a symbolic link is not. *)
Definition node_isDir (n : node) : bool :=
  match n with
  | Dir _ _ _ => true
  | _ => false
  end.

(** [os.FileInfo], as far as the scanner looks at it. *)
Record FileInfo := { Name : string; IsDir : bool }.

Definition info_of (n : node) : FileInfo :=
  {| Name := node_name n; IsDir := node_isDir n |}.

(** [os.Lstat]: the entry itself, a symbolic link not being followed. *)
Definition node_Lstat (n : node) : string + FileInfo :=
  match n with
  | Broken _ msg => inl msg
  | _ => inr (info_of n)
  end.

(** [os.Stat]: what the entry is once symbolic links are followed, under
    the name of the entry. *)
Fixpoint node_Stat (n : node) : string + FileInfo :=
  match n with
  | Broken _ msg => inl msg
  | Link name target =>
      match node_Stat target with
      | inl msg => inl msg
      | inr info => inr {| Name := name; IsDir := IsDir info |}
      end
  | _ => inr (info_of n)
  end.

(** What a [filepath.WalkFunc] returns. *)
Inductive walk_ret : Type :=
| WNil
| WSkipDir
| WErr (e : error).

(** The variables the walk function closes over: the [files] slice and the
    logger's output, and the number of times the context was polled. *)
Record ScanState := {
  found : list string;
  slog : list event;
  polls : nat
}.

Definition textExtensions : list string :=
  [ ".txt"; ".md"; ".markdown";
    ".json"; ".yaml"; ".yml";
    ".xml"; ".html"; ".htm";
    ".csv"; ".tsv";
    ".log";
    ".rst"; ".adoc"; ".asciidoc";
    ".tex"; ".latex";
    ".org";
    ".conf"; ".config"; ".cfg";
    ".ini"; ".toml";
    ".sh"; ".bash"; ".zsh";
    ".py"; ".js"; ".ts"; ".go"; ".java"; ".c"; ".cpp"; ".h"; ".hpp";
    ".rb"; ".php"; ".pl"; ".lua"; ".r";
    ".css"; ".scss"; ".sass"; ".less";
    ".sql" ].

(** [IsTextFile]. *)
Definition IsTextFile `{GoLib} (path : string) : bool :=
  let ext := ToLower (filepath.Ext path) in
  existsb (fun textExt => String.eqb ext textExt) textExtensions.

(** The [walkFunc] closure of [ScanDirectory].  [ctx k] is what the
    context shows at the poll number [k]: [None] while it is not done, and
    once it is done the text of [ctx.Err()] ([context canceled] or
    [context deadline exceeded] for the contexts of the standard
    library). *)
Definition walkFunc `{GoLib} (ctx : nat -> option string) (absPath : string)
    (recursive : bool) (path : string) (info : option FileInfo)
    (err : option string) (st : ScanState) : walk_ret * ScanState :=
  let st1 := {| found := found st; slog := slog st; polls := S (polls st) |} in
  match ctx (polls st) with
  | Some done => (WErr (LibError done), st1)
  | None =>
    match err, info with
    | Some msg, _ =>
        (WNil, {| found := found st1;
                  slog := slog st1 ++ [EvLog LWarn ("Error accessing path " ++ path
                                                     ++ ": " ++ msg)];
                  polls := polls st1 |})
    | None, None => (WNil, st1)
    | None, Some info =>
        if IsDir info then
          if negb (String.eqb path absPath) && negb recursive then (WSkipDir, st1)
          else (WNil, st1)
        else if HasPrefix (Name info) "." then (WNil, st1)
        else if IsTextFile path then
          (WNil, {| found := found st1 ++ [path];
                    slog := slog st1 ++ [EvLog LDebug ("Found text file: " ++ path)];
                    polls := polls st1 |})
        else (WNil, st1)
    end
  end.

(** [walk] of path/filepath: the function on the node itself as
    [os.Lstat] shows it, then, for a readable directory the function did
    not skip, on its entries in order.  A symbolic link is not a directory
    here, whatever it leads to. *)
Fixpoint walk (fn : string -> option FileInfo -> option string ->
                    ScanState -> walk_ret * ScanState)
    (path : string) (n : node) (st : ScanState) : walk_ret * ScanState :=
  match n with
  | File _ | Link _ _ | Broken _ _ =>
      match node_Lstat n with
      | inl msg => fn path None (Some msg) st
      | inr info => fn path (Some info) None st
      end
  | Dir _ readErr entries =>
      let '(err1, st1) := fn path (Some (info_of n)) readErr st in
      match readErr, err1 with
      | None, WNil =>
          (fix loop (es : list node) (st : ScanState) : walk_ret * ScanState :=
             match es with
             | [] => (WNil, st)
             | e :: rest =>
                 let filename := filepath.Join [path; node_name e] in
                 let '(r, st') := walk fn filename e st in
                 match r with
                 | WNil => loop rest st'
                 | WSkipDir =>
                     match e with
                     | File _ | Link _ _ => (r, st')
                     | _ => loop rest st'
                     end
                 | WErr _ => (r, st')
                 end
             end) entries st1
      | _, _ => (err1, st1)
      end
  end.

(** [filepath.Walk]. *)
Definition Walk (root : string) (n : node)
    (fn : string -> option FileInfo -> option string ->
          ScanState -> walk_ret * ScanState)
    (st : ScanState) : option error * ScanState :=
  let '(r, st') := walk fn root n st in
  match r with
  | WErr e => (Some e, st')
  | _ => (None, st')
  end.

(** [ScanDirectory].  [getwd] is the answer of [os.Getwd] and [fs p] what
    is found at the absolute path [p]: [os.Stat] looks at it through
    symbolic links, [filepath.Walk] does not. *)
Definition ScanDirectory `{GoLib} (ctx : nat -> option string)
    (getwd : string + string) (fs : string -> node)
    (dirPath : string) (recursive : bool)
    : result (list string) * list event :=
  match ValidatePath dirPath with
  | Some err => (Err (Errorf "invalid directory path" err), [])
  | None =>
      match filepath.Abs getwd dirPath with
      | inl msg =>
          (Err (Errorf "failed to resolve absolute path" (LibError msg)), [])
      | inr absPath =>
          match node_Stat (fs absPath) with
          | inl msg =>
              (Err (Errorf "failed to stat directory" (LibError msg)), [])
          | inr info =>
              if negb (IsDir info) then
                (Err (ErrInvalidPath (absPath ++ " is not a directory")), [])
              else
                let '(err, st) :=
                  Walk absPath (fs absPath) (walkFunc ctx absPath recursive)
                       {| found := []; slog := []; polls := O |} in
                match err with
                | Some err => (Err (Errorf "failed to walk directory" err), slog st)
                | None =>
                    (Ok (found st),
                     (slog st
                      ++ [EvLog LInfo ("Scanned directory " ++ dirPath ++ ": found "
                              ++ itoa (Z.of_nat (List.length (found st)))
                              ++ " text files")])%list)
                end
          end
      end
  end.

(** [ScanFile]. *)
Definition ScanFile `{GoLib} (getwd : string + string) (fs : string -> node)
    (filePath : string) : result string * list event :=
  match ValidatePath filePath with
  | Some err => (Err (Errorf "invalid file path" err), [])
  | None =>
      match filepath.Abs getwd filePath with
      | inl msg =>
          (Err (Errorf "failed to resolve absolute path" (LibError msg)), [])
      | inr absPath =>
          match node_Stat (fs absPath) with
          | inl msg => (Err (Errorf "failed to stat file" (LibError msg)), [])
          | inr info =>
              if IsDir info then
                (Err (ErrInvalidPath (absPath ++ " is a directory, not a file")), [])
              else if negb (IsTextFile absPath) then
                (Err (ErrNotTextFile absPath), [])
              else (Ok absPath, [EvLog LDebug ("Validated text file: " ++ absPath)])
          end
      end
  end.

(** ** cache.go and downloader.go: setting up a downloader *)

(** [runtime.GOOS], for the hosts whose paths are the Unix paths
    [path/filepath] is modelled for above: [darwin], [android], [ios], and
    [unix] for Linux, the BSDs and the like (the [default] of the switches
    below).  Windows and Plan 9 are left out. *)
Inductive GOOS : Type := darwin | android | ios | unix.

(** [os.Getenv]: the empty string for a variable that is not set. *)
Definition os_Getenv (vars : gmap string string) (key : string) : string :=
  match vars !! key with
  | Some v => v
  | None => ""
  end.

(** [os.UserHomeDir]. *)
Definition os_UserHomeDir (goos : GOOS) (vars : gmap string string)
  : result string :=
  let v := os_Getenv vars "HOME" in
  if negb (String.eqb v "") then Ok v
  else
    match goos with
    | android => Ok "/sdcard"
    | ios => Ok "/"
    | _ => Err (LibError "$HOME is not defined")
    end.

Definition CacheDirEnv : string := "MCPSHELL_RAG_CACHE_DIR".
Definition cacheSubDir : string := "don/rag".

(** [GetCacheDir]. *)
Definition GetCacheDir (goos : GOOS) (vars : gmap string string)
  : result string :=
  let cacheDir := os_Getenv vars CacheDirEnv in
  if negb (String.eqb cacheDir "") then Ok cacheDir
  else
    match goos with
    | darwin =>
        match os_UserHomeDir goos vars with
        | Err err => Err (Errorf "failed to get home directory" err)
        | Ok home => Ok (filepath.Join [home; "Library"; "Caches"; cacheSubDir])
        end
    | _ =>
        let xdgCache := os_Getenv vars "XDG_CACHE_HOME" in
        if negb (String.eqb xdgCache "") then
          Ok (filepath.Join [xdgCache; cacheSubDir])
        else
          match os_UserHomeDir goos vars with
          | Err err => Err (Errorf "failed to get home directory" err)
          | Ok home => Ok (filepath.Join [home; ".cache"; cacheSubDir])
          end
    end.

(** [EnsureCacheDir]. *)
Definition EnsureCacheDir (env : Env) (dir : string) : M (option error) :=
  let* e := os_MkdirAll env dir in
  match e with
  | Some err =>
      ret (Some (Errorf ("failed to create cache directory " ++ dir) err))
  | None => ret None
  end.

(** [DefaultConfig]; a [time.Duration] counts nanoseconds. *)
Definition DefaultConfig (logger : bool) : DownloaderConfig :=
  {| CacheDir := "";
     Timeout := 30 * 1000000000;
     MaxSize := 10 * 1024 * 1024;
     ForceRefresh := false;
     Logger := logger |}.

(** [NewDownloader].  The HTTP client it makes is the [http_Do] of the
    environment. *)
Definition NewDownloader (goos : GOOS) (vars : gmap string string) (env : Env)
    (config : DownloaderConfig) : M (result DocumentDownloader) :=
  match ValidateConfig config with
  | Some err => ret (Err (Errorf "invalid configuration" err))
  | None =>
      match (if String.eqb (CacheDir config) "" then GetCacheDir goos vars
             else Ok (CacheDir config)) with
      | Err err => ret (Err (Errorf "failed to get cache directory" err))
      | Ok cacheDir =>
          let* e := EnsureCacheDir env cacheDir in
          match e with
          | Some err => ret (Err (Errorf "failed to ensure cache directory" err))
          | None =>
              log LDebug ("Initialized RAG downloader with cache directory: "
                          ++ cacheDir) ;;
              ret (Ok {| config := config; cacheDir := cacheDir |})
          end
      end
  end.

(** ** pkg/agent/rag.go *)

Fixpoint emit_all (evs : list event) : M unit :=
  match evs with
  | [] => ret tt
  | e :: rest => emit e ;; emit_all rest
  end.

(** The loop of [processDocuments] over [docs], with [processedDocs] so
    far; [i] is the position of the next document.  [getwd] is the answer
    of [os.Getwd], [local p] is what is found at the local path [p], and
    [ctx i k] is what the context shows at poll [k] of the scan made for
    the document at position [i]. *)
Fixpoint processDocuments_from `{GoLib} (env : Env) (d : DocumentDownloader)
    (ctx : nat -> nat -> option string) (getwd : string + string)
    (local : string -> node)
    (i : nat) (docs : list string) (processedDocs : list string)
    : M (result (list string)) :=
  match docs with
  | [] => ret (Ok processedDocs)
  | doc :: rest =>
      if HasPrefix doc "http://" || HasPrefix doc "https://" then
        log LDebug ("Downloading remote document: " ++ doc) ;;
        let* r := Download env d doc in
        match r with
        | Err err =>
            ret (Err (Errorf ("failed to download document '" ++ doc ++ "'") err))
        | Ok localPath =>
            log LDebug ("Downloaded to: " ++ localPath) ;;
            processDocuments_from env d ctx getwd local (S i) rest
              (processedDocs ++ [localPath])%list
        end
      else
        match filepath.Abs getwd doc with
        | inl msg =>
            ret (Err (Errorf ("failed to resolve path '" ++ doc ++ "'")
                        (LibError msg)))
        | inr absPath =>
            match node_Stat (local absPath) with
            | inl msg =>
                ret (Err (Errorf ("failed to access path '" ++ absPath ++ "'")
                            (LibError msg)))
            | inr info =>
                if IsDir info then
                  log LDebug ("Scanning directory: " ++ absPath) ;;
                  let scanned := ScanDirectory (ctx i) getwd local absPath true in
                  emit_all (snd scanned) ;;
                  match fst scanned with
                  | Err err =>
                      ret (Err (Errorf ("failed to scan directory '" ++ absPath
                                        ++ "'") err))
                  | Ok files =>
                      log LDebug ("Found " ++ itoa (Z.of_nat (List.length files))
                                  ++ " files in directory") ;;
                      processDocuments_from env d ctx getwd local (S i) rest
                        (processedDocs ++ files)%list
                  end
                else
                  log LDebug ("Adding file: " ++ absPath) ;;
                  processDocuments_from env d ctx getwd local (S i) rest
                    (processedDocs ++ [absPath])%list
            end
        end
  end.

(** [processDocuments], with the downloader and the scanner of
    [ProcessRAGSources]. *)
Definition processDocuments `{GoLib} (env : Env) (d : DocumentDownloader)
    (ctx : nat -> nat -> option string) (getwd : string + string)
    (local : string -> node)
    (docs : list string) : M (result (list string)) :=
  processDocuments_from env d ctx getwd local O docs [].

(** ** Definitions used to state the properties *)

(** A stand-in for the library parameters where a property is evaluated on
    concrete, ASCII inputs: the Unicode fall-backs are never reached there,
    and the URL parser reads [scheme://host/...] only. *)
Fixpoint before_colon (s : string) : option (string * string) :=
  match s with
  | EmptyString => None
  | String c r =>
      if Ascii.eqb c ":" then Some (EmptyString, r)
      else match before_colon r with
           | Some (a, b) => Some (String c a, b)
           | None => None
           end
  end.

Definition example_url_Parse (s : string) : string + URL :=
  if negb (all_bytes (fun c => negb (asciiSpace c)) s) then
    inl ("parse " ++ s ++ ": invalid character in URL")
  else
    match before_colon s with
    | Some (scheme, String "/" (String "/" r)) =>
        inr {| Scheme := scheme; Host := List.hd "" (Split r "/") |}
    | Some (scheme, _) => inr {| Scheme := scheme; Host := "" |}
    | None => inr {| Scheme := ""; Host := "" |}
    end.

Definition example_lib : GoLib :=
  {| MapToLower := fun s => s;
     TrimFuncIsSpace := fun s => s;
     TrimRightFuncIsSpace := fun s => s;
     url_Parse := example_url_Parse;
     foldName := map_bytes lower_byte;
     time_Parse_layout := fun _ => None |}.

(** The digits of lower-case hexadecimal. *)
Definition is_lower_hex (c : ascii) : bool :=
  in_range 48 57 (byte_val c) || in_range 97 102 (byte_val c).

(** The byte a pair of hexadecimal digits stands for. *)
Definition unhex (hi lo : ascii) : ascii :=
  match json.hexval hi, json.hexval lo with
  | Some a, Some b => byte_of (16 * a + b)
  | _, _ => "000"%char
  end.

(** The allow-list as the specification words it: any type under
    [text/], or one of five types by name. *)
Definition spec_allow_list (t : string) : bool :=
  HasPrefix t "text/" ||
  existsb (String.eqb t)
    [ "application/json"; "application/xml"; "application/javascript";
      "application/x-yaml"; "application/yaml" ].

(** The specification's [isTextLike]: parameters stripped, lower-cased,
    looked up in the allow-list. *)
Definition spec_isTextLike `{GoLib} (contentType : string) : bool :=
  spec_allow_list (ToLower (List.hd "" (Split contentType ";"))).

(** The world with further events. *)
Definition add_events (w : World) (evs : list event) : World :=
  {| files := files w; trace := trace w ++ evs |}.

(** What [filepath.Clean] makes of the directory part [P] of a path
    [P/x], up to and including the separator before [x]. *)
Definition clean_prefix (P : string) : string :=
  let rooted := HasPrefix P "/" in
  let l := rev (fold_left (filepath.clean_step rooted) (Split P filepath.Separator) []) in
  (if rooted then "/" else "") ++
  match l with
  | [] => ""
  | _ => JoinStrings l "/" ++ "/"
  end.

Definition no_sep (c : ascii) : bool := negb (Ascii.eqb c filepath.Separator).

Definition cache_documents_dir (cacheDir : string) : string :=
  if String.eqb cacheDir "" then "documents" else cacheDir ++ "/" ++ "documents".

(** The conditional request of the freshness check: a HEAD request for
    the URL that carries [If-None-Match] with the stored ETag and
    [If-Modified-Since] with the stored Last-Modified value, each when the
    stored value is not empty. *)
Definition is_conditional_request (req : Request) (url : string)
    (meta : CacheMetadata) : Prop :=
  Method req = "HEAD" /\ ReqURL req = url /\
  ReqHeader req !! "If-None-Match"
  = (if String.eqb (ETag meta) "" then None else Some (ETag meta)) /\
  ReqHeader req !! "If-Modified-Since"
  = (if String.eqb (LastModified meta) "" then None else Some (LastModified meta)).

(** A server, a file system without faults, a clock and a downloader, for
    the concrete runs below. *)
Definition example_response (status : Z) (contentType : string)
    (declared : Z) (body : string) : Response :=
  {| StatusCode := status;
     RespHeader := <["Content-Type" := contentType]> (<["Etag" := "v1"]> ∅);
     ContentLength := declared;
     Body := body;
     BodyErr := None |}.

Definition example_time : Time :=
  {| year := 2024; month := 1; day := 1; hour := 12; minute := 30;
     second := 15; nanosecond := 250000000; zone_offset := 3600 |}.

Definition example_env (answer : string + Response) : Env :=
  {| http_Do := fun _ => answer;
     stat_fault := fun _ => None;
     mkdir_fault := fun _ => None;
     write_fault := fun _ => None;
     read_fault := fun _ => None;
     now := example_time |}.

Definition example_downloader (maxSize : Z) : DocumentDownloader :=
  {| config := {| CacheDir := "/cache"; Timeout := 30000000000;
                  MaxSize := maxSize; ForceRefresh := false; Logger := true |};
     cacheDir := "/cache" |}.

Definition empty_world : World := {| files := ∅; trace := [] |}.

(** What reading the body of [resp] behind a limit of [n] bytes returns:
    the result of [ReadAll_LimitReader], which does not depend on the
    world. *)
Definition body_read (resp : Response) (n : Z) : result string :=
  fst (ReadAll_LimitReader resp n empty_world).

(** The world after a first download of the example document, and the
    metadata stored by it. *)
Definition example_url : string := "https://example.com/a.txt".

Definition cached_world : World :=
  snd (Download (H := example_lib)
         (example_env (inr (example_response 200 "text/plain" 5 "hello")))
         (example_downloader 1024) example_url empty_world).

Definition cached_data : string :=
  match files cached_world !! GetCachedMetadataPath "/cache" example_url with
  | Some data => data
  | None => ""
  end.

Definition cached_meta : CacheMetadata :=
  match json.Unmarshal (H := example_lib) cached_data with
  | Ok meta => meta
  | Err _ => json.zero_meta
  end.

(** A file system on which the metadata file of the example cannot be
    written: the write breaks off after three bytes. *)
Definition metadata_fault_env : Env :=
  {| http_Do := fun _ => inr (example_response 200 "text/plain" 5 "hello");
     stat_fault := fun _ => None;
     mkdir_fault := fun _ => None;
     write_fault := fun p =>
       if String.eqb p (GetCachedMetadataPath "/cache" example_url)
       then Some ("write: no space left on device", Some 3%nat) else None;
     read_fault := fun _ => None;
     now := example_time |}.

(** The files a scan returns, read off the tree: in a readable directory
    that is the root or is entered (any directory when [recursive], the
    root alone otherwise) the entries that are not directories (files and
    symbolic links), whose name does not begin with a dot and whose
    extension is a text one, in order.  Nothing is read behind a symbolic
    link, the root included. *)
Fixpoint text_files `{GoLib} (recursive : bool) (absPath path : string)
    (n : node) : list string :=
  match n with
  | File name | Link name _ =>
      if HasPrefix name "." then []
      else if IsTextFile path then [path] else []
  | Broken _ _ => []
  | Dir _ (Some _) _ => []
  | Dir _ None entries =>
      if negb (String.eqb path absPath) && negb recursive then []
      else
        (fix each (es : list node) : list string :=
           match es with
           | [] => []
           | e :: rest =>
               (text_files recursive absPath
                  (filepath.Join [path; node_name e]) e ++ each rest)%list
           end) entries
  end.

(** The scan as the specification words it: every hidden entry is
    skipped, a file as well as a directory with all that is below it. *)
Fixpoint spec_text_files `{GoLib} (recursive : bool) (absPath path : string)
    (n : node) : list string :=
  match n with
  | File name | Link name _ =>
      if HasPrefix name "." then []
      else if IsTextFile path then [path] else []
  | Broken _ _ => []
  | Dir _ (Some _) _ => []
  | Dir name None entries =>
      if negb (String.eqb path absPath)
         && (negb recursive || HasPrefix name ".") then []
      else
        (fix each (es : list node) : list string :=
           match es with
           | [] => []
           | e :: rest =>
               (spec_text_files recursive absPath
                  (filepath.Join [path; node_name e]) e ++ each rest)%list
           end) entries
  end.

(** The paths of the entries below a node that are not directories, each
    with the name of the entry. *)
Fixpoint file_entries (path : string) (n : node) : list (string * string) :=
  match n with
  | File name | Link name _ => [(path, name)]
  | Broken _ _ => []
  | Dir _ _ entries =>
      (fix each (es : list node) : list (string * string) :=
         match es with
         | [] => []
         | e :: rest =>
             (file_entries (filepath.Join [path; node_name e]) e ++ each rest)%list
         end) entries
  end.

(** The entries directly under the root that a scan keeps. *)
Definition direct_text_files `{GoLib} (absPath : string) (entries : list node)
  : list string :=
  flat_map (fun e =>
              match e with
              | File name | Link name _ =>
                  let path := filepath.Join [absPath; name] in
                  if HasPrefix name "." then []
                  else if IsTextFile path then [path] else []
              | _ => []
              end) entries.

Definition example_tree : node :=
  Dir "root" None [File ".c.txt"; File "a.txt"; Dir "sub" None [File "b.txt"]].

Definition hidden_dir_tree : node :=
  Dir "root" None [Dir ".git" None [File "notes.txt"]; File "a.txt"].

(** A directory with symbolic links among its entries: one to a
    directory, one that leads nowhere and one to a file. *)
Definition linked_tree : node :=
  Dir "docs" None
    [ File "a.txt";
      Link "more.md" example_tree;
      Link "old.txt" (Broken "old.txt" "stat old.txt: no such file or directory");
      Link "z.txt" (File "a.txt") ].

(** The entries whose fields are what a Go program holds and a JSON text
    can carry: strings of valid UTF-8, a size within [int64], and a time of
    day in range with a zone offset of whole minutes. *)
Definition wellformed_time (t : Time) : bool :=
  in_range 1 12 (month t) && in_range 1 (daysIn (month t) (year t)) (day t)
  && in_range 0 23 (hour t) && in_range 0 59 (minute t)
  && in_range 0 59 (second t) && in_range 0 999999999 (nanosecond t)
  && (zone_offset t mod 60 =? 0).

Definition valid_meta (m : CacheMetadata) : bool :=
  ValidString (meta_URL m) && ValidString (ContentHash m)
  && ValidString (ETag m) && ValidString (LastModified m)
  && ValidString (ContentType m)
  && wellformed_time (DownloadedAt m)
  && in_range (- MaxInt64 - 1) MaxInt64 (Size m).

(** A byte that a JSON string literal holds as it is. *)
Definition plain_byte (c : ascii) : bool :=
  (0x20 <=? byte_val c) && negb (Ascii.eqb c json.dquote)
  && negb (Ascii.eqb c json.backslash).

(** The scanner's result with a prefix put before the text. *)
Definition prepend (p : string) (x : option (string * string))
  : option (string * string) :=
  match x with
  | Some (raw, rest) => Some (p ++ raw, rest)
  | None => None
  end.

(** The value of a string of decimal digits read after [acc]. *)
Fixpoint dec_value (acc : Z) (s : string) : Z :=
  match s with
  | EmptyString => acc
  | String c r => dec_value (10 * acc + (byte_val c - 48)) r
  end.

(** What follows a value in the output: a comma or a line feed. *)
Definition is_follow (c : ascii) : Prop := c = ","%char \/ c = json.nl.

Definition is_high (c : ascii) : bool := negb (is_ascii_byte c).

(** A value text that the parser reads as [v] wherever it stands as the
    value of a member. *)
Definition parses (text : string) (v : json.value) : Prop :=
  forall f c X, is_follow c ->
    json.parse_value (S f) (String " " (text ++ String c X))
    = Some (v, String c X).

Definition member_text (m : string * string * json.value) : string :=
  json.member (fst (fst m)) (snd (fst m)).

Definition member_value (m : string * string * json.value)
  : string * json.value :=
  (fst (fst m), snd m).

Definition member_sep : string := String "," (String json.nl "").

(** The entry of the specification's example, and an entry whose ETag is
    the single byte 0xFF, which is not UTF-8. *)
Definition example_meta : CacheMetadata :=
  {| meta_URL := "https://x/y"; DownloadedAt := example_time;
     ContentHash := "abc"; ETag := "e1"; LastModified := "";
     ContentType := "text/plain"; Size := 1024 |}.

Definition invalid_utf8_meta : CacheMetadata :=
  {| meta_URL := "https://x/y"; DownloadedAt := example_time;
     ContentHash := "abc"; ETag := String (byte_of 255) "";
     LastModified := ""; ContentType := "text/plain"; Size := 1024 |}.

(** An element that [filepath.Clean] keeps: not empty, not a single dot,
    without a separator.  A name is such an element other than [..]: what
    a directory lists. *)
Definition elem_ok (e : string) : bool :=
  negb (String.eqb e "") && negb (String.eqb e ".") && all_bytes no_sep e.

Definition name_ok (e : string) : bool :=
  elem_ok e && negb (String.eqb e "..").

(** The stack of [filepath.Clean] (the last element first): elements it
    keeps, with any [..] below all the others, and none in a rooted
    path. *)
Fixpoint stack_ok (rooted : bool) (out : list string) : bool :=
  match out with
  | [] => true
  | e :: r =>
      elem_ok e &&
      (if String.eqb e ".." then negb rooted && forallb (String.eqb "..") r
       else stack_ok rooted r)
  end.

(** A tree whose entries, below the root, have names. *)
Fixpoint names_ok (n : node) : bool :=
  match n with
  | File _ => true
  | Broken _ _ => true
  | Link _ _ => true
  | Dir _ _ entries =>
      (fix each (es : list node) : bool :=
         match es with
         | [] => true
         | e :: rest => name_ok (node_name e) && names_ok e && each rest
         end) entries
  end.

Definition no_dot (c : ascii) : bool := negb (Ascii.eqb c ".").

(** A working directory that is an absolute path, when there is one:
    what [os.Getwd] promises. *)
Definition absolute_wd (getwd : string + string) : bool :=
  match getwd with
  | inl _ => true
  | inr wd => filepath.IsAbs wd
  end.

(** The local paths one document of [processDocuments] stands for: the
    cache path of a URL; the absolute path of what [os.Stat] does not show
    as a directory; for what it shows as a directory, the text files the
    scan finds there and in all directories below, no symbolic link being
    followed. *)
Definition is_remote (doc : string) : bool :=
  HasPrefix doc "http://" || HasPrefix doc "https://".

Definition document_paths `{GoLib} (d : DocumentDownloader)
    (getwd : string + string) (local : string -> node) (doc : string)
    : list string :=
  if is_remote doc then [GetCachedDocumentPath (cacheDir d) doc]
  else
    match filepath.Abs getwd doc with
    | inl _ => []
    | inr absPath =>
        match node_Stat (local absPath) with
        | inl _ => []
        | inr info =>
            if IsDir info then text_files true absPath absPath (local absPath)
            else [absPath]
        end
    end.

(** The ways one document makes [processDocuments] fail with the error
    [e]: a URL whose download fails, a local path that cannot be made
    absolute, a local path that cannot be examined, a local directory
    whose scan fails. *)
Definition document_failure `{GoLib} (env : Env) (d : DocumentDownloader)
    (ctx : nat -> nat -> option string) (getwd : string + string)
    (local : string -> node) (doc : string) (e : error) : Prop :=
  (is_remote doc = true
   /\ exists err w0 w1,
        Download env d doc w0 = (Err err, w1)
        /\ e = Errorf ("failed to download document '" ++ doc ++ "'") err)
  \/ (is_remote doc = false
      /\ exists msg,
           filepath.IsAbs doc = false /\ getwd = inl msg
           /\ e = Errorf ("failed to resolve path '" ++ doc ++ "'")
                    (LibError msg))
  \/ (is_remote doc = false
      /\ exists absPath,
           filepath.Abs getwd doc = inr absPath
           /\ ((exists msg,
                  node_Stat (local absPath) = inl msg
                  /\ e = Errorf ("failed to access path '" ++ absPath ++ "'")
                           (LibError msg))
               \/ (exists info err,
                     node_Stat (local absPath) = inr info /\ IsDir info = true
                     /\ e = Errorf ("failed to scan directory '" ++ absPath ++ "'")
                              err
                     /\ ((Contains absPath ".." = true
                          /\ err = Errorf "invalid directory path"
                                     (ErrPathTraversal absPath))
                         \/ (exists j k done,
                               ctx j k = Some done
                               /\ err = Errorf "failed to walk directory"
                                          (LibError done)))))).

(** Further concrete settings: a response without validators, one without
    a content type, a world with a file outside the cache, a cache that
    holds a document without its metadata, the variables of a process
    and the local files of a configuration. *)
Definition plain_response (body : string) : Response :=
  {| StatusCode := 200;
     RespHeader := <["Content-Type" := "text/plain"]> ∅;
     ContentLength := -1;
     Body := body;
     BodyErr := None |}.

Definition untyped_response (body : string) : Response :=
  {| StatusCode := 200;
     RespHeader := ∅;
     ContentLength := -1;
     Body := body;
     BodyErr := None |}.

Definition other_file_world : World :=
  {| files := <["/etc/hosts" := "127.0.0.1 localhost"]> ∅; trace := [] |}.

Definition orphan_world : World :=
  {| files := <[GetCachedDocumentPath "/cache" example_url := "old"]> ∅;
     trace := [] |}.

Definition example_vars : gmap string string := <["HOME" := "/home/u"]> ∅.

(** The nodes of a tree found at [path], each with its path, and the
    file system made of trees found at given paths: what is found at a
    path is what the trees have there, and nothing elsewhere. *)
Fixpoint nodes_below (path : string) (n : node) : list (string * node) :=
  (path, n) ::
  match n with
  | Dir _ _ entries =>
      (fix each (es : list node) : list (string * node) :=
         match es with
         | [] => []
         | e :: rest =>
             (nodes_below (filepath.Join [path; node_name e]) e ++ each rest)%list
         end) entries
  | _ => []
  end.

Definition mounted (trees : list (string * node)) (path : string) : node :=
  match List.find (fun x => String.eqb (fst x) path)
          (flat_map (fun m => nodes_below (fst m) (snd m)) trees) with
  | Some (_, n) => n
  | None => Broken path ("stat " ++ path ++ ": no such file or directory")
  end.

Definition example_local : string -> node :=
  mounted [ ("/data/root", example_tree);
            ("/data/hidden", hidden_dir_tree);
            ("/data/docs", linked_tree);
            ("/data/notes.bin", File "notes.bin");
            ("/data/.env.json", File ".env.json");
            ("/data/link.md", Link "link.md" example_tree) ].

(** * Properties *)

(** ** The cache key *)

Lemma string_of_bytes_length (l : list Z) :
  String.length (string_of_bytes l) = List.length l.
Proof. induction l as [|z l IH]; simpl; [reflexivity | now rewrite IH]. Qed.

Lemma be_bytes_length (n : nat) (x : Z) :
  List.length (SHA256.be_bytes n x) = n.
Proof.
  unfold SHA256.be_bytes.
  now rewrite List.length_map, List.length_rev, List.length_seq.
Qed.

Lemma Sum256_length (data : string) :
  String.length (SHA256.Sum256 data) = 32%nat.
Proof.
  unfold SHA256.Sum256, SHA256.digest_bytes.
  rewrite string_of_bytes_length.
  repeat rewrite List.length_app.
  now repeat rewrite be_bytes_length.
Qed.

Lemma EncodeToString_length (src : string) :
  String.length (EncodeToString src) = (2 * String.length src)%nat.
Proof. induction src as [|c r IH]; simpl; [reflexivity | rewrite IH; lia]. Qed.

Lemma hexdigit_hi_lower (c : ascii) :
  is_lower_hex (hexdigit (Z.shiftr (byte_val c) 4)) = true.
Proof. destruct c as [[] [] [] [] [] [] [] []]; reflexivity. Qed.

Lemma hexdigit_lo_lower (c : ascii) :
  is_lower_hex (hexdigit (Z.land (byte_val c) 0x0f)) = true.
Proof. destruct c as [[] [] [] [] [] [] [] []]; reflexivity. Qed.

Lemma EncodeToString_lower_hex (src : string) :
  all_bytes is_lower_hex (EncodeToString src) = true.
Proof.
  induction src as [|c r IH]; simpl; [reflexivity|].
  now rewrite hexdigit_hi_lower, hexdigit_lo_lower, IH.
Qed.

Lemma unhex_hexdigits (c : ascii) :
  unhex (hexdigit (Z.shiftr (byte_val c) 4)) (hexdigit (Z.land (byte_val c) 0x0f)) = c.
Proof. destruct c as [[] [] [] [] [] [] [] []]; reflexivity. Qed.

Lemma EncodeToString_inj (a b : string) :
  EncodeToString a = EncodeToString b -> a = b.
Proof.
  revert b; induction a as [|c r IH]; intros [|c' r']; simpl; try discriminate.
  - reflexivity.
  - intros H; injection H as Hhi Hlo Hr.
    f_equal; [|now apply IH].
    rewrite <- (unhex_hexdigits c), <- (unhex_hexdigits c').
    now rewrite Hhi, Hlo.
Qed.

(** The key of a URL has 64 characters, all of them lower-case
    hexadecimal digits, and two URLs have the same key exactly when their
    SHA-256 digests are the same.  The digest is the one of FIPS 180-4 on
    its test messages of one block and of two, and URLs that differ by a
    trailing slash or by the order of the query, early in the string or
    past its first block, are hashed as they are: their keys differ. *)
Lemma hashURL_key_format (url : string) :
  String.length (hashURL url) = 64%nat
  /\ all_bytes is_lower_hex (hashURL url) = true
  /\ (forall url', hashURL url = hashURL url' <->
                   SHA256.Sum256 url = SHA256.Sum256 url')
  /\ hashURL "https://example.com/doc" <> hashURL "https://example.com/doc/"
  /\ hashURL "https://example.com/doc?a=1&b=2"
     <> hashURL "https://example.com/doc?b=2&a=1"
  /\ hashURL "https://example.com/a/very/long/path/that/goes/past/the/first/block/doc"
     <> hashURL "https://example.com/a/very/long/path/that/goes/past/the/first/block/doc/"
  /\ hashURL "abc"
     = "ba7816bf8f01cfea414140de5dae2223b00361a396177a9cb410ff61f20015ad"
  /\ hashURL "abcdbcdecdefdefgefghfghighijhijkijkljklmklmnlmnomnopnopq"
     = "248d6a61d20638b8e5c026930c3e6039a33ce45964ff2167f6ecedd419db06c1".
Proof.
  unfold hashURL.
  split; [rewrite EncodeToString_length, Sum256_length; reflexivity|].
  split; [apply EncodeToString_lower_hex|].
  split.
  { intros url'; split; [apply EncodeToString_inj | now intros ->]. }
  split; [vm_compute; discriminate|].
  split; [vm_compute; discriminate|].
  split; [vm_compute; discriminate|].
  split; vm_compute; reflexivity.
Qed.

(** ** The content-type check *)

Lemma existsb_HasPrefix (t : string) (l : list string) :
  existsb (fun p => HasPrefix t p) l = true <->
  exists p, List.In p l /\ HasPrefix t p = true.
Proof.
  rewrite existsb_exists. split; intros [p Hp]; exists p; exact Hp.
Qed.

(** C4 (as the code has it).  The header is cut at the first [;],
    lower-cased and trimmed of surrounding white space; it is accepted if
    and only if the result begins with one of the six entries of the list
    ([text/], [application/json], [application/xml],
    [application/javascript], [application/x-yaml], [application/yaml]).
    So every listed type and every type under [text/] is accepted, with or
    without parameters; [application/octet-stream] is rejected and
    [text/html; charset=utf-8] is accepted. *)
Theorem isTextContentType_prefix_allow_list `{GoLib} (contentType : string) :
  (isTextContentType contentType = true <->
   exists p, List.In p textTypes /\
     HasPrefix (TrimSpace (ToLower (List.hd "" (Split contentType ";")))) p = true)
  /\ isTextContentType "application/octet-stream" = false
  /\ isTextContentType "text/html; charset=utf-8" = true
  /\ isTextContentType "Application/JSON" = true
  /\ isTextContentType "application/json-seq" = true.
Proof.
  split; [unfold isTextContentType; apply existsb_HasPrefix|].
  repeat split; reflexivity.
Qed.

(** C4, as the claim words it, fails: the list is matched by prefix, so a
    type that merely begins with a listed name is accepted although it is
    not in the list. *)
Lemma isTextContentType_not_exact_allow_list :
  ~ (forall (L : GoLib) (contentType : string),
       @isTextContentType L contentType = @spec_isTextLike L contentType).
Proof.
  intros Hall.
  specialize (Hall example_lib "application/json-seq").
  vm_compute in Hall. discriminate.
Qed.

(** ** Path validation *)

(** C5.  A path that contains [..], as given or once cleaned, is refused
    with the path-traversal error carrying the path as it was given; the
    validator is a function of the path alone. *)
Theorem ValidatePath_rejects_dotdot (path : string) :
  Contains path ".." = true \/ Contains (filepath.Clean path) ".." = true ->
  ValidatePath path = Some (ErrPathTraversal path).
Proof.
  unfold ValidatePath. intros [Hraw | Hclean].
  - now rewrite Hraw.
  - rewrite Hclean. now destruct (Contains path "..").
Qed.

Lemma ValidatePath_rejects_dotdot_witness :
  ValidatePath "docs/../../etc/passwd"
  = Some (ErrPathTraversal "docs/../../etc/passwd").
Proof.
  apply (ValidatePath_rejects_dotdot "docs/../../etc/passwd").
  left. reflexivity.
Defined.

Lemma ValidatePath_accepts (path : string) :
  Contains path ".." = false -> Contains (filepath.Clean path) ".." = false ->
  ValidatePath path = None.
Proof. unfold ValidatePath. now intros -> ->. Qed.

(** ** Strings and paths *)

Lemma append_cons (x : ascii) (a b : string) : String x a ++ b = String x (a ++ b).
Proof. reflexivity. Qed.

Lemma append_assoc (a b c : string) : (a ++ b) ++ c = a ++ (b ++ c).
Proof.
  induction a as [|x a IH]; [reflexivity|].
  now rewrite !append_cons, IH.
Qed.

Lemma append_nil_r (a : string) : a ++ "" = a.
Proof.
  induction a as [|x a IH]; [reflexivity|]. now rewrite append_cons, IH.
Qed.

Lemma append_length (a b : string) :
  String.length (a ++ b) = (String.length a + String.length b)%nat.
Proof.
  induction a as [|x a IH]; [reflexivity|].
  rewrite append_cons. simpl. now rewrite IH.
Qed.

Lemma append_inv_head (a b c : string) : a ++ b = a ++ c -> b = c.
Proof.
  induction a as [|x a IH]; [trivial|].
  rewrite !append_cons. intros E. injection E. exact IH.
Qed.

Lemma Split_app_sep (a b : string) (sep : ascii) :
  Split (a ++ String sep b) sep = (Split a sep ++ Split b sep)%list.
Proof.
  induction a as [|c a IH]; [simpl; now rewrite Ascii.eqb_refl|].
  rewrite append_cons. simpl.
  - destruct (Ascii.eqb c sep); [now rewrite IH|].
    rewrite IH. destruct (Split a sep) as [|h t] eqn:E; [|reflexivity].
    destruct a; simpl in E; [discriminate|].
    destruct (Ascii.eqb a sep); [discriminate|].
    destruct (Split a0 sep); discriminate.
Qed.

Lemma Split_no_sep (x : string) (sep : ascii) :
  all_bytes (fun c => negb (Ascii.eqb c sep)) x = true -> Split x sep = [x].
Proof.
  induction x as [|c x IH]; simpl; [reflexivity|].
  intros Hx. apply andb_prop in Hx as [Hc Hx].
  apply negb_true_iff in Hc. rewrite Hc, (IH Hx). reflexivity.
Qed.

Lemma JoinStrings_snoc (l : list string) (x sep : string) :
  JoinStrings (l ++ [x]) sep
  = match l with [] => "" | _ => JoinStrings l sep ++ sep end ++ x.
Proof.
  induction l as [|a l IH]; [reflexivity|].
  destruct l as [|b l].
  - simpl. now rewrite <- append_assoc.
  - change (JoinStrings ((a :: b :: l) ++ [x]) sep)
      with (a ++ sep ++ JoinStrings ((b :: l) ++ [x]) sep).
    rewrite IH.
    change (JoinStrings (a :: b :: l) sep) with (a ++ sep ++ JoinStrings (b :: l) sep).
    now rewrite <- !append_assoc.
Qed.

Lemma HasPrefix_app (a b : string) (p : ascii) :
  a <> "" -> HasPrefix (a ++ b) (String p "") = HasPrefix a (String p "").
Proof.
  destruct a as [|c a]; [congruence|]. intros _.
  rewrite append_cons. simpl.
  destruct (Ascii.eqb p c); [|reflexivity].
  generalize (a ++ b). intros ab. now destruct a, ab.
Qed.

Lemma eqb_false_of_length (x y : string) :
  String.length x <> String.length y -> String.eqb x y = false.
Proof. intros Hl. apply String.eqb_neq. intros ->. congruence. Qed.

Lemma Clean_append_elem (P x : string) :
  P <> "" -> all_bytes no_sep x = true -> (2 < String.length x)%nat ->
  filepath.Clean (P ++ "/" ++ x) = clean_prefix P ++ x.
Proof.
  intros HP Hsep Hlen. unfold filepath.Clean, clean_prefix.
  assert (String.eqb (P ++ "/" ++ x) "" = false) as ->.
  { destruct P; [congruence|]. now rewrite append_cons. }
  rewrite HasPrefix_app by assumption.
  change ("/" ++ x) with (String filepath.Separator x).
  rewrite Split_app_sep, (Split_no_sep x) by exact Hsep.
  rewrite fold_left_app. cbn [fold_left].
  set (st := fold_left _ _ _).
  unfold filepath.clean_step at 1.
  rewrite !eqb_false_of_length by (simpl; lia).
  cbn [rev]. unfold filepath.render.
  rewrite JoinStrings_snoc.
  destruct (HasPrefix P "/").
  - rewrite append_assoc. reflexivity.
  - destruct (rev st) eqn:E; reflexivity.
Qed.

Lemma all_bytes_app (p : ascii -> bool) (a b : string) :
  all_bytes p (a ++ b) = all_bytes p a && all_bytes p b.
Proof.
  induction a as [|c a IH]; [reflexivity|].
  rewrite append_cons. simpl. now rewrite IH, andb_assoc.
Qed.

Lemma all_bytes_impl (p q : ascii -> bool) (s : string) :
  (forall c, p c = true -> q c = true) ->
  all_bytes p s = true -> all_bytes q s = true.
Proof.
  intros Hpq. induction s as [|c s IH]; simpl; [trivial|].
  intros H. apply andb_prop in H as [Hc Hs].
  now rewrite (Hpq _ Hc), (IH Hs).
Qed.

Lemma lower_hex_no_sep (c : ascii) : is_lower_hex c = true -> no_sep c = true.
Proof. destruct c as [[] [] [] [] [] [] [] []]; simpl; intros; try discriminate; reflexivity. Qed.

Lemma hashURL_length (url : string) : String.length (hashURL url) = 64%nat.
Proof. unfold hashURL. now rewrite EncodeToString_length, Sum256_length. Qed.

Lemma cache_file_name (url ext : string) :
  all_bytes no_sep ext = true ->
  all_bytes no_sep (hashURL url ++ ext) = true
  /\ (2 < String.length (hashURL url ++ ext))%nat.
Proof.
  intros Hext. split.
  - rewrite all_bytes_app, Hext, andb_true_r.
    apply (all_bytes_impl is_lower_hex); [apply lower_hex_no_sep|].
    apply EncodeToString_lower_hex.
  - rewrite append_length, hashURL_length. lia.
Qed.

Lemma cached_path_shape (cacheDir url ext : string) :
  all_bytes no_sep ext = true ->
  filepath.Join [cacheDir; "documents"; hashURL url ++ ext]
  = clean_prefix (cache_documents_dir cacheDir) ++ hashURL url ++ ext.
Proof.
  intros Hext. destruct (cache_file_name url ext Hext) as [Hsep Hlen].
  unfold cache_documents_dir. cbn [filepath.Join].
  destruct (String.eqb cacheDir "") eqn:E.
  - cbn [String.eqb JoinStrings].
    apply Clean_append_elem; [discriminate | assumption | assumption].
  - cbn [JoinStrings].
    rewrite <- (Clean_append_elem (cacheDir ++ "/" ++ "documents")); try assumption.
    + now rewrite !append_assoc.
    + destruct cacheDir; [discriminate E | discriminate].
Qed.

Lemma cached_paths_differ (cacheDir url : string) :
  GetCachedDocumentPath cacheDir url <> GetCachedMetadataPath cacheDir url.
Proof.
  unfold GetCachedDocumentPath, GetCachedMetadataPath.
  rewrite !cached_path_shape by reflexivity.
  intros E. apply append_inv_head, append_inv_head in E. discriminate E.
Qed.

(** ** The downloader *)

(** Unfolding the state-passing combinators, and splitting on the next
    test of the run under scrutiny. *)
Ltac run :=
  unfold log in *; unfold bind, ret, emit, get_files, put_file in *; simpl in *.

Ltac branch :=
  match goal with
  | H : context [match ?x with _ => _ end] |- _ => destruct x eqn:?; simpl in H
  | H : context [if ?x then _ else _] |- _ => destruct x eqn:?; simpl in H
  end.

Ltac pairs :=
  repeat match goal with
         | E : (_, _) = (_, _) |- _ => injection E as; subst
         end.

Lemma fetch_and_store_path `{GoLib} env d url w p w' :
  fetch_and_store env d url w = (Ok p, w') ->
  p = GetCachedDocumentPath (cacheDir d) url.
Proof.
  unfold fetch_and_store. run. intros Hrun.
  repeat (branch; try discriminate).
  all: try (injection Hrun as <- _; reflexivity).
Qed.

Lemma Download_path `{GoLib} env d url w p w' :
  Download env d url w = (Ok p, w') ->
  p = GetCachedDocumentPath (cacheDir d) url.
Proof.
  unfold Download, GetCachedPath, os_Stat. run. intros Hrun.
  repeat (branch; try discriminate); pairs;
    try (eapply fetch_and_store_path; eassumption);
    simpl in *; try discriminate; try reflexivity.
Qed.



Lemma validateURL_parses `{GoLib} url :
  validateURL url = None -> exists u, url_Parse url = inr u.
Proof.
  unfold validateURL. destruct (url_Parse url) as [msg|u]; [discriminate|].
  intros _. now exists u.
Qed.

Ltac same_world :=
  unfold add_events; simpl; rewrite <- ?app_assoc; simpl; reflexivity.

(** The request [checkCacheFreshness] sends. *)
Lemma conditional_request_sent (url : string) (meta : CacheMetadata) :
  let req0 := {| Method := "HEAD"; ReqURL := url; ReqHeader := ∅ |} in
  let req1 := if negb (String.eqb (ETag meta) "")
              then Header_Set req0 "If-None-Match" (ETag meta) else req0 in
  let req2 := if negb (String.eqb (LastModified meta) "")
              then Header_Set req1 "If-Modified-Since" (LastModified meta) else req1 in
  is_conditional_request req2 url meta.
Proof.
  unfold is_conditional_request.
  change (CanonicalMIMEHeaderKey "If-None-Match") with "If-None-Match".
  change (CanonicalMIMEHeaderKey "If-Modified-Since") with "If-Modified-Since".
  destruct (String.eqb (ETag meta) ""), (String.eqb (LastModified meta) "");
    simpl; repeat split;
    rewrite ?lookup_insert_eq, ?lookup_insert_ne, ?lookup_empty by discriminate;
    reflexivity.
Qed.

(** C2.  With the cached document present, force-refresh off and the
    stored metadata readable: without ETag and Last-Modified the cache is
    valid and no request is sent; otherwise one conditional HEAD request is
    sent, and a transport failure or a 304 answer makes the cache valid
    (the cached path is returned), any other answer makes it stale (the
    document is fetched again). *)
Theorem cache_freshness_validation `{GoLib} env d url w data meta cached :
  let docPath := GetCachedDocumentPath (cacheDir d) url in
  let metaPath := GetCachedMetadataPath (cacheDir d) url in
  validateURL url = None ->
  ForceRefresh (config d) = false ->
  stat_fault env docPath = None -> files w !! docPath = Some cached ->
  read_fault env metaPath = None -> files w !! metaPath = Some data ->
  json.Unmarshal data = Ok meta ->
  let w1 := add_events w [EvStat docPath; EvReadFile metaPath] in
  let used := EvLog LDebug ("Using cached document for " ++ url) in
  if String.eqb (ETag meta) "" && String.eqb (LastModified meta) "" then
    ValidateCache env d url w = (true, None, add_events w [EvReadFile metaPath])
    /\ Download env d url w = (Ok docPath, add_events w1 [used])
  else
    exists req, is_conditional_request req url meta /\
      match http_Do env req with
      | inl msg =>
          let failed := EvLog LDebug ("HEAD request failed for " ++ url
                          ++ ", assuming cache is valid: " ++ msg) in
          ValidateCache env d url w
          = (true, None, add_events w [EvReadFile metaPath; EvHTTP req; failed])
          /\ Download env d url w
             = (Ok docPath, add_events w1 [EvHTTP req; failed; used])
      | inr resp =>
          if StatusCode resp =? 304 then
            ValidateCache env d url w
            = (true, None, add_events w [EvReadFile metaPath; EvHTTP req])
            /\ Download env d url w
               = (Ok docPath, add_events w1 [EvHTTP req; used])
          else
            ValidateCache env d url w
            = (false, None, add_events w [EvReadFile metaPath; EvHTTP req])
            /\ Download env d url w
               = fetch_and_store env d url (add_events w1 [EvHTTP req])
      end.
Proof.
  intros docPath metaPath Hurl Hforce Hstat Hdoc Hread Hmeta Hjson w1 used.
  destruct (validateURL_parses url Hurl) as [u Hparse].
  unfold Download, ValidateCache, GetCachedPath, os_Stat, LoadMetadata,
    os_ReadFile, checkCacheFreshness, NewRequest, http_Client_Do.
  fold docPath metaPath. run.
  repeat (first [rewrite Hurl | rewrite Hstat | rewrite Hdoc | rewrite Hread
                 | rewrite Hmeta | rewrite Hjson | rewrite Hforce
                 | rewrite Hparse]; simpl).
  destruct (String.eqb (ETag meta) "" && String.eqb (LastModified meta) "") eqn:Eval.
  - split; f_equal; same_world.
  - pose proof (conditional_request_sent url meta) as Hreq. simpl in Hreq.
    eexists; split; [exact Hreq|].
    match goal with |- context [http_Do env ?r] => destruct (http_Do env r) as [msg|resp] end.
    + split; f_equal; same_world.
    + destruct (StatusCode resp =? 304); split; f_equal; same_world.
Qed.

Lemma cache_freshness_validation_witness :
  exists w',
    Download (H := example_lib)
      (example_env (inr (example_response 304 "" 0 "")))
      (example_downloader 1024) example_url cached_world
    = (Ok (GetCachedDocumentPath "/cache" example_url), w').
Proof.
  assert (Hthm := cache_freshness_validation (H := example_lib)
            (example_env (inr (example_response 304 "" 0 "")))
            (example_downloader 1024) example_url cached_world
            cached_data cached_meta "hello").
  cbv zeta in Hthm.
  specialize (Hthm eq_refl eq_refl eq_refl).
  assert (Hdoc : files cached_world !! GetCachedDocumentPath
                   (cacheDir (example_downloader 1024)) example_url
                 = Some "hello") by (vm_compute; reflexivity).
  assert (Hmeta : files cached_world !! GetCachedMetadataPath
                    (cacheDir (example_downloader 1024)) example_url
                  = Some cached_data) by (vm_compute; reflexivity).
  assert (Hjson : json.Unmarshal (H := example_lib) cached_data = Ok cached_meta)
    by (vm_compute; reflexivity).
  specialize (Hthm Hdoc eq_refl Hmeta Hjson).
  assert (Etag : String.eqb (ETag cached_meta) "" = false) by (vm_compute; reflexivity).
  rewrite Etag in Hthm. simpl in Hthm.
  destruct Hthm as [req [_ [_ Hrun]]].
  eexists. exact Hrun.
Defined.


(** ** The size limit *)

Lemma substring_length (k : nat) (s : string) :
  String.length (String.substring 0 k s) = Nat.min k (String.length s).
Proof.
  revert k; induction s as [|c s IH]; intros [|k]; simpl; try reflexivity.
  now rewrite IH.
Qed.

Lemma wrap64_small (z : Z) : - 2 ^ 63 <= z < 2 ^ 63 -> wrap64 z = z.
Proof.
  intros Hz. unfold wrap64.
  rewrite Z.mod_small by lia. lia.
Qed.




(** ** The kinds of error of a fetch *)

Lemma ReadAll_LimitReader_result (resp : Response) (n : Z) (w : World) :
  fst (ReadAll_LimitReader resp n w) = body_read resp n
  /\ forall err, body_read resp n = Err err ->
       exists msg, BodyErr resp = Some msg /\ err = LibError msg.
Proof.
  unfold body_read, ReadAll_LimitReader, bind, emit, ret.
  destruct (n <=? 0); [split; [reflexivity | discriminate]|].
  destruct (len (Body resp) <? n); [|split; [reflexivity | discriminate]].
  destruct (BodyErr resp) as [msg|]; [|split; [reflexivity | discriminate]].
  split; [reflexivity|]. intros err [= <-]. eauto.
Qed.

Lemma fetch_and_store_error `{GoLib} env d url w e w' :
  let L := MaxSize (config d) in
  let docPath := GetCachedDocumentPath (cacheDir d) url in
  validateURL url = None ->
  fetch_and_store env d url w = (Err e, w') ->
  match http_Do env {| Method := "GET"; ReqURL := url; ReqHeader := ∅ |} with
  | inl msg => e = Errorf "download failed" (ErrDownloadFailed url msg)
  | inr resp =>
      let contentType := Header_Get (RespHeader resp) "Content-Type" in
      if negb (StatusCode resp =? 200) then
        e = Errorf "download failed"
              (ErrDownloadFailed url ("HTTP " ++ itoa (StatusCode resp)))
      else if negb (isTextContentType contentType) then
        e = Errorf "download failed" (ErrNotTextFile ("content type: " ++ contentType))
      else if ContentLength resp >? L then
        e = Errorf "download failed" (ErrFileTooLarge (ContentLength resp) L)
      else
        match body_read resp (wrap64 (L + 1)) with
        | Err err =>
            e = Errorf "download failed" (Errorf "failed to read response body" err)
        | Ok content =>
            if len content >? L then
              e = Errorf "download failed" (ErrFileTooLarge (len content) L)
            else
              match mkdir_fault env (filepath.Dir docPath) with
              | Some msg =>
                  e = Errorf "failed to create cache directory" (LibError msg)
              | None =>
                  exists msg written,
                    write_fault env docPath = Some (msg, written)
                    /\ e = Errorf "failed to write document to cache" (LibError msg)
              end
        end
  end.
Proof.
  intros L docPath Hurl. destruct (validateURL_parses url Hurl) as [u Hparse].
  unfold fetch_and_store, downloadWithValidation, NewRequest, http_Client_Do.
  run. rewrite Hparse. simpl.
  destruct (http_Do env _) as [msg|resp]; simpl.
  - intros Hrun. now injection Hrun as <- _.
  - destruct (negb (StatusCode resp =? 200)); simpl.
    { intros Hrun. now injection Hrun as <- _. }
    destruct (negb (isTextContentType _)); simpl.
    { intros Hrun. now injection Hrun as <- _. }
    fold L. destruct (ContentLength resp >? L); simpl.
    { intros Hrun. now injection Hrun as <- _. }
    match goal with
    | |- context [ReadAll_LimitReader resp ?n ?w0] =>
        destruct (ReadAll_LimitReader_result resp n w0) as [Hread _];
        destruct (ReadAll_LimitReader resp n w0) as [rd w1]
    end.
    cbn [fst] in Hread. rewrite <- Hread.
    destruct rd as [content|err]; simpl.
    2: { intros Hrun. now injection Hrun as <- _. }
    destruct (len content >? L); simpl.
    { intros Hrun. now injection Hrun as <- _. }
    fold docPath. unfold os_MkdirAll, os_WriteFile. run.
    destruct (mkdir_fault env (filepath.Dir docPath)) as [msg|]; simpl.
    { intros Hrun. now injection Hrun as <- _. }
    destruct (write_fault env docPath) as [[msg written]|]; simpl.
    + intros Hrun. exists msg, written. split; [reflexivity|].
      destruct written; simpl in Hrun; now injection Hrun as <- _.
    + intros Hrun. repeat (branch; try discriminate); pairs; simpl in *;
        discriminate.
Qed.

(** C8, as the claim words it, fails: a transport failure and a refused
    status are both reported as [ErrDownloadFailed]: their kinds are the
    same. *)
Lemma transport_and_status_share_a_kind :
  ~ (forall (L : GoLib) env1 env2 d url w e1 e2 w1 w2 msg resp,
       let req := {| Method := "GET"; ReqURL := url; ReqHeader := ∅ |} in
       http_Do env1 req = inl msg ->
       http_Do env2 req = inr resp -> StatusCode resp <> 200 ->
       @Download L env1 d url w = (Err e1, w1) ->
       @Download L env2 d url w = (Err e2, w2) ->
       kind_of e1 <> kind_of e2).
Proof.
  intros Hall.
  pose (env1 := example_env (inl "dial tcp: connection refused")).
  pose (env2 := example_env (inr (example_response 404 "text/plain" 0 ""))).
  pose (d := example_downloader 1024).
  apply (Hall example_lib env1 env2 d example_url empty_world
           (Errorf "download failed"
              (ErrDownloadFailed example_url "dial tcp: connection refused"))
           (Errorf "download failed" (ErrDownloadFailed example_url "HTTP 404"))
           (snd (Download (H := example_lib) env1 d example_url empty_world))
           (snd (Download (H := example_lib) env2 d example_url empty_world))
           "dial tcp: connection refused"
           (example_response 404 "text/plain" 0 ""));
    try (vm_compute; reflexivity).
  vm_compute. discriminate.
Qed.

(** C8 (as the code has it).  The error of a failed fetch tells its cause
    by its type as follows, the causes in the order the code looks for
    them: an invalid locator gives [ErrInvalidURL]; a transport failure and
    a status other than 200 both give [ErrDownloadFailed], the first with
    the text of the failure and the second with [HTTP] and the status in
    decimal as its reason; a refused content type gives [ErrNotTextFile];
    a declared length over the limit, or a body read that exceeds it,
    gives [ErrFileTooLarge] with that length; a failure of reading the
    body, of making the cache directory or of writing the document gives
    the error of the standard library, wrapped with the step that failed.
    These five types are distinct. *)
Theorem Download_error_kinds `{GoLib} env d url w e w' :
  let L := MaxSize (config d) in
  let docPath := GetCachedDocumentPath (cacheDir d) url in
  Download env d url w = (Err e, w') ->
  ((exists msg, validateURL url = Some (ErrInvalidURL msg)
                /\ e = Errorf "invalid URL" (ErrInvalidURL msg)
                /\ kind_of e = KInvalidURL)
   \/ (validateURL url = None /\
       match http_Do env {| Method := "GET"; ReqURL := url; ReqHeader := ∅ |} with
       | inl msg =>
           e = Errorf "download failed" (ErrDownloadFailed url msg)
           /\ kind_of e = KDownloadFailed
       | inr resp =>
           let contentType := Header_Get (RespHeader resp) "Content-Type" in
           if negb (StatusCode resp =? 200) then
             e = Errorf "download failed"
                   (ErrDownloadFailed url ("HTTP " ++ itoa (StatusCode resp)))
             /\ kind_of e = KDownloadFailed
           else if negb (isTextContentType contentType) then
             e = Errorf "download failed"
                   (ErrNotTextFile ("content type: " ++ contentType))
             /\ kind_of e = KNotTextFile
           else if ContentLength resp >? L then
             e = Errorf "download failed" (ErrFileTooLarge (ContentLength resp) L)
             /\ kind_of e = KFileTooLarge
           else
             match body_read resp (wrap64 (L + 1)) with
             | Err err =>
                 (exists msg, BodyErr resp = Some msg /\ err = LibError msg)
                 /\ e = Errorf "download failed"
                         (Errorf "failed to read response body" err)
                 /\ kind_of e = KLibrary
             | Ok content =>
                 if len content >? L then
                   e = Errorf "download failed" (ErrFileTooLarge (len content) L)
                   /\ kind_of e = KFileTooLarge
                 else
                   match mkdir_fault env (filepath.Dir docPath) with
                   | Some msg =>
                       e = Errorf "failed to create cache directory" (LibError msg)
                       /\ kind_of e = KLibrary
                   | None =>
                       exists msg written,
                         write_fault env docPath = Some (msg, written)
                         /\ e = Errorf "failed to write document to cache"
                                 (LibError msg)
                         /\ kind_of e = KLibrary
                   end
             end
       end))
  /\ List.NoDup [KInvalidURL; KDownloadFailed; KNotTextFile; KFileTooLarge; KLibrary].
Proof.
  intros L docPath Hrun. split.
  2: { repeat constructor; simpl; intuition discriminate. }
  destruct (validateURL url) as [e0|] eqn:Hurl.
  - left. unfold Download in Hrun. rewrite Hurl in Hrun. run.
    injection Hrun as <- _.
    unfold validateURL in Hurl.
    repeat (branch; try discriminate); injection Hurl as <-;
      eexists; repeat split; reflexivity.
  - right. split; [reflexivity|].
    assert (Hfetch : exists w0 w1, fetch_and_store env d url w0 = (Err e, w1)).
    { unfold Download, GetCachedPath, os_Stat in Hrun. rewrite Hurl in Hrun. run.
      repeat (branch; try discriminate); pairs; simpl in *; try discriminate;
        eauto. }
    destruct Hfetch as (w0 & w1 & Hfetch).
    pose proof (fetch_and_store_error env d url w0 e w1 Hurl Hfetch) as Hkind.
    cbv zeta in Hkind. fold L docPath in Hkind.
    destruct (http_Do env _) as [msg|resp]; simpl in *.
    + subst e. split; reflexivity.
    + destruct (negb (StatusCode resp =? 200)); simpl in *.
      { subst e. split; reflexivity. }
      destruct (negb (isTextContentType _)); simpl in *.
      { subst e. split; reflexivity. }
      destruct (ContentLength resp >? L).
      { subst e. split; reflexivity. }
      destruct (body_read resp (wrap64 (L + 1))) as [content|err] eqn:Hread.
      * destruct (len content >? L).
        { subst e. split; reflexivity. }
        destruct (mkdir_fault env (filepath.Dir docPath)) as [msg|].
        { subst e. split; reflexivity. }
        destruct Hkind as (msg & written & Hfault & ->).
        exists msg, written. repeat split. exact Hfault.
      * subst e.
        destruct (proj2 (ReadAll_LimitReader_result resp _ w) err Hread)
          as (msg & Hbody & ->).
        split; [eauto | split; reflexivity].
Qed.

Lemma Download_error_kinds_witness :
  let env := example_env (inr (example_response 404 "text/plain" 0 "")) in
  let e := Errorf "download failed" (ErrDownloadFailed example_url "HTTP 404") in
  fst (Download (H := example_lib) env (example_downloader 1024) example_url
         empty_world) = Err e
  /\ kind_of e = KDownloadFailed.
Proof.
  intros env e.
  assert (Hrun : Download (H := example_lib) env (example_downloader 1024)
                   example_url empty_world
                 = (Err e, snd (Download (H := example_lib) env
                                  (example_downloader 1024) example_url
                                  empty_world)))
    by (vm_compute; reflexivity).
  destruct (Download_error_kinds (H := example_lib) env (example_downloader 1024)
              example_url empty_world e _ Hrun) as [[(msg & Hbad & _) | [_ Hkind]] _].
  - vm_compute in Hbad. discriminate Hbad.
  - rewrite Hrun. split; [reflexivity|]. exact (proj2 Hkind).
Defined.

(** ** Persisting a download *)

Lemma trace_tail (t : list event) (a b : list event) :
  (t ++ a = t ++ b)%list -> a = b.
Proof. apply app_inv_head. Qed.

Local Opaque Error.

Lemma fetch_and_store_persist `{GoLib} env d url w r w' content evs :
  let docPath := GetCachedDocumentPath (cacheDir d) url in
  let metaPath := GetCachedMetadataPath (cacheDir d) url in
  fetch_and_store env d url w = (r, w') ->
  trace w' = (trace w ++ evs)%list ->
  List.In (EvWriteFile docPath content) evs ->
  write_fault env docPath = None ->
  r = Ok docPath
  /\ files w' !! docPath = Some content
  /\ (exists before after,
        evs = (before ++ EvWriteFile docPath content :: after)%list
        /\ (forall p data, ~ List.In (EvWriteFile p data) before)
        /\ (write_fault env metaPath <> None ->
            exists err, List.In (EvLog LWarn ("Failed to save metadata for " ++ url
                                          ++ ": " ++ Error err)) after)).
Proof.
  intros docPath metaPath Hrun Htrace Hin Hfault.
  pose proof (cached_paths_differ (cacheDir d) url) as Hdiff.
  unfold fetch_and_store, downloadWithValidation, NewRequest, http_Client_Do,
    ReadAll_LimitReader, SaveMetadata, os_MkdirAll, os_WriteFile in Hrun.
  fold docPath metaPath in Hrun, Hdiff. clearbody docPath metaPath.
  run.
  repeat (branch; try discriminate); pairs; simpl in *;
    rewrite <- ?app_assoc in Htrace; apply trace_tail in Htrace; subst evs;
    simpl in Hin;
    repeat match goal with
           | D : _ \/ _ |- _ => destruct D
           | F : False |- _ => destruct F
           | E : _ = EvWriteFile _ _ |- _ =>
               first [discriminate E | injection E as; subst]
           end;
    try congruence.
  all: split; [reflexivity|].
  all: split;
    [rewrite ?lookup_insert_ne by congruence; apply lookup_insert_eq|].
  all: simpl.
  all: match goal with
       | |- exists before after,
             (?a :: ?b :: ?c :: ?e :: ?x :: ?rest)%list = _ /\ _ =>
           exists [a; b; c; e], rest
       end.
  all: split; [reflexivity|].
  all: split; [intros p data; simpl; intuition discriminate|].
  all: intros Hne; try congruence.
  all: eexists; simpl; eauto 10.
Qed.

Local Transparent Error.

Lemma Download_before_fetch `{GoLib} env d url w r w' :
  Download env d url w = (r, w') ->
  (exists evs0, trace w' = (trace w ++ evs0)%list
                /\ forall p data, ~ List.In (EvWriteFile p data) evs0)
  \/ (exists w0 evs0, fetch_and_store env d url w0 = (r, w')
                      /\ trace w0 = (trace w ++ evs0)%list
                      /\ forall p data, ~ List.In (EvWriteFile p data) evs0).
Proof.
  unfold Download, GetCachedPath, os_Stat, ValidateCache, LoadMetadata,
    os_ReadFile, checkCacheFreshness, NewRequest, http_Client_Do.
  run. intros Hrun.
  repeat (branch; try discriminate); pairs; simpl in *; try discriminate.
  all: first
    [ right; eexists; eexists; split; [eassumption|]; simpl;
      rewrite <- ?app_assoc; split; [reflexivity|];
      intros p data; simpl; intuition discriminate
    | left; eexists; simpl; rewrite <- ?app_assoc; split;
      [try reflexivity; rewrite app_nil_r; reflexivity|];
      intros p data; simpl; intuition discriminate ].
Qed.

(** C7.  In a download that writes the content file, the content is
    written before any metadata; the download then succeeds with the
    content path and the file holds the content, whatever becomes of the
    metadata: a failure to write the metadata is only logged as a
    warning. *)
Theorem metadata_failure_keeps_content `{GoLib} env d url w r w' content evs :
  let docPath := GetCachedDocumentPath (cacheDir d) url in
  let metaPath := GetCachedMetadataPath (cacheDir d) url in
  Download env d url w = (r, w') ->
  trace w' = (trace w ++ evs)%list ->
  List.In (EvWriteFile docPath content) evs ->
  write_fault env docPath = None ->
  r = Ok docPath
  /\ files w' !! docPath = Some content
  /\ (exists before after,
        evs = (before ++ EvWriteFile docPath content :: after)%list
        /\ (forall p data, ~ List.In (EvWriteFile p data) before)
        /\ (write_fault env metaPath <> None ->
            exists err, List.In (EvLog LWarn ("Failed to save metadata for " ++ url
                                          ++ ": " ++ Error err)) after)).
Proof.
  intros docPath metaPath Hrun Htrace Hin Hfault.
  destruct (Download_before_fetch _ _ _ _ _ _ Hrun)
    as [(evs0 & Htr0 & Hnone) | (w0 & evs0 & Hfetch & Htr0 & Hnone)].
  - rewrite Htr0 in Htrace. apply trace_tail in Htrace. subst evs0.
    now apply Hnone in Hin.
  - assert (Hext : exists evs1, trace w' = (trace w0 ++ evs1)%list
                                /\ evs = (evs0 ++ evs1)%list).
    { revert Hfetch. unfold fetch_and_store, downloadWithValidation, NewRequest,
        http_Client_Do, ReadAll_LimitReader, SaveMetadata, os_MkdirAll,
        os_WriteFile.
      run. intros Hfetch.
      repeat (branch; try discriminate); pairs; simpl in *;
        rewrite Htr0, <- ?app_assoc in Htrace; apply trace_tail in Htrace;
        subst evs; eexists; rewrite <- ?app_assoc; split; reflexivity. }
    destruct Hext as (evs1 & Htr1 & ->).
    apply in_app_or in Hin as [Hin | Hin]; [now apply Hnone in Hin|].
    destruct (fetch_and_store_persist env d url w0 r w' content evs1
                Hfetch Htr1 Hin Hfault)
      as (Hr & Hfile & before & after & -> & Hbefore & Hwarn).
    split; [exact Hr|]. split; [exact Hfile|].
    exists (evs0 ++ before)%list, after. split; [now rewrite <- app_assoc|].
    split; [|exact Hwarn].
    intros p data Hp. apply in_app_or in Hp as [Hp | Hp].
    + now apply Hnone in Hp.
    + now apply Hbefore in Hp.
Qed.

Lemma metadata_failure_keeps_content_witness :
  let run := Download (H := example_lib) metadata_fault_env
               (example_downloader 1024) example_url empty_world in
  fst run = Ok (GetCachedDocumentPath "/cache" example_url)
  /\ files (snd run) !! GetCachedDocumentPath "/cache" example_url = Some "hello"
  /\ files (snd run) !! GetCachedMetadataPath "/cache" example_url
     = Some (String "{" (String json.nl " ")).
Proof.
  intros run.
  destruct (metadata_failure_keeps_content (H := example_lib) metadata_fault_env
              (example_downloader 1024) example_url empty_world
              (fst run) (snd run) "hello" (trace (snd run)))
    as (Hr & Hfile & _).
  - apply surjective_pairing.
  - reflexivity.
  - vm_compute. tauto.
  - vm_compute. reflexivity.
  - split; [exact Hr|]. split; [exact Hfile|]. vm_compute. reflexivity.
Defined.


(** ** The scanner *)

Lemma node_nested_ind (P : node -> Prop) :
  (forall name, P (File name)) ->
  (forall name msg, P (Broken name msg)) ->
  (forall name readErr entries,
      List.Forall P entries -> P (Dir name readErr entries)) ->
  (forall name target, P target -> P (Link name target)) ->
  forall n, P n.
Proof.
  intros HF HB HD HL. fix IH 1.
  intros [name | name readErr entries | name msg | name target].
  - apply HF.
  - apply HD. induction entries as [|e es IHes]; constructor.
    + apply IH.
    + exact IHes.
  - apply HB.
  - apply HL, IH.
Qed.

Lemma walkFunc_result `{GoLib} ctx absPath recursive path info err st r st' :
  walkFunc ctx absPath recursive path info err st = (r, st') ->
  (forall e, r <> WErr e) ->
  ctx (polls st) = None
  /\ (r = WSkipDir ->
      exists i, info = Some i /\ IsDir i = true /\ err = None
                /\ negb (String.eqb path absPath) && negb recursive = true)
  /\ found st' = (found st ++
       match err, info with
       | None, Some i =>
           if IsDir i then []
           else if HasPrefix (Name i) "." then []
           else if IsTextFile path then [path] else []
       | _, _ => []
       end)%list
  /\ (r = WNil -> err = None -> forall i, info = Some i -> IsDir i = true ->
      negb (String.eqb path absPath) && negb recursive = false).
Proof.
  unfold walkFunc. intros Hrun Hok.
  destruct (ctx (polls st)) as [done|];
    [injection Hrun as <- _; now elim (Hok (LibError done))|].
  split; [reflexivity|].
  destruct err as [msg|]; [|destruct info as [i|]]; simpl in *.
  - injection Hrun as <- <-. simpl. rewrite app_nil_r.
    repeat split; intros; discriminate.
  - destruct (IsDir i) eqn:Edir.
    + destruct (negb (String.eqb path absPath) && negb recursive) eqn:Eskip;
        injection Hrun as <- <-; simpl; rewrite app_nil_r;
        repeat split; intros; try discriminate; eauto.
    + destruct (HasPrefix (Name i) ".");
        [|destruct (IsTextFile path)];
        injection Hrun as <- <-; simpl; rewrite ?app_nil_r;
        repeat split; intros; try discriminate; congruence.
  - injection Hrun as <- <-. simpl. rewrite app_nil_r.
    repeat split; intros; discriminate.
Qed.

Lemma walk_found `{GoLib} ctx absPath recursive n :
  forall path st r st',
    walk (walkFunc ctx absPath recursive) path n st = (r, st') ->
    (forall e, r <> WErr e) ->
    found st' = (found st ++ text_files recursive absPath path n)%list
    /\ (r = WSkipDir -> node_isDir n = true).
Proof.
  induction n as [name | name msg | name readErr entries IH | name target _]
    using node_nested_ind; intros path st r st' Hrun Hok.
  4: { simpl in Hrun.
       destruct (walkFunc_result _ _ _ _ _ _ _ _ _ Hrun Hok)
         as (_ & Hskip & Hfound & _).
       simpl in *. split; [exact Hfound|].
       intros Hr. destruct (Hskip Hr) as (i & Hi & Hd & _). now injection Hi as <-. }
  - simpl in Hrun.
    destruct (walkFunc_result _ _ _ _ _ _ _ _ _ Hrun Hok) as (_ & Hskip & Hfound & _).
    simpl in *. split; [exact Hfound|].
    intros Hr. destruct (Hskip Hr) as (i & Hi & Hd & _). now injection Hi as <-.
  - simpl in Hrun.
    destruct (walkFunc_result _ _ _ _ _ _ _ _ _ Hrun Hok) as (_ & Hskip & Hfound & _).
    simpl in *. split; [exact Hfound|].
    intros Hr. destruct (Hskip Hr) as (i & Hi & _). discriminate Hi.
  - split; [|reflexivity].
    cbn [walk] in Hrun.
    destruct (walkFunc ctx absPath recursive path
                (Some (info_of (Dir name readErr entries))) readErr st)
      as [err1 st1] eqn:Hfn.
    destruct readErr as [msg|].
    + injection Hrun as <- <-.
      destruct (walkFunc_result _ _ _ _ _ _ _ _ _ Hfn Hok) as (_ & _ & Hfound & _).
      exact Hfound.
    + destruct err1 as [| |e1].
      * (* the directory is entered *)
        destruct (walkFunc_result _ _ _ _ _ _ _ _ _ Hfn ltac:(discriminate))
          as (_ & _ & Hfound & Henter).
        simpl in Hfound. rewrite app_nil_r in Hfound.
        cbn [text_files].
        rewrite (Henter eq_refl eq_refl _ eq_refl eq_refl).
        rewrite <- Hfound. clear Hfn Hfound Henter.
        revert st1 Hrun. induction IH as [|e es He Hes IHes]; intros st1 Hrun.
        { injection Hrun as _ <-. now rewrite app_nil_r. }
        destruct (walk (walkFunc ctx absPath recursive)
                    (filepath.Join [path; node_name e]) e st1) as [r1 st2] eqn:Hwalk.
        destruct r1 as [| |e1].
        -- destruct (He _ _ _ _ Hwalk ltac:(discriminate)) as [Hf _].
           rewrite (IHes _ Hrun), Hf, app_assoc. reflexivity.
        -- destruct (He _ _ _ _ Hwalk ltac:(discriminate)) as [Hf Hdir].
           specialize (Hdir eq_refl).
           destruct e as [nm | nm re en | nm mg | nm tg]; try discriminate Hdir.
           rewrite (IHes _ Hrun), Hf, app_assoc. reflexivity.
        -- injection Hrun as <- _. now elim (Hok e1).
      * injection Hrun as <- <-.
        destruct (walkFunc_result _ _ _ _ _ _ _ _ _ Hfn Hok)
          as (_ & Hskip & Hfound & _).
        destruct (Hskip eq_refl) as (i & Hi & _ & _ & Hcond).
        cbn [text_files]. rewrite Hcond. exact Hfound.
      * injection Hrun as <- _. now elim (Hok e1).
Qed.

Arguments filepath.Join : simpl never.

Lemma walkFunc_no_error `{GoLib} ctx absPath recursive path info err st r st' :
  (forall k, ctx k = None) ->
  walkFunc ctx absPath recursive path info err st = (r, st') ->
  forall e, r <> WErr e.
Proof.
  intros Hctx. unfold walkFunc. rewrite Hctx. intros Hrun e.
  repeat (branch; try discriminate); injection Hrun as <- _; discriminate.
Qed.

Lemma walk_no_error `{GoLib} ctx absPath recursive n :
  (forall k, ctx k = None) ->
  forall path st r st',
    walk (walkFunc ctx absPath recursive) path n st = (r, st') ->
    forall e, r <> WErr e.
Proof.
  intros Hctx.
  induction n as [name | name msg | name readErr entries IH | name target _]
    using node_nested_ind; intros path st r st' Hrun.
  4: { simpl in Hrun. eapply walkFunc_no_error; eassumption. }
  - simpl in Hrun. eapply walkFunc_no_error; eassumption.
  - simpl in Hrun. eapply walkFunc_no_error; eassumption.
  - cbn [walk] in Hrun.
    destruct (walkFunc ctx absPath recursive path
                (Some (info_of (Dir name readErr entries))) readErr st)
      as [err1 st1] eqn:Hfn.
    pose proof (walkFunc_no_error _ _ _ _ _ _ _ _ _ Hctx Hfn) as Hok1.
    destruct readErr as [msg|]; [injection Hrun as <- _; exact Hok1|].
    destruct err1 as [| |e1]; try (injection Hrun as <- _; exact Hok1).
    clear Hfn Hok1. revert st1 Hrun.
    induction IH as [|e es He Hes IHes]; intros st1 Hrun.
    + injection Hrun as <- _. discriminate.
    + destruct (walk (walkFunc ctx absPath recursive)
                  (filepath.Join [path; node_name e]) e st1) as [r1 st2] eqn:Hwalk.
      pose proof (He _ _ _ _ Hwalk) as Hok1.
      destruct r1 as [| |e1].
      * eapply IHes; eassumption.
      * destruct e;
          first [eapply IHes; eassumption | injection Hrun as <- _; discriminate].
      * now elim (Hok1 e1).
Qed.

Lemma text_files_are_visible_text_files `{GoLib} recursive absPath n :
  forall path p,
    List.In p (text_files recursive absPath path n) ->
    exists name, List.In (p, name) (file_entries path n)
                 /\ HasPrefix name "." = false /\ IsTextFile p = true.
Proof.
  induction n as [name | name msg | name readErr entries IH | name target _]
    using node_nested_ind; intros path p Hin.
  4: { simpl in Hin. destruct (HasPrefix name ".") eqn:Ehid; [destruct Hin|].
       destruct (IsTextFile path) eqn:Etext; [|destruct Hin].
       destruct Hin as [<- | []]. exists name. simpl. auto. }
  - simpl in Hin. destruct (HasPrefix name ".") eqn:Ehid; [destruct Hin|].
    destruct (IsTextFile path) eqn:Etext; [|destruct Hin].
    destruct Hin as [<- | []]. exists name. simpl. auto.
  - destruct Hin.
  - cbn [text_files] in Hin. destruct readErr; [destruct Hin|].
    destruct (negb (String.eqb path absPath) && negb recursive); [destruct Hin|].
    cbn [file_entries].
    induction IH as [|e es He Hes IHes]; [destruct Hin|].
    apply in_app_or in Hin as [Hin | Hin].
    + destruct (He _ _ Hin) as (nm & Hnm & Hrest).
      exists nm. split; [apply in_or_app; now left | exact Hrest].
    + destruct (IHes Hin) as (nm & Hnm & Hrest).
      exists nm. split; [apply in_or_app; now right | exact Hrest].
Qed.

Lemma text_files_not_recursive `{GoLib} absPath name entries :
  (forall e, List.In e entries ->
             filepath.Join [absPath; node_name e] <> absPath) ->
  text_files false absPath absPath (Dir name None entries)
  = direct_text_files absPath entries.
Proof.
  intros Hnames. cbn [text_files]. rewrite String.eqb_refl. simpl.
  unfold direct_text_files.
  induction entries as [|e es IHes]; [reflexivity|].
  simpl. rewrite IHes by (intros e' He'; apply Hnames; now right).
  f_equal.
  assert (Hne : String.eqb (filepath.Join [absPath; node_name e]) absPath = false).
  { apply String.eqb_neq, Hnames. now left. }
  destruct e as [nm | nm [msg|] en | nm msg | nm tg]; cbn [text_files node_name];
    try reflexivity.
  cbn [node_name] in Hne. rewrite Hne. reflexivity.
Qed.

Lemma ScanDirectory_Ok `{GoLib} ctx getwd fs dirPath recursive files log :
  ScanDirectory ctx getwd fs dirPath recursive = (Ok files, log) ->
  exists absPath info,
    ValidatePath dirPath = None
    /\ filepath.Abs getwd dirPath = inr absPath
    /\ node_Stat (fs absPath) = inr info /\ IsDir info = true
    /\ files = text_files recursive absPath absPath (fs absPath).
Proof.
  unfold ScanDirectory, Walk.
  destruct (ValidatePath dirPath); [discriminate|].
  destruct (filepath.Abs getwd dirPath) as [msg|absPath]; [discriminate|].
  destruct (node_Stat (fs absPath)) as [msg|info] eqn:Hstat; [discriminate|].
  destruct (IsDir info) eqn:Hdir; [|discriminate]. cbn [negb].
  destruct (walk _ absPath (fs absPath) _) as [r st] eqn:Hwalk.
  intros Hrun. exists absPath, info.
  repeat (split; [reflexivity || assumption|]).
  destruct r as [| |e]; try discriminate; injection Hrun as <- _;
    now destruct (walk_found _ _ _ _ _ _ _ _ Hwalk ltac:(discriminate)).
Qed.

(** C6, as the claim words it, fails: a hidden directory is entered by a
    recursive scan, and the files in it are returned. *)
Lemma ScanDirectory_enters_hidden_directories :
  ~ (forall (L : GoLib) ctx getwd fs dirPath recursive absPath files log,
       filepath.Abs getwd dirPath = inr absPath ->
       @ScanDirectory L ctx getwd fs dirPath recursive = (Ok files, log) ->
       files = @spec_text_files L recursive absPath absPath (fs absPath)).
Proof.
  intros Hall.
  specialize (Hall example_lib (fun _ => None) (inr "/") example_local
                "/data/hidden" true "/data/hidden"
                ["/data/hidden/.git/notes.txt"; "/data/hidden/a.txt"] _
                eq_refl eq_refl).
  vm_compute in Hall. discriminate Hall.
Qed.

(** C6 (as the code has it).  A scan that succeeds returns, in order, the
    entries that are not directories, whose name does not begin with a dot
    and whose extension is in the list, of the root and, when recursive, of
    every directory below it, hidden or not; a scan whose context is not
    done succeeds on whatever [os.Stat] shows as a directory.  No hidden file
    is returned.  With [recursive = false] only the entries directly under
    the root are returned and no subdirectory is entered: the root with
    [a.txt], [sub/b.txt] and [.c.txt] gives exactly the absolute path of
    [a.txt].  A symbolic link is an entry that is not a directory: it is
    never followed, and a root that is itself a link to a directory gives
    its own path when its name is not hidden and has a text extension, and
    nothing otherwise. *)
Theorem ScanDirectory_skips_hidden_files `{GoLib}
    ctx getwd fs dirPath recursive absPath :
  filepath.Abs getwd dirPath = inr absPath ->
  let tree := fs absPath in
  (forall files log,
      ScanDirectory ctx getwd fs dirPath recursive = (Ok files, log) ->
      files = text_files recursive absPath absPath tree
      /\ (forall p, List.In p files ->
            exists name, List.In (p, name) (file_entries absPath tree)
                         /\ HasPrefix name "." = false /\ IsTextFile p = true)
      /\ (recursive = false ->
          forall name entries, tree = Dir name None entries ->
            (forall e, List.In e entries ->
                       filepath.Join [absPath; node_name e] <> absPath) ->
            files = direct_text_files absPath entries)
      /\ (forall name target, tree = Link name target ->
            files = if HasPrefix name "." then []
                    else if IsTextFile absPath then [absPath] else []))
  /\ ((forall k, ctx k = None) -> ValidatePath dirPath = None ->
      (exists info, node_Stat tree = inr info /\ IsDir info = true) ->
      exists log, ScanDirectory ctx getwd fs dirPath recursive
                  = (Ok (text_files recursive absPath absPath tree), log))
  /\ fst (ScanDirectory (fun _ => None) getwd example_local "/data/root" false)
     = Ok ["/data/root/a.txt"]
  /\ fst (ScanDirectory (fun _ => None) getwd example_local "/data/hidden" true)
     = Ok ["/data/hidden/.git/notes.txt"; "/data/hidden/a.txt"]
  /\ fst (ScanDirectory (fun _ => None) getwd example_local "/data/link.md" true)
     = Ok ["/data/link.md"]
  /\ fst (ScanDirectory (fun _ => None) getwd example_local "/data/docs" true)
     = Ok ["/data/docs/a.txt"; "/data/docs/more.md"; "/data/docs/old.txt";
           "/data/docs/z.txt"].
Proof.
  intros Habs tree.
  split; [|split; [|repeat split; reflexivity]].
  - intros files log Hrun.
    destruct (ScanDirectory_Ok _ _ _ _ _ _ _ Hrun)
      as (absPath' & info & _ & Habs' & _ & _ & Hfiles).
    rewrite Habs in Habs'. injection Habs' as <-. fold tree in Hfiles.
    subst files. split; [reflexivity|]. split; [|split].
    + intros p. apply text_files_are_visible_text_files.
    + intros -> name entries Htree Hnames. rewrite Htree.
      now apply text_files_not_recursive.
    + intros name target Htree. rewrite Htree. reflexivity.
  - intros Hctx Hpath (info & Hstat & Hdir). unfold ScanDirectory, Walk.
    rewrite Hpath, Habs. fold tree. rewrite Hstat, Hdir. cbn [negb].
    destruct (walk _ absPath tree _) as [r st] eqn:Hwalk.
    pose proof (walk_no_error _ _ _ _ Hctx _ _ _ _ Hwalk) as Hok.
    destruct (walk_found _ _ _ _ _ _ _ _ Hwalk Hok) as [Hfound _].
    simpl in Hfound.
    destruct r as [| |e]; [| |now elim (Hok e)]; rewrite Hfound; eexists; reflexivity.
Qed.

Lemma ScanDirectory_skips_hidden_files_witness :
  ["/data/root/a.txt"]
  = text_files (H := example_lib) false "/data/root" "/data/root" example_tree.
Proof.
  destruct (proj1 (ScanDirectory_skips_hidden_files (H := example_lib)
                     (fun _ => None) (inr "/") example_local "/data/root" false
                     "/data/root" eq_refl)
              ["/data/root/a.txt"]
              (snd (ScanDirectory (H := example_lib) (fun _ => None) (inr "/")
                      example_local "/data/root" false)))
    as [Hfiles _].
  - vm_compute. reflexivity.
  - exact Hfiles.
Defined.


(** ** Bytes and decimal digits *)

Lemma byte_val_range (c : ascii) : 0 <= byte_val c < 256.
Proof. destruct c as [[] [] [] [] [] [] [] []]; vm_compute; split; congruence. Qed.

Lemma byte_of_val (c : ascii) : byte_of (byte_val c) = c.
Proof. destruct c as [[] [] [] [] [] [] [] []]; reflexivity. Qed.

Lemma byte_val_of (z : Z) : 0 <= z < 256 -> byte_val (byte_of z) = z.
Proof.
  intros Hz. unfold byte_val, byte_of.
  rewrite Z.mod_small by lia.
  rewrite N_ascii_embedding by lia. lia.
Qed.

Lemma in_range_true (lo hi v : Z) : in_range lo hi v = true <-> lo <= v <= hi.
Proof. unfold in_range. rewrite andb_true_iff, !Z.leb_le. tauto. Qed.

Lemma in_range_false (lo hi v : Z) : in_range lo hi v = false <-> v < lo \/ hi < v.
Proof.
  unfold in_range. rewrite andb_false_iff, !Z.leb_gt. tauto.
Qed.

Lemma digit_char_val (d : Z) :
  0 <= d <= 9 -> byte_val (digit_char d) = 48 + d.
Proof. intros Hd. unfold digit_char. apply byte_val_of. lia. Qed.

Lemma digit_char_is_digit (d : Z) :
  0 <= d <= 9 -> is_digit (digit_char d) = true.
Proof.
  intros Hd. unfold is_digit. rewrite digit_char_val by exact Hd.
  apply andb_true_iff. rewrite !Z.leb_le. lia.
Qed.

Lemma mod10_range (n : Z) : 0 <= n mod 10 <= 9.
Proof. pose proof (Z.mod_pos_bound n 10). lia. Qed.

Lemma pow10_pos (k : nat) : 0 < 10 ^ Z.of_nat k.
Proof. apply Z.pow_pos_nonneg; lia. Qed.

Lemma pow10_succ (k : nat) : 10 ^ Z.of_nat (S k) = 10 * 10 ^ Z.of_nat k.
Proof. rewrite Nat2Z.inj_succ, Z.pow_succ_r by lia. reflexivity. Qed.

Lemma mod_pow10_succ (n : Z) (k : nat) :
  n mod 10 ^ Z.of_nat (S k)
  = ((n / 10 ^ Z.of_nat k) mod 10) * 10 ^ Z.of_nat k + n mod 10 ^ Z.of_nat k.
Proof.
  pose proof (pow10_pos k) as Hpos.
  rewrite pow10_succ, (Z.mul_comm 10), Z.rem_mul_r by lia. lia.
Qed.

Lemma read_digitsN (k : nat) :
  forall n acc rest,
    read_digits k acc (digitsN k n ++ rest)
    = Some (acc * 10 ^ Z.of_nat k + n mod 10 ^ Z.of_nat k, rest).
Proof.
  induction k as [|k IH]; intros n acc rest.
  - simpl. rewrite Z.mod_1_r. f_equal. f_equal. lia.
  - cbn [digitsN read_digits]. rewrite append_cons.
    pose proof (mod10_range (n / 10 ^ Z.of_nat k)) as Hd.
    rewrite digit_char_is_digit, digit_char_val by exact Hd.
    rewrite IH. f_equal. f_equal.
    rewrite mod_pow10_succ, pow10_succ. lia.
Qed.

Lemma read_digitsN_small (k : nat) (n : Z) (rest : string) :
  0 <= n < 10 ^ Z.of_nat k ->
  read_digits k 0 (digitsN k n ++ rest) = Some (n, rest).
Proof.
  intros Hn. rewrite read_digitsN, Z.mod_small by exact Hn. reflexivity.
Qed.

Lemma read_frac_stop (k : nat) (c : ascii) (rest : string) :
  is_digit c = false -> read_frac k (String c rest) = (0, String c rest).
Proof. intros Hc. destruct k; simpl; now rewrite Hc. Qed.

Lemma read_frac_digits (k : nat) :
  forall n c rest,
    0 <= n < 10 ^ Z.of_nat k -> is_digit c = false ->
    read_frac k (frac_digits k n ++ String c rest) = (n, String c rest).
Proof.
  induction k as [|k IH]; intros n c rest Hn Hc.
  - simpl in Hn. assert (n = 0) as -> by lia. simpl. now rewrite Hc.
  - cbn [frac_digits]. destruct (n =? 0) eqn:E0.
    + apply Z.eqb_eq in E0 as ->. apply read_frac_stop, Hc.
    + rewrite append_cons. cbn [read_frac].
      pose proof (pow10_pos k) as Hpos.
      pose proof (mod10_range (n / 10 ^ Z.of_nat k)) as Hd.
      rewrite digit_char_is_digit, digit_char_val by exact Hd.
      rewrite IH; [|apply Z.mod_pos_bound; lia|exact Hc].
      f_equal.
      rewrite pow10_succ in Hn.
      assert (Hq : 0 <= n / 10 ^ Z.of_nat k < 10).
      { split; [apply Z.div_pos; lia | apply Z.div_lt_upper_bound; lia]. }
      rewrite (Z.mod_small (n / 10 ^ Z.of_nat k)) by lia.
      pose proof (Z.div_mod n (10 ^ Z.of_nat k)). lia.
Qed.

Lemma frac_digits_head (k : nat) (n : Z) :
  n <> 0 ->
  exists c r, frac_digits (S k) n = String c r /\ is_digit c = true.
Proof.
  intros Hn. cbn [frac_digits].
  apply Z.eqb_neq in Hn. rewrite Hn.
  eexists _, _. split; [reflexivity|].
  apply digit_char_is_digit, mod10_range.
Qed.

(** ** The time stamp *)

Lemma append_nil_l (a : string) : "" ++ a = a.
Proof. reflexivity. Qed.

Lemma format_zone_head (off : Z) :
  exists c r, format_zone off = String c r /\ is_digit c = false
              /\ Ascii.eqb c "." = false.
Proof.
  unfold format_zone. destruct (off =? 0).
  - eexists _, _. repeat split.
  - destruct (Z.quot off 60 <? 0); rewrite append_cons, append_nil_l;
      eexists _, _; repeat split.
Qed.

Lemma parse_zone_format (off : Z) :
  off mod 60 = 0 -> Z.abs (Z.quot off 60) / 60 < 24 ->
  parse_zone (format_zone off) = Some off.
Proof.
  intros Hmin Hhour. unfold format_zone.
  destruct (off =? 0) eqn:E0; [apply Z.eqb_eq in E0 as ->; reflexivity|].
  apply Z.eqb_neq in E0.
  assert (Hq : off = 60 * (off / 60)).
  { pose proof (Z.div_mod off 60). lia. }
  assert (Hquot : Z.quot off 60 = off / 60).
  { rewrite Hq at 1. rewrite Z.mul_comm. apply Z.quot_mul. lia. }
  rewrite Hquot in *.
  set (zone := Z.abs (off / 60)) in *.
  assert (Hzone : 0 <= zone) by (unfold zone; lia).
  assert (Hhr : 0 <= zone / 60 < 24) by (split; [apply Z.div_pos; lia | lia]).
  assert (Hmm : 0 <= zone mod 60 < 60) by (apply Z.mod_pos_bound; lia).
  assert (Hsum : zone / 60 * 60 + zone mod 60 = zone).
  { pose proof (Z.div_mod zone 60). lia. }
  unfold parse_zone.
  destruct (off / 60 <? 0) eqn:Eneg; rewrite append_cons, append_nil_l;
    cbn [String.eqb Ascii.eqb Bool.eqb];
    rewrite read_digitsN_small by (simpl; lia);
    rewrite append_cons, append_nil_l; cbn [expect]; rewrite Ascii.eqb_refl;
    rewrite <- (append_nil_r (digitsN 2 (zone mod 60)));
    rewrite read_digitsN_small by (simpl; lia);
    assert (in_range 0 23 (zone / 60) && in_range 0 59 (zone mod 60) = true) as ->
      by (apply andb_true_iff; rewrite !in_range_true; lia);
    simpl; f_equal; rewrite Hsum; unfold zone.
  - apply Z.ltb_lt in Eneg. lia.
  - apply Z.ltb_ge in Eneg. lia.
Qed.

Local Opaque digitsN frac_digits format_zone.

Lemma format_time_text (t : Time) (text : string) :
  format_time t = Ok text ->
  0 <= year t <= 9999
  /\ Z.abs (Z.quot (zone_offset t) 60) / 60 < 24
  /\ text
     = digitsN 4 (year t) ++ String "-" (digitsN 2 (month t) ++ String "-"
         (digitsN 2 (day t) ++ String "T" (digitsN 2 (hour t) ++ String ":"
           (digitsN 2 (minute t) ++ String ":" (digitsN 2 (second t) ++
             ((if nanosecond t =? 0 then ""
               else String "." (frac_digits 9 (nanosecond t)))
              ++ format_zone (zone_offset t))))))).
Proof.
  unfold format_time.
  destruct ((year t <? 0) || (9999 <? year t)) eqn:Ey; [discriminate|].
  destruct (24 <=? Z.abs (Z.quot (zone_offset t) 60) / 60) eqn:Ez; [discriminate|].
  intros Hok. injection Hok as <-.
  apply orb_false_iff in Ey as [Ey1 Ey2].
  apply Z.ltb_ge in Ey1, Ey2. apply Z.leb_gt in Ez.
  split; [lia|]. split; [exact Ez|].
  destruct (nanosecond t =? 0);
    rewrite ?append_assoc; reflexivity.
Qed.

Local Transparent digitsN frac_digits format_zone.

Lemma daysIn_le_99 (m y : Z) : daysIn m y <= 99.
Proof. unfold daysIn. repeat destruct (_ : bool); lia. Qed.

Lemma parseRFC3339_format (t : Time) (text : string) :
  wellformed_time t = true ->
  format_time t = Ok text ->
  parseRFC3339 text = Some t.
Proof.
  intros Hwf Hfmt.
  destruct (format_time_text t text Hfmt) as (Hyear & Hzone & ->).
  unfold wellformed_time in Hwf.
  rewrite !andb_true_iff, !in_range_true, Z.eqb_eq in Hwf.
  destruct Hwf as ((((((Hmo & Hday) & Hhr) & Hmi) & Hsec) & Hns) & Hoff).
  pose proof (daysIn_le_99 (month t) (year t)).
  unfold parseRFC3339.
  rewrite read_digitsN_small by (simpl; lia). cbn [expect]. rewrite Ascii.eqb_refl.
  rewrite read_digitsN_small by (simpl; lia). cbn [expect]. rewrite Ascii.eqb_refl.
  rewrite read_digitsN_small by (simpl; lia). cbn [expect]. rewrite Ascii.eqb_refl.
  rewrite read_digitsN_small by (simpl; lia). cbn [expect]. rewrite Ascii.eqb_refl.
  rewrite read_digitsN_small by (simpl; lia). cbn [expect]. rewrite Ascii.eqb_refl.
  rewrite read_digitsN_small by (simpl; lia).
  assert (in_range 1 12 (month t) && in_range 1 (daysIn (month t) (year t)) (day t)
          && in_range 0 23 (hour t) && in_range 0 59 (minute t)
          && in_range 0 59 (second t) = true) as ->.
  { rewrite !andb_true_iff, !in_range_true. lia. }
  destruct (format_zone_head (zone_offset t)) as (zc & zr & Hz & Hzd & Hzdot).
  assert (Hfrac :
    match (if nanosecond t =? 0 then ""
           else String "." (frac_digits 9 (nanosecond t)))
          ++ format_zone (zone_offset t) with
    | String "." (String c r) =>
        if is_digit c then read_frac 9 (String c r)
        else (0, (if nanosecond t =? 0 then ""
                  else String "." (frac_digits 9 (nanosecond t)))
                 ++ format_zone (zone_offset t))
    | _ => (0, (if nanosecond t =? 0 then ""
                else String "." (frac_digits 9 (nanosecond t)))
               ++ format_zone (zone_offset t))
    end = (nanosecond t, format_zone (zone_offset t))).
  { destruct (nanosecond t =? 0) eqn:Ens.
    - apply Z.eqb_eq in Ens. rewrite Ens, append_nil_l, Hz.
      destruct zc as [[] [] [] [] [] [] [] []]; try reflexivity; discriminate.
    - apply Z.eqb_neq in Ens.
      destruct (frac_digits_head 8 (nanosecond t) Ens) as (c & r & Hc & Hd).
      rewrite append_cons.
      assert (Hread : read_frac 9 (frac_digits 9 (nanosecond t)
                                   ++ format_zone (zone_offset t))
                      = (nanosecond t, format_zone (zone_offset t))).
      { rewrite Hz. apply read_frac_digits; [lia | exact Hzd]. }
      rewrite Hc in *. rewrite append_cons in *. now rewrite Hd. }
  rewrite Hfrac.
  rewrite parse_zone_format by assumption.
  now destruct t.
Qed.

(** ** Decimal numbers *)

Lemma dec_value_app (a : Z) (x y : string) :
  dec_value a (x ++ y) = dec_value (dec_value a x) y.
Proof.
  revert a; induction x as [|c x IH]; intros a; [reflexivity|].
  rewrite append_cons. simpl. apply IH.
Qed.

Lemma digits_of_spec (fuel : nat) :
  forall n acc,
    0 <= n < 10 ^ Z.of_nat fuel -> (0 < fuel)%nat ->
    exists c d,
      digits_of fuel n acc = String c d ++ acc
      /\ all_bytes is_digit (String c d) = true
      /\ (forall a, dec_value a (String c d)
                    = a * 10 ^ Z.of_nat (String.length (String c d)) + n)
      /\ (0 < n -> Ascii.eqb c "0" = false)
      /\ (n = 0 -> String c d = "0").
Proof.
  induction fuel as [|f IH]; intros n acc Hn Hf; [lia|].
  cbn [digits_of]. pose proof (mod10_range n) as Hd.
  destruct (n <? 10) eqn:Esmall.
  - apply Z.ltb_lt in Esmall. rewrite Z.mod_small by lia.
    exists (digit_char n), "". split; [reflexivity|].
    split; [simpl; now rewrite digit_char_is_digit by lia|].
    split; [intros a; simpl; rewrite digit_char_val by lia; lia|].
    split.
    + intros Hpos. unfold digit_char.
      assert (n = 1 \/ n = 2 \/ n = 3 \/ n = 4 \/ n = 5 \/ n = 6 \/ n = 7
              \/ n = 8 \/ n = 9) as Hcases by lia.
      repeat (destruct Hcases as [-> | Hcases]; [reflexivity|]).
      now subst n.
    + now intros ->.
  - apply Z.ltb_ge in Esmall. rewrite pow10_succ in Hn.
    assert (Hq : 0 < n / 10 < 10 ^ Z.of_nat f).
    { split; [apply Z.div_str_pos; lia | apply Z.div_lt_upper_bound; lia]. }
    assert (Hfpos : (0 < f)%nat).
    { destruct f; [simpl in Hq; lia | lia]. }
    destruct (IH (n / 10) (String (digit_char (n mod 10)) acc)
                ltac:(lia) Hfpos) as (c & d & Heq & Hall & Hval & Hhead & _).
    exists c, (d ++ String (digit_char (n mod 10)) "").
    split.
    { rewrite Heq, !append_cons, append_assoc, append_cons, append_nil_l.
      reflexivity. }
    split.
    { rewrite <- append_cons, all_bytes_app, Hall. simpl.
      now rewrite digit_char_is_digit by lia. }
    split.
    { intros a. rewrite <- append_cons, dec_value_app, Hval, append_length.
      simpl dec_value. rewrite digit_char_val by lia.
      replace (Z.of_nat (String.length (String c d) + String.length (String (digit_char (n mod 10)) "")))
        with (Z.succ (Z.of_nat (String.length (String c d)))) by (simpl; lia).
      rewrite Z.pow_succ_r by lia.
      pose proof (Z.div_mod n 10 ltac:(lia)).
      cbn [String.length] in *.
      set (P := 10 ^ Z.of_nat (S (String.length d))) in *. lia. }
    split; [intros _; apply Hhead; lia | intros ->; simpl in Esmall; lia].
Qed.

Lemma utoa_spec (n : Z) :
  0 <= n ->
  exists c d,
    utoa n = String c d
    /\ all_bytes is_digit (String c d) = true
    /\ dec_value 0 (String c d) = n
    /\ (0 < n -> Ascii.eqb c "0" = false)
    /\ (n = 0 -> String c d = "0").
Proof.
  intros Hn. unfold utoa.
  assert (Hbound : 0 <= n < 10 ^ Z.of_nat (S (Z.to_nat (Z.log2 n)))).
  { split; [exact Hn|]. rewrite Nat2Z.inj_succ, Z2Nat.id by apply Z.log2_nonneg.
    destruct (Z.eq_dec n 0) as [-> | Hne]; [reflexivity|].
    pose proof (Z.log2_spec n ltac:(lia)) as [_ Hlt].
    eapply Z.lt_le_trans; [exact Hlt|].
    apply Z.pow_le_mono_l. pose proof (Z.log2_nonneg n). lia. }
  destruct (digits_of_spec _ n "" Hbound ltac:(lia))
    as (c & d & Heq & Hall & Hval & Hhead & Hzero).
  exists c, d. rewrite Heq, append_nil_r.
  split; [reflexivity|]. split; [exact Hall|].
  split; [rewrite Hval; lia|]. split; assumption.
Qed.

Lemma scan_digits_all (d : string) (c : ascii) (X : string) :
  all_bytes is_digit d = true -> is_digit c = false ->
  json.scan_digits (d ++ String c X) = (d, String c X).
Proof.
  intros Hd Hc. induction d as [|x d IH].
  - simpl. now rewrite Hc.
  - rewrite append_cons. simpl in *. apply andb_true_iff in Hd as [Hx Hd].
    now rewrite Hx, (IH Hd).
Qed.

Lemma scan_digits_end (d : string) :
  all_bytes is_digit d = true -> json.scan_digits d = (d, "").
Proof.
  intros Hd. induction d as [|x d IH]; [reflexivity|].
  simpl in *. apply andb_true_iff in Hd as [Hx Hd].
  now rewrite Hx, (IH Hd).
Qed.

Lemma read_digits_all (d : string) :
  forall acc, all_bytes is_digit d = true ->
              read_digits (String.length d) acc d = Some (dec_value acc d, "").
Proof.
  induction d as [|x d IH]; intros acc Hd; [reflexivity|].
  simpl in *. apply andb_true_iff in Hd as [Hx Hd].
  now rewrite Hx, (IH _ Hd).
Qed.

Lemma scan_unsigned_utoa (n : Z) (sign : string) (c : ascii) (X : string) :
  0 <= n -> is_follow c ->
  json.scan_unsigned sign (utoa n ++ String c X)
  = Some (sign ++ utoa n, String c X).
Proof.
  intros Hn Hc.
  assert (Hnd : is_digit c = false) by (destruct Hc as [-> | ->]; reflexivity).
  destruct (utoa_spec n Hn) as (c0 & d & Heq & Hall & _ & Hhead & Hzero).
  unfold json.scan_unsigned. rewrite Heq, append_cons.
  pose proof Hall as Hall'. simpl in Hall'. apply andb_true_iff in Hall' as [Hc0 _].
  rewrite Hc0.
  assert (Hint : (if Ascii.eqb c0 "0" then ("0", d ++ String c X)
                  else json.scan_digits (String c0 (d ++ String c X)))
                 = (String c0 d, String c X)).
  { destruct (Z.eq_dec n 0) as [-> | Hpos].
    - injection (Hzero eq_refl) as -> ->. reflexivity.
    - rewrite Hhead by lia. rewrite <- append_cons.
      now apply scan_digits_all. }
  rewrite Hint.
  destruct Hc as [-> | ->]; simpl; now rewrite append_nil_r.
Qed.

Lemma scan_number_itoa (z : Z) (c : ascii) (X : string) :
  is_follow c ->
  json.scan_number (itoa z ++ String c X) = Some (itoa z, String c X).
Proof.
  intros Hc. unfold itoa, json.scan_number.
  destruct (z <? 0) eqn:Eneg.
  - apply Z.ltb_lt in Eneg. rewrite append_cons.
    cbn [Ascii.eqb]. now rewrite scan_unsigned_utoa by (assumption || lia).
  - apply Z.ltb_ge in Eneg.
    destruct (utoa_spec z Eneg) as (c1 & d1 & Heq1 & Hall1 & _).
    transitivity (json.scan_unsigned "" (utoa z ++ String c X));
      [|now rewrite scan_unsigned_utoa].
    rewrite Heq1, append_cons.
    simpl in Hall1. apply andb_true_iff in Hall1 as [Hd1 _].
    destruct c1 as [[] [] [] [] [] [] [] []]; try reflexivity; discriminate.
Qed.

Lemma ParseInt_itoa (z : Z) :
  in_range (- MaxInt64 - 1) MaxInt64 z = true ->
  json.ParseInt (itoa z) = Some z.
Proof.
  intros Hz. unfold itoa, json.ParseInt.
  destruct (z <? 0) eqn:Eneg.
  - apply Z.ltb_lt in Eneg.
    destruct (utoa_spec (- z) ltac:(lia)) as (c & d & Heq & Hall & Hval & _).
    rewrite Heq, (scan_digits_end _ Hall), (read_digits_all _ _ Hall), Hval.
    rewrite Z.opp_involutive, Hz. reflexivity.
  - apply Z.ltb_ge in Eneg.
    destruct (utoa_spec z Eneg) as (c & d & Heq & Hall & Hval & _).
    rewrite Heq.
    assert (Hs : match String c d with
                 | String "-" r => (true, r)
                 | _ => (false, String c d)
                 end = (false, String c d)).
    { simpl in Hall. apply andb_true_iff in Hall as [Hc _].
      destruct c as [[] [] [] [] [] [] [] []]; try reflexivity; discriminate. }
    rewrite Hs, (scan_digits_end _ Hall), (read_digits_all _ _ Hall), Hval, Hz.
    reflexivity.
Qed.


(** ** UTF-8 *)

Ltac to_prop :=
  repeat match goal with
         | E : (_ && _) = true |- _ => apply andb_true_iff in E as [? ?]
         | E : (_ && _) = false |- _ => apply andb_false_iff in E
         | E : (_ || _) = true |- _ => apply orb_true_iff in E
         | E : (_ || _) = false |- _ => apply orb_false_iff in E as [? ?]
         | E : in_range _ _ _ = true |- _ => apply in_range_true in E
         | E : in_range _ _ _ = false |- _ => apply in_range_false in E
         | E : is_cont _ = true |- _ => apply in_range_true in E
         | E : is_cont _ = false |- _ => apply in_range_false in E
         | E : (_ <=? _) = true |- _ => apply Z.leb_le in E
         | E : (_ <=? _) = false |- _ => apply Z.leb_gt in E
         | E : (_ <? _) = true |- _ => apply Z.ltb_lt in E
         | E : (_ <? _) = false |- _ => apply Z.ltb_ge in E
         | E : (_ =? _) = true |- _ => apply Z.eqb_eq in E
         | E : (_ =? _) = false |- _ => apply Z.eqb_neq in E
         | E : _ \/ _ |- _ => destruct E
         end.

Lemma EncodeRune_2 (c0 c1 : ascii) :
  128 <= byte_val c1 <= 191 -> 194 <= byte_val c0 <= 223 ->
  EncodeRune ((byte_val c0 - 192) * 64 + (byte_val c1 - 128))
  = String c0 (String c1 "").
Proof.
  intros H1 H0. unfold EncodeRune.
  set (r := (byte_val c0 - 192) * 64 + (byte_val c1 - 128)).
  assert (Hr : 128 <= r < 2048) by (unfold r; lia).
  destruct ((0 <=? r) && (r <? 128)) eqn:E1; [to_prop; lia|].
  destruct ((0 <=? r) && (r <? 2048)) eqn:E2; [|to_prop; lia].
  simpl.
  replace (192 + r / 64) with (byte_val c0)
    by (unfold r; Z.div_mod_to_equations; lia).
  replace (128 + r mod 64) with (byte_val c1)
    by (unfold r; Z.div_mod_to_equations; lia).
  now rewrite !byte_of_val.
Qed.

Lemma EncodeRune_3 (c0 c1 c2 : ascii) :
  224 <= byte_val c0 <= 239 ->
  (if byte_val c0 =? 224 then 160 else 128) <= byte_val c1
    <= (if byte_val c0 =? 237 then 159 else 191) ->
  128 <= byte_val c2 <= 191 ->
  EncodeRune ((byte_val c0 - 224) * 4096 + (byte_val c1 - 128) * 64
              + (byte_val c2 - 128))
  = String c0 (String c1 (String c2 "")).
Proof.
  intros H0 H1 H2. unfold EncodeRune.
  set (r := (byte_val c0 - 224) * 4096 + (byte_val c1 - 128) * 64
            + (byte_val c2 - 128)).
  assert (Hr : 2048 <= r < 65536 /\ (r < 55296 \/ 57343 < r)).
  { unfold r. destruct (byte_val c0 =? 224) eqn:Ea;
      destruct (byte_val c0 =? 237) eqn:Eb; to_prop; lia. }
  destruct ((0 <=? r) && (r <? 128)) eqn:E1; [to_prop; lia|].
  destruct ((0 <=? r) && (r <? 2048)) eqn:E2; [to_prop; lia|].
  destruct ((r <? 0) || (1114111 <? r) || in_range 55296 57343 r) eqn:E3;
    [to_prop; lia|].
  destruct (r <? 65536) eqn:E4; [|to_prop; lia].
  simpl.
  assert (Hb1 : 128 <= byte_val c1 <= 191)
    by (destruct (byte_val c0 =? 224), (byte_val c0 =? 237); lia).
  replace (224 + r / 4096) with (byte_val c0)
    by (unfold r; Z.div_mod_to_equations; lia).
  replace (128 + (r / 64) mod 64) with (byte_val c1)
    by (unfold r; Z.div_mod_to_equations; lia).
  replace (128 + r mod 64) with (byte_val c2)
    by (unfold r; Z.div_mod_to_equations; lia).
  now rewrite !byte_of_val.
Qed.

Lemma EncodeRune_4 (c0 c1 c2 c3 : ascii) :
  240 <= byte_val c0 <= 244 ->
  (if byte_val c0 =? 240 then 144 else 128) <= byte_val c1
    <= (if byte_val c0 =? 244 then 143 else 191) ->
  128 <= byte_val c2 <= 191 -> 128 <= byte_val c3 <= 191 ->
  EncodeRune ((byte_val c0 - 240) * 262144 + (byte_val c1 - 128) * 4096
              + (byte_val c2 - 128) * 64 + (byte_val c3 - 128))
  = String c0 (String c1 (String c2 (String c3 ""))).
Proof.
  intros H0 H1 H2 H3. unfold EncodeRune.
  set (r := (byte_val c0 - 240) * 262144 + (byte_val c1 - 128) * 4096
            + (byte_val c2 - 128) * 64 + (byte_val c3 - 128)).
  assert (Hr : 65536 <= r <= 1114111).
  { unfold r. destruct (byte_val c0 =? 240) eqn:Ea;
      destruct (byte_val c0 =? 244) eqn:Eb; to_prop; lia. }
  destruct ((0 <=? r) && (r <? 128)) eqn:E1; [to_prop; lia|].
  destruct ((0 <=? r) && (r <? 2048)) eqn:E2; [to_prop; lia|].
  destruct ((r <? 0) || (1114111 <? r) || in_range 55296 57343 r) eqn:E3;
    [to_prop; lia|].
  destruct (r <? 65536) eqn:E4; [to_prop; lia|].
  simpl.
  assert (Hb1 : 128 <= byte_val c1 <= 191)
    by (destruct (byte_val c0 =? 240), (byte_val c0 =? 244); lia).
  replace (240 + r / 262144) with (byte_val c0)
    by (unfold r; Z.div_mod_to_equations; lia).
  replace (128 + (r / 4096) mod 64) with (byte_val c1)
    by (unfold r; Z.div_mod_to_equations; lia).
  replace (128 + (r / 64) mod 64) with (byte_val c2)
    by (unfold r; Z.div_mod_to_equations; lia).
  replace (128 + r mod 64) with (byte_val c3)
    by (unfold r; Z.div_mod_to_equations; lia).
  now rewrite !byte_of_val.
Qed.

Lemma DecodeRune_multibyte (c : ascii) (s : string) (r : Z) (size : nat) :
  is_ascii_byte c = false ->
  DecodeRune (String c s) = (r, size) ->
  (r =? RuneError) && Nat.eqb size 1 = false ->
  exists mid rest,
    s = mid ++ rest /\ size = S (String.length mid)
    /\ EncodeRune r = String c mid
    /\ all_bytes is_high mid = true
    /\ forall Y, DecodeRune (String c (mid ++ Y)) = (r, size).
Proof.
  unfold is_ascii_byte. intros Hhigh Hdec Hvalid.
  unfold DecodeRune in Hdec. rewrite Hhigh in Hdec.
  assert (Hbad : forall A (x : A), (RuneError, 1%nat) = (r, size) -> x = x -> False).
  { intros A x E _. injection E as <- <-. discriminate Hvalid. }
  destruct (in_range 194 223 (byte_val c)) eqn:E2.
  { destruct s as [|c1 s1]; [now elim (Hbad _ tt Hdec)|].
    destruct (is_cont (byte_val c1)) eqn:Ec1; [|now elim (Hbad _ tt Hdec)].
    injection Hdec as <- <-.
    pose proof (proj1 (in_range_true _ _ _) E2) as P2.
    pose proof (proj1 (in_range_true _ _ _) Ec1) as P1.
    exists (String c1 ""), s1. split; [reflexivity|]. split; [reflexivity|].
    split; [now apply EncodeRune_2|].
    split.
    { unfold is_high, is_ascii_byte. simpl.
      assert ((byte_val c1 <? 128) = false) as -> by (apply Z.ltb_ge; lia).
      reflexivity. }
    intros Y. rewrite append_cons, append_nil_l. unfold DecodeRune.
    rewrite Hhigh, E2, Ec1. reflexivity. }
  destruct (in_range 224 239 (byte_val c)) eqn:E3.
  { destruct s as [|c1 [|c2 s2]]; try now elim (Hbad _ tt Hdec).
    destruct (in_range (if byte_val c =? 224 then 160 else 128)
                (if byte_val c =? 237 then 159 else 191) (byte_val c1)
              && is_cont (byte_val c2)) eqn:Ec; [|now elim (Hbad _ tt Hdec)].
    injection Hdec as <- <-.
    pose proof Ec as Ec'. apply andb_true_iff in Ec' as [Ec1 Ec2].
    apply in_range_true in Ec1, Ec2, E3.
    exists (String c1 (String c2 "")), s2.
    split; [reflexivity|]. split; [reflexivity|].
    split; [now apply EncodeRune_3|].
    split.
    { unfold is_high, is_ascii_byte. simpl.
      assert ((byte_val c1 <? 128) = false) as ->
        by (apply Z.ltb_ge; destruct (byte_val c =? 224); lia).
      assert ((byte_val c2 <? 128) = false) as -> by (apply Z.ltb_ge; lia).
      reflexivity. }
    intros Y. rewrite !append_cons, append_nil_l. unfold DecodeRune.
    rewrite Hhigh, E2.
    assert (in_range 224 239 (byte_val c) = true) as -> by (apply in_range_true; lia).
    rewrite Ec. reflexivity. }
  destruct (in_range 240 244 (byte_val c)) eqn:E4; [|now elim (Hbad _ tt Hdec)].
  destruct s as [|c1 [|c2 [|c3 s3]]]; try now elim (Hbad _ tt Hdec).
  destruct (in_range (if byte_val c =? 240 then 144 else 128)
              (if byte_val c =? 244 then 143 else 191) (byte_val c1)
            && is_cont (byte_val c2) && is_cont (byte_val c3)) eqn:Ec;
    [|now elim (Hbad _ tt Hdec)].
  injection Hdec as <- <-.
  pose proof Ec as Ec'. apply andb_true_iff in Ec' as [Ec' Ec3].
  apply andb_true_iff in Ec' as [Ec1 Ec2].
  apply in_range_true in Ec1, Ec2, Ec3, E4.
  exists (String c1 (String c2 (String c3 ""))), s3.
  split; [reflexivity|]. split; [reflexivity|].
  split; [now apply EncodeRune_4|].
  split.
  { unfold is_high, is_ascii_byte. simpl.
    assert ((byte_val c1 <? 128) = false) as ->
      by (apply Z.ltb_ge; destruct (byte_val c =? 240); lia).
    assert ((byte_val c2 <? 128) = false) as -> by (apply Z.ltb_ge; lia).
    assert ((byte_val c3 <? 128) = false) as -> by (apply Z.ltb_ge; lia).
    reflexivity. }
  intros Y. rewrite !append_cons, append_nil_l. unfold DecodeRune.
  rewrite Hhigh, E2, E3.
  assert (in_range 240 244 (byte_val c) = true) as -> by (apply in_range_true; lia).
  rewrite Ec. reflexivity.
Qed.

Lemma DecodeRune_ascii (c : ascii) (s : string) :
  is_ascii_byte c = true -> DecodeRune (String c s) = (byte_val c, 1%nat).
Proof. unfold is_ascii_byte, DecodeRune. now intros ->. Qed.

(** ** Strings in JSON *)

Lemma appendString_loop_copy (mid rest : string) :
  json.appendString_loop (String.length mid) true (mid ++ rest)
  = mid ++ json.appendString_loop 0 true rest.
Proof.
  induction mid as [|c mid IH]; [reflexivity|].
  rewrite !append_cons. simpl. now rewrite IH.
Qed.

Lemma appendString_loop_drop (mid rest : string) :
  json.appendString_loop (String.length mid) false (mid ++ rest)
  = json.appendString_loop 0 true rest.
Proof.
  induction mid as [|c mid IH]; [now destruct rest|].
  rewrite append_cons. simpl. exact IH.
Qed.

Lemma ValidString_from_skip (mid rest : string) :
  ValidString_from (String.length mid) (mid ++ rest) = ValidString_from 0 rest.
Proof.
  induction mid as [|c mid IH]; [reflexivity|].
  rewrite append_cons. simpl. exact IH.
Qed.

Lemma unquote_loop_skip (mid rest : string) :
  json.unquote_loop (String.length mid) (mid ++ rest) = json.unquote_loop 0 rest.
Proof.
  induction mid as [|c mid IH]; [reflexivity|].
  rewrite append_cons. simpl. exact IH.
Qed.

Lemma prepend_cons (c : ascii) (x : option (string * string)) :
  json.cons_raw c x = prepend (String c "") x.
Proof. now destruct x as [[raw rest]|]. Qed.

Lemma prepend_app (a b : string) (x : option (string * string)) :
  prepend a (prepend b x) = prepend (a ++ b) x.
Proof. destruct x as [[raw rest]|]; simpl; [now rewrite append_assoc | reflexivity]. Qed.

Lemma scan_string_plain (c : ascii) (Y : string) :
  plain_byte c = true ->
  json.scan_string 0 (String c Y) = json.cons_raw c (json.scan_string 0 Y).
Proof.
  unfold plain_byte. intros Hc.
  apply andb_true_iff in Hc as [Hc Hb]. apply andb_true_iff in Hc as [Hc Hq].
  apply negb_true_iff in Hb, Hq. apply Z.leb_le in Hc.
  simpl. rewrite Hq, Hb.
  assert ((byte_val c <? 32) = false) as -> by (apply Z.ltb_ge; lia).
  reflexivity.
Qed.

Lemma scan_string_plain_all (s Y : string) :
  all_bytes plain_byte s = true ->
  json.scan_string 0 (s ++ Y) = prepend s (json.scan_string 0 Y).
Proof.
  intros Hs. induction s as [|c s IH].
  - rewrite append_nil_l. now destruct (json.scan_string 0 Y) as [[raw rest]|].
  - simpl in Hs. apply andb_true_iff in Hs as [Hc Hs].
    rewrite append_cons, scan_string_plain by exact Hc.
    rewrite (IH Hs), prepend_cons, prepend_app. reflexivity.
Qed.

Lemma scan_string_quoted (s X : string) :
  all_bytes plain_byte s = true ->
  json.scan_string 0 (s ++ String json.dquote X) = Some (s, X).
Proof.
  intros Hs. rewrite scan_string_plain_all by exact Hs.
  simpl. now rewrite append_nil_r.
Qed.

Lemma high_is_plain (c : ascii) : is_high c = true -> plain_byte c = true.
Proof. destruct c as [[] [] [] [] [] [] [] []]; simpl; intros; try discriminate; reflexivity. Qed.

Lemma htmlSafe_plain (c : ascii) :
  json.htmlSafe (byte_val c) = true -> plain_byte c = true.
Proof. destruct c as [[] [] [] [] [] [] [] []]; simpl; intros; try discriminate; reflexivity. Qed.

Ltac concrete_escape :=
  match goal with
  | |- context [json.escape_ascii ?c] =>
      let v := eval vm_compute in (json.escape_ascii c) in
      change (json.escape_ascii c) with v
  end;
  rewrite ?append_cons, ?append_nil_l.

Lemma scan_string_escape_ascii (c : ascii) (Y : string) :
  is_ascii_byte c = true ->
  json.scan_string 0 (json.escape_ascii c ++ Y)
  = prepend (json.escape_ascii c) (json.scan_string 0 Y).
Proof.
  intros Hc. destruct (json.htmlSafe (byte_val c)) eqn:Esafe.
  - unfold json.escape_ascii. rewrite Esafe, append_cons, append_nil_l.
    rewrite scan_string_plain by now apply htmlSafe_plain.
    apply prepend_cons.
  - destruct c as [[] [] [] [] [] [] [] []]; try discriminate Hc;
      try discriminate Esafe;
      concrete_escape; simpl;
      now destruct (json.scan_string 0 Y) as [[raw rest]|].
Qed.

Lemma unquote_loop_escape_ascii (c : ascii) (Y : string) :
  is_ascii_byte c = true ->
  json.unquote_loop 0 (json.escape_ascii c ++ Y)
  = match json.unquote_loop 0 Y with
    | Some t => Some (String c t)
    | None => None
    end.
Proof.
  intros Hc.
  destruct c as [[] [] [] [] [] [] [] []]; try discriminate Hc;
    concrete_escape; simpl;
    now destruct (json.unquote_loop 0 Y).
Qed.

Lemma unquote_loop_high (c : ascii) (mid Y : string) (r : Z) :
  is_ascii_byte c = false ->
  DecodeRune (String c (mid ++ Y)) = (r, S (String.length mid)) ->
  EncodeRune r = String c mid ->
  json.unquote_loop 0 (String c (mid ++ Y))
  = match json.unquote_loop 0 Y with
    | Some t => Some (String c mid ++ t)
    | None => None
    end.
Proof.
  intros Hc Hdec Henc.
  assert (Hplain : plain_byte c = true)
    by (apply high_is_plain; unfold is_high; now rewrite Hc).
  unfold plain_byte in Hplain.
  apply andb_true_iff in Hplain as [Hp Hb]. apply andb_true_iff in Hp as [Hp Hq].
  apply negb_true_iff in Hb, Hq. apply Z.leb_le in Hp.
  cbn [json.unquote_loop]. rewrite Hb, Hq.
  assert ((byte_val c <? 32) = false) as -> by (apply Z.ltb_ge; lia).
  cbn [orb]. rewrite Hc, Hdec. cbn [Nat.pred].
  now rewrite unquote_loop_skip, Henc.
Qed.

Lemma appendString_loop_ascii (c : ascii) (s : string) :
  is_ascii_byte c = true ->
  json.appendString_loop 0 true (String c s)
  = json.escape_ascii c ++ json.appendString_loop 0 true s.
Proof. intros Hc. cbn [json.appendString_loop]. now rewrite Hc. Qed.

Lemma appendString_loop_high (c : ascii) (mid rest : string) (r : Z) :
  is_ascii_byte c = false ->
  DecodeRune (String c (mid ++ rest)) = (r, S (String.length mid)) ->
  (r =? RuneError) && Nat.eqb (S (String.length mid)) 1 = false ->
  json.appendString_loop 0 true (String c (mid ++ rest))
  = (if (r =? 0x2028) || (r =? 0x2029)
     then "\u202" ++ String (hexdigit (Z.land r 0xF)) ""
     else String c mid)
    ++ json.appendString_loop 0 true rest.
Proof.
  intros Hc Hdec Hvalid. cbn [json.appendString_loop].
  rewrite Hc, Hdec, Hvalid. cbn [Nat.pred].
  destruct ((r =? 0x2028) || (r =? 0x2029)).
  - rewrite appendString_loop_drop, !append_cons, append_nil_l.
    reflexivity.
  - now rewrite appendString_loop_copy, append_cons.
Qed.

(** A string of valid UTF-8 is read back from its JSON literal: the
    scanner finds the closing quote, and unquoting gives the string. *)
Lemma appendString_roundtrip (n : nat) :
  forall s,
    (String.length s <= n)%nat -> ValidString_from 0 s = true ->
    (forall Y, json.scan_string 0 (json.appendString_loop 0 true s ++ Y)
               = prepend (json.appendString_loop 0 true s) (json.scan_string 0 Y))
    /\ json.unquote_loop 0 (json.appendString_loop 0 true s) = Some s.
Proof.
  induction n as [|n IH]; intros s Hlen Hvalid.
  { destruct s; [|simpl in Hlen; lia].
    split; [|reflexivity].
    intros Y. rewrite append_nil_l. now destruct (json.scan_string 0 Y) as [[raw rest]|]. }
  destruct s as [|c s].
  { split; [|reflexivity].
    intros Y. rewrite append_nil_l. now destruct (json.scan_string 0 Y) as [[raw rest]|]. }
  simpl in Hlen. cbn [ValidString_from] in Hvalid.
  destruct (is_ascii_byte c) eqn:Hc.
  - rewrite DecodeRune_ascii in Hvalid by exact Hc.
    assert ((byte_val c =? RuneError) = false) as Hne.
    { apply Z.eqb_neq. unfold is_ascii_byte in Hc. apply Z.ltb_lt in Hc.
      unfold RuneError. lia. }
    rewrite Hne in Hvalid. cbn [andb Nat.pred] in Hvalid.
    destruct (IH s ltac:(lia) Hvalid) as [Hscan Hunq].
    rewrite appendString_loop_ascii by exact Hc. split.
    + intros Y. rewrite append_assoc, scan_string_escape_ascii by exact Hc.
      now rewrite Hscan, prepend_app.
    + now rewrite unquote_loop_escape_ascii, Hunq by exact Hc.
  - destruct (DecodeRune (String c s)) as [r size] eqn:Hdec.
    destruct ((r =? RuneError) && Nat.eqb size 1) eqn:Hok; [discriminate|].
    destruct (DecodeRune_multibyte c s r size Hc Hdec Hok)
      as (mid & rest & -> & -> & Henc & Hhigh & Hany).
    cbn [Nat.pred] in Hvalid. rewrite ValidString_from_skip in Hvalid.
    rewrite append_length in Hlen.
    destruct (IH rest ltac:(lia) Hvalid) as [Hscan Hunq].
    rewrite (appendString_loop_high c mid rest r Hc Hdec Hok).
    assert (Hplain : all_bytes plain_byte (String c mid) = true).
    { apply (all_bytes_impl is_high); [apply high_is_plain|].
      simpl. unfold is_high at 1. now rewrite Hc, Hhigh. }
    destruct ((r =? 0x2028) || (r =? 0x2029)) eqn:Esep.
    + assert (Hr : r = 0x2028 \/ r = 0x2029).
      { apply orb_true_iff in Esep as [E | E]; apply Z.eqb_eq in E; auto. }
      assert (Hhex : hexdigit (Z.land r 0xF) = "8"%char
                     \/ hexdigit (Z.land r 0xF) = "9"%char)
        by (destruct Hr as [-> | ->]; [left | right]; reflexivity).
      split.
      * intros Y. rewrite append_assoc.
        destruct Hhex as [-> | ->]; rewrite !append_cons, ?append_nil_l; simpl;
          rewrite ?append_nil_l, Hscan;
          now destruct (json.scan_string 0 Y) as [[raw rest']|].
      * change (String c (mid ++ rest)) with (String c mid ++ rest).
        rewrite <- Henc.
        destruct Hr as [-> | ->]; rewrite !append_cons, ?append_nil_l; simpl;
          now rewrite ?append_nil_l, Hunq.
    + split.
      * intros Y. rewrite append_assoc, scan_string_plain_all by exact Hplain.
        now rewrite Hscan, prepend_app.
      * rewrite append_cons.
        rewrite (unquote_loop_high c mid _ r Hc (Hany _) Henc), Hunq.
        now rewrite append_cons.
Qed.

(** ** The object *)

Lemma parse_value_string (s : string) :
  ValidString s = true -> parses (json.appendString s) (json.JString (json.appendString_loop 0 true s)).
Proof.
  intros Hs f c X Hc.
  destruct (appendString_roundtrip _ s (le_n _) Hs) as [Hscan _].
  unfold json.appendString, json.quoted.
  rewrite append_cons, append_assoc, append_cons, append_nil_l.
  cbn [json.parse_value json.skip_ws json.is_space byte_val]. simpl.
  rewrite Hscan. simpl. now rewrite append_nil_r.
Qed.

Lemma parse_value_plain (t : string) :
  all_bytes plain_byte t = true -> parses (json.quoted t) (json.JString t).
Proof.
  intros Ht f c X Hc. unfold json.quoted.
  rewrite append_cons, append_assoc, append_cons, append_nil_l.
  simpl. now rewrite scan_string_quoted.
Qed.

Lemma itoa_head (z : Z) :
  exists c r, itoa z = String c r /\ (is_digit c = true \/ c = "-"%char).
Proof.
  unfold itoa. destruct (z <? 0) eqn:E.
  - eexists _, _. split; [reflexivity | now right].
  - apply Z.ltb_ge in E.
    destruct (utoa_spec z E) as (c & d & Heq & Hall & _).
    exists c, d. split; [exact Heq|]. left.
    simpl in Hall. now apply andb_true_iff in Hall as [Hc _].
Qed.

Lemma parse_value_number (z : Z) : parses (itoa z) (json.JNumber (itoa z)).
Proof.
  intros f c X Hc.
  pose proof (scan_number_itoa z c X Hc) as Hscan.
  destruct (itoa_head z) as (c0 & r & Heq & Hhead).
  rewrite Heq in *. rewrite append_cons in *.
  assert (Hns : json.is_space c0 = false).
  { destruct Hhead as [Hd | ->]; [|reflexivity].
    destruct c0 as [[] [] [] [] [] [] [] []]; try reflexivity; discriminate Hd. }
  cbn [json.parse_value json.skip_ws]. 
  change (json.is_space " ") with true. cbv iota. cbn [json.skip_ws].
  rewrite Hns.
  destruct Hhead as [Hd | ->].
  - destruct c0 as [[] [] [] [] [] [] [] []]; try discriminate Hd;
      cbn [Ascii.eqb Bool.eqb json.dquote]; cbv iota; now rewrite Hscan.
  - cbn [Ascii.eqb Bool.eqb json.dquote]. cbv iota. now rewrite Hscan.
Qed.

Lemma member_shape (k t R : string) :
  json.member k t ++ R
  = String " " (String " " (String json.dquote
      (k ++ String json.dquote (String ":" (String " " (t ++ R)))))).
Proof.
  unfold json.member, json.quoted.
  now rewrite !append_assoc, !append_cons, !append_nil_l, !append_assoc,
    !append_cons, !append_nil_l.
Qed.

Lemma parse_members_member (f : nat) (k t R : string) :
  all_bytes plain_byte k = true ->
  json.parse_members (S f) (String json.nl (json.member k t ++ R))
  = match json.parse_value f (String " " (t ++ R)) with
    | Some (v, r3) =>
        match json.skip_ws r3 with
        | String "," r4 =>
            match json.parse_members f r4 with
            | Some (ms, rest) => Some ((k, v) :: ms, rest)
            | None => None
            end
        | String "}" rest => Some ([(k, v)], rest)
        | _ => None
        end
    | None => None
    end.
Proof.
  intros Hk. rewrite member_shape.
  cbn [json.parse_members json.skip_ws].
  change (json.is_space json.nl) with true.
  change (json.is_space " ") with true.
  change (json.is_space json.dquote) with false.
  cbv iota. rewrite Ascii.eqb_refl.
  rewrite scan_string_quoted by exact Hk.
  reflexivity.
Qed.

Lemma parse_members_ok (ms : list (string * string * json.value)) :
  ms <> [] ->
  (forall m, List.In m ms ->
             all_bytes plain_byte (fst (fst m)) = true
             /\ parses (snd (fst m)) (snd m)) ->
  forall f X,
    json.parse_members (List.length ms + S f)
      (String json.nl (JoinStrings (map member_text ms) member_sep
                       ++ String json.nl (String "}" X)))
    = Some (map member_value ms, X).
Proof.
  induction ms as [|m ms IH]; [congruence|].
  intros _ Hms f X.
  destruct (Hms m ltac:(now left)) as [Hk Hv].
  destruct m as [[k t] v]. simpl in Hk, Hv.
  destruct ms as [|m2 ms].
  - cbn [map JoinStrings List.length Nat.add].
    change (member_text (k, t, v)) with (json.member k t).
    rewrite parse_members_member by exact Hk.
    rewrite (Hv f json.nl _ ltac:(now right)).
    reflexivity.
  - change (JoinStrings (map member_text ((k, t, v) :: m2 :: ms)) member_sep)
      with (json.member k t ++ member_sep
            ++ JoinStrings (map member_text (m2 :: ms)) member_sep).
    change (map member_value ((k, t, v) :: m2 :: ms))
      with ((k, v) :: map member_value (m2 :: ms)).
    rewrite !append_assoc.
    change (List.length ((k, t, v) :: m2 :: ms) + S f)%nat
      with (S (List.length (m2 :: ms) + S f)).
    rewrite parse_members_member by exact Hk.
    unfold member_sep at 1. rewrite append_cons, append_cons, append_nil_l.
    change (List.length (m2 :: ms) + S f)%nat
      with (S (List.length ms + S f)) at 1.
    rewrite (Hv _ ","%char _ ltac:(now left)).
    cbn [json.skip_ws]. change (json.is_space ",") with false. cbv iota.
    rewrite IH; [reflexivity | discriminate |].
    intros m Hm. apply Hms. now right.
Qed.

Lemma JoinStrings_length (l : list string) (sep : string) :
  (forall e, List.In e l -> (1 <= String.length e)%nat) ->
  (List.length l <= String.length (JoinStrings l sep) + 0)%nat.
Proof.
  induction l as [|a l IH]; intros Hl; [simpl; lia|].
  pose proof (Hl a ltac:(now left)) as Ha.
  destruct l as [|b l]; [simpl; lia|].
  change (JoinStrings (a :: b :: l) sep) with (a ++ sep ++ JoinStrings (b :: l) sep).
  rewrite !append_length.
  specialize (IH ltac:(intros e He; apply Hl; now right)).
  simpl List.length in *. lia.
Qed.

Lemma parse_object (ms : list (string * string * json.value)) :
  ms <> [] ->
  (forall m, List.In m ms ->
             all_bytes plain_byte (fst (fst m)) = true
             /\ parses (snd (fst m)) (snd m)) ->
  json.parse ("{" ++ String json.nl (JoinStrings (map member_text ms) member_sep)
              ++ String json.nl "}")
  = Some (json.JObject (map member_value ms)).
Proof.
  intros Hne Hms. unfold json.parse.
  set (body := JoinStrings (map member_text ms) member_sep).
  assert (Hlen : (List.length ms <= String.length body)%nat).
  { pose proof (JoinStrings_length (map member_text ms) member_sep) as Hj.
    rewrite List.length_map in Hj. fold body in Hj.
    assert (forall e, List.In e (map member_text ms) -> (1 <= String.length e)%nat).
    { intros e He. apply in_map_iff in He as (m & <- & _).
      unfold member_text, json.member. rewrite append_length. simpl. lia. }
    specialize (Hj H). lia. }
  rewrite !append_cons, !append_nil_l.
  cbn [String.length]. rewrite append_length. cbn [String.length].
  replace (S (S (String.length body + 2)))
    with (List.length ms + S (String.length body + 3 - List.length ms))%nat
    by lia.
  destruct ms as [|[[k t] v] ms']; [congruence|].
  assert (Hbody : exists R, body = json.member k t ++ R).
  { unfold body. destruct ms' as [|m2 ms''].
    - exists "". now rewrite append_nil_r.
    - eexists. reflexivity. }
  destruct Hbody as [R HR].
  cbn [json.parse_value json.skip_ws].
  change (json.is_space "{") with false. cbv iota.
  change (Ascii.eqb "{" json.dquote) with false.
  change (Ascii.eqb "{" "{") with true. cbv iota.
  assert (Hskip : json.skip_ws (String json.nl (body ++ String json.nl "}"))
                  = String json.dquote
                      (k ++ String json.dquote (String ":" (String " "
                         (t ++ R ++ String json.nl "}"))))).
  { rewrite HR, append_assoc, member_shape. reflexivity. }
  assert (Hmatch : forall A (a : string -> A) (b : A),
             match json.skip_ws (String json.nl (body ++ String json.nl "}")) with
             | String "}" rest => a rest
             | _ => b
             end = b).
  { intros A a b. rewrite Hskip. reflexivity. }
  rewrite Hmatch.
  subst body.
  rewrite (parse_members_ok ((k, t, v) :: ms') Hne Hms).
  reflexivity.
Qed.

Lemma digit_char_plain (d : Z) : 0 <= d <= 9 -> plain_byte (digit_char d) = true.
Proof.
  intros Hd.
  assert (d = 0 \/ d = 1 \/ d = 2 \/ d = 3 \/ d = 4 \/ d = 5 \/ d = 6 \/ d = 7
          \/ d = 8 \/ d = 9) as Hcases by lia.
  repeat (destruct Hcases as [-> | Hcases]; [reflexivity|]). now subst d.
Qed.

Lemma digitsN_plain (k : nat) (n : Z) : all_bytes plain_byte (digitsN k n) = true.
Proof.
  induction k as [|k IH]; [reflexivity|].
  cbn [digitsN all_bytes]. now rewrite digit_char_plain, IH by apply mod10_range.
Qed.

Lemma frac_digits_plain (k : nat) :
  forall n, all_bytes plain_byte (frac_digits k n) = true.
Proof.
  induction k as [|k IH]; intros n; [reflexivity|].
  cbn [frac_digits]. destruct (n =? 0); [reflexivity|].
  cbn [all_bytes]. now rewrite digit_char_plain, IH by apply mod10_range.
Qed.

Lemma format_zone_plain (off : Z) : all_bytes plain_byte (format_zone off) = true.
Proof.
  unfold format_zone. destruct (off =? 0); [reflexivity|].
  rewrite !all_bytes_app, !digitsN_plain.
  now destruct (Z.quot off 60 <? 0).
Qed.

Lemma format_time_plain (t : Time) (text : string) :
  format_time t = Ok text -> all_bytes plain_byte text = true.
Proof.
  intros Hfmt. destruct (format_time_text t text Hfmt) as (_ & _ & ->).
  repeat (rewrite all_bytes_app || rewrite digitsN_plain
          || rewrite format_zone_plain || cbn [all_bytes andb]).
  destruct (nanosecond t =? 0); [reflexivity|].
  cbn [all_bytes]. now rewrite frac_digits_plain.
Qed.

Lemma set_members_cons `{GoLib} (k : string) (f : json.field)
    (m : CacheMetadata) (v : json.value) (rest : list (string * json.value)) :
  json.unquote k = Some k -> json.find_field k = Some f ->
  json.set_members m ((k, v) :: rest)
  = match json.set_field m f v with
    | Some m' => json.set_members m' rest
    | None => None
    end.
Proof. intros Hk Hf. cbn [json.set_members]. now rewrite Hk, Hf. Qed.

Ltac set_member key field :=
  rewrite (set_members_cons key field) by reflexivity;
  cbn [json.set_field json.store_string json.store_time json.store_int];
  unfold json.unquote, parse_time.

(** What [MarshalIndent] writes, [Unmarshal] reads back. *)
Lemma Unmarshal_MarshalIndent `{GoLib} (meta : CacheMetadata) (data : string) :
  valid_meta meta = true ->
  json.MarshalIndent meta = Ok data ->
  json.Unmarshal data = Ok meta.
Proof.
  unfold valid_meta. rewrite !andb_true_iff.
  intros ((((((Hurl & Hhash) & Hetag) & Hlm) & Hct) & Htime) & Hsize) Hmarshal.
  unfold json.MarshalIndent in Hmarshal.
  destruct (format_time (DownloadedAt meta)) as [text | e] eqn:Hfmt; [|discriminate].
  pose (E := json.appendString_loop 0 true).
  pose (ms :=
    ([ ("url", json.appendString (meta_URL meta), json.JString (E (meta_URL meta)));
       ("downloaded_at", json.quoted text, json.JString text);
       ("content_hash", json.appendString (ContentHash meta),
        json.JString (E (ContentHash meta))) ]
     ++ (if String.eqb (ETag meta) "" then []
         else [("etag", json.appendString (ETag meta), json.JString (E (ETag meta)))])
     ++ (if String.eqb (LastModified meta) "" then []
         else [("last_modified", json.appendString (LastModified meta),
                json.JString (E (LastModified meta)))])
     ++ [ ("content_type", json.appendString (ContentType meta),
           json.JString (E (ContentType meta)));
          ("size", itoa (Size meta), json.JNumber (itoa (Size meta))) ])%list).
  assert (Hparse : json.parse
            ("{" ++ String json.nl (JoinStrings (map member_text ms) member_sep)
                 ++ String json.nl "}")
          = Some (json.JObject (map member_value ms))).
  { apply parse_object.
    - unfold ms. discriminate.
    - intros m Hm. unfold ms in Hm.
      repeat (apply in_app_or in Hm as [Hm | Hm]);
        repeat match goal with
               | D : List.In _ (if ?b then _ else _) |- _ => destruct b
               | D : List.In _ (_ :: _) |- _ => destruct D as [<- | D]
               | D : List.In _ [] |- _ => destruct D
               end;
        (split; [reflexivity|]); cbn [fst snd];
        first [ apply parse_value_string; assumption
              | apply parse_value_number
              | apply parse_value_plain; eapply format_time_plain; eassumption ]. }
  assert (Hsame :
    ([ json.member "url" (json.appendString (meta_URL meta));
       json.member "downloaded_at" (json.quoted text);
       json.member "content_hash" (json.appendString (ContentHash meta)) ]
     ++ (if String.eqb (ETag meta) "" then []
         else [json.member "etag" (json.appendString (ETag meta))])
     ++ (if String.eqb (LastModified meta) "" then []
         else [json.member "last_modified" (json.appendString (LastModified meta))])
     ++ [ json.member "content_type" (json.appendString (ContentType meta));
          json.member "size" (itoa (Size meta)) ])%list
    = map member_text ms).
  { unfold ms. now destruct (String.eqb (ETag meta) ""),
      (String.eqb (LastModified meta) ""). }
  rewrite Hsame in Hmarshal. fold member_sep in Hmarshal.
  assert (Hdata : data = "{" ++ String json.nl
                    (JoinStrings (map member_text ms) member_sep)
                    ++ String json.nl "}")
    by (injection Hmarshal as <-; reflexivity).
  unfold json.Unmarshal. rewrite Hdata, Hparse. clear Hdata Hmarshal Hparse Hsame.
  destruct (appendString_roundtrip _ _ (le_n _) Hurl) as [_ Uurl].
  destruct (appendString_roundtrip _ _ (le_n _) Hhash) as [_ Uhash].
  destruct (appendString_roundtrip _ _ (le_n _) Hetag) as [_ Uetag].
  destruct (appendString_roundtrip _ _ (le_n _) Hlm) as [_ Ulm].
  destruct (appendString_roundtrip _ _ (le_n _) Hct) as [_ Uct].
  pose proof (parseRFC3339_format _ _ Htime Hfmt) as Utime.
  pose proof (ParseInt_itoa _ Hsize) as Usize.
  assert (Hset : json.set_members json.zero_meta (map member_value ms) = Some meta).
  { unfold ms, E.
    destruct (String.eqb (ETag meta) "") eqn:Ee;
      destruct (String.eqb (LastModified meta) "") eqn:El;
      cbn [map app]; unfold member_value; cbn [fst snd];
      set_member "url" json.FURL; rewrite Uurl;
      set_member "downloaded_at" json.FDownloadedAt; rewrite Utime;
      set_member "content_hash" json.FContentHash; rewrite Uhash;
      try (set_member "etag" json.FETag; rewrite Uetag);
      try (set_member "last_modified" json.FLastModified; rewrite Ulm);
      set_member "content_type" json.FContentType; rewrite Uct;
      set_member "size" json.FSize; rewrite Usize;
      cbn [json.set_members meta_URL DownloadedAt ContentHash ETag LastModified
             ContentType Size json.zero_meta];
      try apply String.eqb_eq in Ee; try apply String.eqb_eq in El;
      destruct meta; cbn in *; congruence. }
  now rewrite Hset.
Qed.

(** ** Metadata on disk *)

(** C9, as the claim words it, fails: a string field that is not valid
    UTF-8 is written with the replacement character in place of each
    offending byte, and that is what is read back. *)
Lemma metadata_roundtrip_fails_on_invalid_utf8 :
  ~ (forall (L : GoLib) env path meta w w1,
       SaveMetadata env path meta w = (None, w1) ->
       read_fault env path = None ->
       exists w2, @LoadMetadata L env path w1 = (Ok meta, w2)).
Proof.
  intros Hall.
  pose (env := example_env (inl "unused")).
  destruct (Hall example_lib env "/cache/documents/k.meta.json"
              invalid_utf8_meta empty_world
              (snd (SaveMetadata env "/cache/documents/k.meta.json"
                      invalid_utf8_meta empty_world)))
    as [w2 Hload].
  - vm_compute. reflexivity.
  - reflexivity.
  - vm_compute in Hload. discriminate Hload.
Qed.

(** C9 (as the code has it).  For every entry whose string fields are
    valid UTF-8, whose size is an [int64] and whose time stamp is a civil
    time with a zone offset of whole minutes, and for every path: once the
    entry is saved to the path, loading from the path gives the entry
    back, every field as it was. *)
Theorem SaveMetadata_LoadMetadata_roundtrip `{GoLib} env path meta w w1 :
  valid_meta meta = true ->
  SaveMetadata env path meta w = (None, w1) ->
  read_fault env path = None ->
  LoadMetadata env path w1 = (Ok meta, add_events w1 [EvReadFile path]).
Proof.
  intros Hvalid Hsave Hread.
  unfold SaveMetadata, os_MkdirAll, os_WriteFile in Hsave. run.
  destruct (mkdir_fault env (filepath.Dir path)); [discriminate|].
  destruct (json.MarshalIndent meta) as [data | e] eqn:Hmarshal; [|discriminate].
  simpl in Hsave.
  destruct (write_fault env path) as [[msg [k|]]|]; try discriminate.
  injection Hsave as <-.
  unfold LoadMetadata, os_ReadFile. run.
  rewrite Hread, lookup_insert_eq.
  now rewrite (Unmarshal_MarshalIndent meta data Hvalid Hmarshal).
Qed.

Lemma SaveMetadata_LoadMetadata_roundtrip_witness :
  let env := example_env (inl "unused") in
  let path := "/cache/documents/k.meta.json" in
  fst (LoadMetadata (H := example_lib) env path
         (snd (SaveMetadata env path example_meta empty_world)))
  = Ok example_meta.
Proof.
  intros env path.
  rewrite (SaveMetadata_LoadMetadata_roundtrip (H := example_lib) env path
             example_meta empty_world
             (snd (SaveMetadata env path example_meta empty_world))).
  - reflexivity.
  - vm_compute. reflexivity.
  - vm_compute. reflexivity.
  - reflexivity.
Defined.

(** * Further properties of the code *)

(** ** More on strings and paths *)

Lemma Contains_cons (c : ascii) (s sub : string) :
  Contains (String c s) sub = HasPrefix (String c s) sub || Contains s sub.
Proof. reflexivity. Qed.

Lemma HasPrefix_empty (s : string) : HasPrefix s "" = true.
Proof. now destruct s. Qed.

(** Two dots do not come about by putting a separator between strings
    that have none. *)
Lemma Contains_dotdot_sep (a b : string) :
  Contains a ".." = false -> Contains b ".." = false ->
  Contains (a ++ String "/" b) ".." = false.
Proof.
  intros Ha Hb. induction a as [|c a IH].
  - change ("" ++ String "/" b) with (String "/" b).
    rewrite Contains_cons, Hb. reflexivity.
  - rewrite append_cons, Contains_cons.
    rewrite Contains_cons in Ha. apply orb_false_elim in Ha as [Hpre Ha].
    rewrite (IH Ha), orb_false_r.
    cbn [HasPrefix] in *. destruct (Ascii.eqb "." c); [|reflexivity].
    destruct a as [|c' a]; [reflexivity|].
    rewrite append_cons. cbn [HasPrefix] in *.
    rewrite HasPrefix_empty in *. exact Hpre.
Qed.

Lemma Split_head_prefix (r : string) (x : ascii) :
  HasPrefix (List.hd "" (Split r "/")) (String x "") = true ->
  HasPrefix r (String x "") = true.
Proof.
  destruct r as [|c r]; [simpl; intros Hx; exact Hx|]. simpl.
  destruct (Ascii.eqb c "/"); [discriminate|].
  destruct (Split r "/") as [|h t]; simpl; destruct (Ascii.eqb x c); trivial;
    intros _; now destruct r.
Qed.

Lemma Split_not_nil (s : string) (sep : ascii) : Split s sep <> [].
Proof.
  destruct s as [|c s]; simpl; [discriminate|].
  destruct (Ascii.eqb c sep); [discriminate|].
  destruct (Split s sep); discriminate.
Qed.

Lemma Split_no_dotdot (s : string) :
  Contains s ".." = false ->
  List.Forall (fun e => Contains e ".." = false) (Split s "/").
Proof.
  induction s as [|c s IH]; intros Hs.
  - repeat constructor.
  - rewrite Contains_cons in Hs. apply orb_false_elim in Hs as [Hpre Hs].
    specialize (IH Hs). simpl.
    destruct (Ascii.eqb c "/"); [constructor; [reflexivity | exact IH]|].
    pose proof (Split_head_prefix s ".") as Hhd.
    pose proof (Split_not_nil s "/") as Hne.
    destruct (Split s "/") as [|h t]; [now elim Hne|]. clear Hne.
    inversion IH as [|? ? Hh Ht]; subst. constructor; [|exact Ht].
    rewrite Contains_cons, Hh, orb_false_r. simpl hd in Hhd.
    change (HasPrefix (String c h) "..")
      with (if Ascii.eqb "." c then HasPrefix h "." else false).
    change (HasPrefix (String c s) "..")
      with (if Ascii.eqb "." c then HasPrefix s "." else false) in Hpre.
    destruct (Ascii.eqb "." c); [|reflexivity].
    destruct (HasPrefix h ".") eqn:E; [|reflexivity].
    rewrite (Hhd eq_refl) in Hpre. discriminate.
Qed.

(** What [clean_step] leaves on the stack was there or is the element. *)
Lemma clean_step_Forall (P : string -> Prop) rooted out e :
  List.Forall P out -> P e -> List.Forall P (filepath.clean_step rooted out e).
Proof.
  intros Hout He. unfold filepath.clean_step.
  destruct (String.eqb e ""); [exact Hout|].
  destruct (String.eqb e "."); [exact Hout|].
  destruct (String.eqb e "..").
  - destruct out as [|top rest].
    + destruct rooted; [exact Hout | now constructor].
    + destruct (String.eqb top "..").
      * destruct rooted; [exact Hout | now constructor].
      * now inversion Hout.
  - now constructor.
Qed.

Lemma clean_fold_Forall (P : string -> Prop) rooted l out :
  List.Forall P out -> List.Forall P l ->
  List.Forall P (fold_left (filepath.clean_step rooted) l out).
Proof.
  revert out. induction l as [|e l IH]; intros out Hout Hl; [exact Hout|].
  inversion Hl; subst. simpl. apply IH; [|assumption].
  now apply clean_step_Forall.
Qed.

Lemma JoinStrings_cons2 (a b : string) (l : list string) (sep : string) :
  JoinStrings (a :: b :: l) sep = a ++ sep ++ JoinStrings (b :: l) sep.
Proof. reflexivity. Qed.

Lemma JoinStrings_no_dotdot (l : list string) :
  List.Forall (fun e => Contains e ".." = false) l ->
  Contains (JoinStrings l "/") ".." = false.
Proof.
  induction l as [|a l IH]; intros Hl; [reflexivity|].
  inversion Hl as [|? ? Ha Hl']; subst.
  destruct l as [|b l]; [exact Ha|].
  rewrite JoinStrings_cons2.
  change ("/" ++ JoinStrings (b :: l) "/") with (String "/" (JoinStrings (b :: l) "/")).
  apply Contains_dotdot_sep; [exact Ha | now apply IH].
Qed.

Lemma Clean_no_dotdot (path : string) :
  Contains path ".." = false -> Contains (filepath.Clean path) ".." = false.
Proof.
  intros Hp. unfold filepath.Clean.
  destruct (String.eqb path ""); [reflexivity|].
  set (rooted := HasPrefix path "/").
  assert (Hl : List.Forall (fun e => Contains e ".." = false)
                 (rev (fold_left (filepath.clean_step rooted)
                         (Split path filepath.Separator) []))).
  { apply Forall_rev, clean_fold_Forall; [constructor|].
    now apply Split_no_dotdot. }
  apply JoinStrings_no_dotdot in Hl.
  unfold filepath.render. destruct rooted.
  - rewrite Contains_cons, Hl. reflexivity.
  - destruct (rev _); [reflexivity | exact Hl].
Qed.

Lemma Split_elems_no_sep (s : string) :
  List.Forall (fun e => all_bytes no_sep e = true) (Split s "/").
Proof.
  induction s as [|c s IH]; [repeat constructor|]. simpl.
  destruct (Ascii.eqb c "/") eqn:E; [constructor; [reflexivity | exact IH]|].
  pose proof (Split_not_nil s "/") as Hne.
  destruct (Split s "/") as [|h t]; [now elim Hne|].
  inversion IH; subst. constructor; [|assumption].
  simpl.
  assert (no_sep c = true) as ->
      by (unfold no_sep, filepath.Separator; now rewrite E).
  assumption.
Qed.

Lemma elem_ok_dotdot : elem_ok ".." = true.
Proof. reflexivity. Qed.

Lemma all_dotdot_stack_ok (r : list string) :
  forallb (String.eqb "..") r = true -> stack_ok false r = true.
Proof.
  induction r as [|e r IH]; [reflexivity|]. cbn [forallb stack_ok].
  intros H. apply andb_prop in H as [He Hr].
  apply String.eqb_eq in He. subst e. now rewrite Hr.
Qed.

Lemma clean_step_stack_ok rooted out e :
  stack_ok rooted out = true -> all_bytes no_sep e = true ->
  stack_ok rooted (filepath.clean_step rooted out e) = true.
Proof.
  intros Hout He. unfold filepath.clean_step.
  destruct (String.eqb e "") eqn:E0; [exact Hout|].
  destruct (String.eqb e ".") eqn:E1; [exact Hout|].
  destruct (String.eqb e "..") eqn:E2.
  - apply String.eqb_eq in E2. subst e.
    destruct out as [|top rest].
    + now destruct rooted.
    + destruct (String.eqb top "..") eqn:Et.
      * destruct rooted; [exact Hout|].
        cbn [stack_ok] in Hout |- *. rewrite Et in Hout.
        apply andb_prop in Hout as [_ Hrest]. cbn [negb andb] in Hrest.
        apply String.eqb_eq in Et. subst top.
        rewrite elem_ok_dotdot, String.eqb_refl. cbn [negb andb forallb].
        now rewrite String.eqb_refl, Hrest.
      * cbn [stack_ok] in Hout. rewrite Et in Hout.
        now apply andb_prop in Hout as [_ Hrest].
  - cbn [stack_ok]. rewrite E2, Hout. unfold elem_ok. now rewrite E0, E1, He.
Qed.

Lemma clean_fold_stack_ok rooted l out :
  stack_ok rooted out = true ->
  List.Forall (fun e => all_bytes no_sep e = true) l ->
  stack_ok rooted (fold_left (filepath.clean_step rooted) l out) = true.
Proof.
  revert out. induction l as [|e l IH]; intros out Hout Hl; [exact Hout|].
  inversion Hl; subst. simpl. apply IH; [|assumption].
  now apply clean_step_stack_ok.
Qed.

Lemma stack_ok_tail rooted e r :
  stack_ok rooted (e :: r) = true -> stack_ok rooted r = true.
Proof.
  cbn [stack_ok]. intros H. apply andb_prop in H as [_ H].
  destruct (String.eqb e ".."); [|exact H].
  apply andb_prop in H as [Hr H]. destruct rooted; [discriminate|].
  now apply all_dotdot_stack_ok.
Qed.

Lemma stack_ok_elems rooted out :
  stack_ok rooted out = true -> List.Forall (fun e => elem_ok e = true) out.
Proof.
  induction out as [|e r IH]; [constructor|]. intros H.
  constructor; [|apply IH; eapply stack_ok_tail; eassumption].
  cbn [stack_ok] in H. now apply andb_prop in H as [H _].
Qed.

(** Cleaning again what [Clean] has left changes nothing. *)
Lemma clean_fold_rev rooted out :
  stack_ok rooted out = true ->
  fold_left (filepath.clean_step rooted) (rev out) [] = out.
Proof.
  induction out as [|e r IH]; [reflexivity|]. intros H.
  cbn [rev]. rewrite fold_left_app. cbn [fold_left].
  rewrite IH by (eapply stack_ok_tail; eassumption).
  cbn [stack_ok] in H. apply andb_prop in H as [He H].
  unfold elem_ok in He. apply andb_prop in He as [He _].
  apply andb_prop in He as [E0 E1].
  apply negb_true_iff in E0, E1.
  unfold filepath.clean_step. rewrite E0, E1.
  destruct (String.eqb e "..") eqn:E2; [|reflexivity].
  apply andb_prop in H as [Hr H]. apply negb_true_iff in Hr. subst rooted.
  destruct r as [|top rest]; [reflexivity|].
  cbn [forallb] in H. apply andb_prop in H as [Ht _].
  rewrite String.eqb_sym in Ht. now rewrite Ht.
Qed.

Lemma Split_JoinStrings (l : list string) :
  l <> [] -> List.Forall (fun e => all_bytes no_sep e = true) l ->
  Split (JoinStrings l "/") "/" = l.
Proof.
  induction l as [|a l IH]; [congruence|]. intros _ Hl.
  inversion Hl as [|? ? Ha Hl']; subst.
  destruct l as [|b l]; [now apply Split_no_sep|].
  rewrite JoinStrings_cons2.
  change ("/" ++ JoinStrings (b :: l) "/") with (String "/" (JoinStrings (b :: l) "/")).
  rewrite Split_app_sep, (Split_no_sep a) by exact Ha.
  rewrite IH by (try discriminate; assumption). reflexivity.
Qed.

Lemma elem_ok_no_sep (e : string) : elem_ok e = true -> all_bytes no_sep e = true.
Proof. unfold elem_ok. intros H. now apply andb_prop in H as [_ H]. Qed.

Lemma elem_ok_head (e : string) :
  elem_ok e = true -> exists c r, e = String c r /\ no_sep c = true.
Proof.
  unfold elem_ok. destruct e as [|c r]; [discriminate|].
  intros H. apply andb_prop in H as [_ H]. simpl in H.
  apply andb_prop in H as [H _]. now exists c, r.
Qed.

Lemma JoinStrings_head (a : string) (l : list string) c r :
  a = String c r -> exists r', JoinStrings (a :: l) "/" = String c r'.
Proof.
  intros ->. destruct l as [|b l]; [now exists r|].
  rewrite JoinStrings_cons2, append_cons. eauto.
Qed.

Lemma Clean_rooted_unfold (J : string) :
  filepath.Clean (String "/" J)
  = filepath.render true
      (rev (fold_left (filepath.clean_step true) (Split J "/") [])).
Proof.
  unfold filepath.Clean.
  change (String.eqb (String "/" J) "") with false. cbv iota.
  assert (HasPrefix (String "/" J) "/" = true) as ->
      by (cbn [HasPrefix]; apply HasPrefix_empty).
  change (Split (String "/" J) filepath.Separator) with ("" :: Split J "/").
  reflexivity.
Qed.

Lemma Clean_relative_unfold (c : ascii) (r : string) :
  no_sep c = true ->
  filepath.Clean (String c r)
  = filepath.render false
      (rev (fold_left (filepath.clean_step false) (Split (String c r) "/") [])).
Proof.
  intros Hc. unfold filepath.Clean.
  change (String.eqb (String c r) "") with false. cbv iota.
  assert (HasPrefix (String c r) "/" = false) as ->; [|reflexivity].
  cbn [HasPrefix]. unfold no_sep, filepath.Separator in Hc.
  apply negb_true_iff in Hc. now rewrite Ascii.eqb_sym, Hc.
Qed.

(** The rendering of a stack the cleaning has left, and its cleaning. *)
Lemma Clean_render rooted out :
  stack_ok rooted out = true ->
  filepath.Clean (filepath.render rooted (rev out)) = filepath.render rooted (rev out).
Proof.
  intros Hok.
  pose proof (stack_ok_elems _ _ Hok) as Helems.
  assert (Hsep : List.Forall (fun e => all_bytes no_sep e = true) (rev out)).
  { apply List.Forall_rev. eapply List.Forall_impl; [|exact Helems].
    intros e. apply elem_ok_no_sep. }
  assert (Hrev : List.Forall (fun e => elem_ok e = true) (rev out))
    by now apply List.Forall_rev.
  destruct rooted.
  - unfold filepath.render at 1. unfold filepath.Separator.
    rewrite Clean_rooted_unfold.
    destruct (rev out) as [|a l] eqn:E; [reflexivity|].
    rewrite Split_JoinStrings by (try discriminate; assumption).
    rewrite <- E, clean_fold_rev by assumption. reflexivity.
  - unfold filepath.render at 1.
    destruct (rev out) as [|a l] eqn:E; [reflexivity|].
    inversion Hrev as [|? ? Ha _]; subst.
    destruct (elem_ok_head _ Ha) as (c & r & Hc & Hcs).
    destruct (JoinStrings_head a l c r Hc) as [r' Hj].
    rewrite Hj, Clean_relative_unfold by exact Hcs.
    rewrite <- Hj, Split_JoinStrings by (try discriminate; assumption).
    rewrite <- E, clean_fold_rev by assumption. reflexivity.
Qed.

Lemma Clean_stack (path : string) :
  path <> "" ->
  let rooted := HasPrefix path "/" in
  exists out, stack_ok rooted out = true
              /\ filepath.Clean path = filepath.render rooted (rev out).
Proof.
  intros Hne rooted.
  exists (fold_left (filepath.clean_step rooted) (Split path filepath.Separator) []).
  split.
  - apply clean_fold_stack_ok; [reflexivity | apply Split_elems_no_sep].
  - unfold filepath.Clean. apply String.eqb_neq in Hne. now rewrite Hne.
Qed.

Lemma Clean_idempotent (path : string) :
  filepath.Clean (filepath.Clean path) = filepath.Clean path.
Proof.
  destruct (String.eqb path "") eqn:E.
  - apply String.eqb_eq in E. subst. reflexivity.
  - apply String.eqb_neq in E. destruct (Clean_stack path E) as (out & Hok & ->).
    now apply Clean_render.
Qed.

Lemma render_not_empty rooted out :
  stack_ok rooted out = true -> filepath.render rooted (rev out) <> "".
Proof.
  intros Hok. unfold filepath.render. destruct rooted; [discriminate|].
  destruct (rev out) as [|a l] eqn:E; [discriminate|].
  pose proof (stack_ok_elems _ _ Hok) as Helems.
  apply List.Forall_rev in Helems. rewrite E in Helems.
  inversion Helems as [|? ? Ha _]; subst.
  destruct (elem_ok_head _ Ha) as (c & r & Hc & _).
  destruct (JoinStrings_head a l c r Hc) as [r' ->]. discriminate.
Qed.

Lemma Clean_not_empty (path : string) : filepath.Clean path <> "".
Proof.
  destruct (String.eqb path "") eqn:E.
  - apply String.eqb_eq in E. subst. discriminate.
  - apply String.eqb_neq in E. destruct (Clean_stack path E) as (out & Hok & ->).
    now apply render_not_empty.
Qed.

Lemma Clean_rooted (path : string) :
  HasPrefix (filepath.Clean path) "/" = HasPrefix path "/".
Proof.
  destruct (String.eqb path "") eqn:E.
  - apply String.eqb_eq in E. subst. reflexivity.
  - apply String.eqb_neq in E. destruct (Clean_stack path E) as (out & Hok & ->).
    unfold filepath.render. destruct (HasPrefix path "/") eqn:R;
      [cbn [HasPrefix]; apply HasPrefix_empty|].
    destruct (rev out) as [|a l] eqn:Er; [reflexivity|].
    pose proof (stack_ok_elems _ _ Hok) as Helems.
    apply List.Forall_rev in Helems. rewrite Er in Helems.
    inversion Helems as [|? ? Ha _]; subst.
    destruct (elem_ok_head _ Ha) as (c & r & Hc & Hcs).
    destruct (JoinStrings_head a l c r Hc) as [r' ->]. cbn [HasPrefix].
    unfold no_sep, filepath.Separator in Hcs. apply negb_true_iff in Hcs.
    rewrite Ascii.eqb_sym, Hcs. reflexivity.
Qed.

Lemma name_ok_elem (x : string) :
  name_ok x = true ->
  String.eqb x "" = false /\ String.eqb x "." = false
  /\ String.eqb x ".." = false /\ all_bytes no_sep x = true.
Proof.
  unfold name_ok, elem_ok. intros H.
  apply andb_prop in H as [H H2]. apply andb_prop in H as [H Hs].
  apply andb_prop in H as [H0 H1].
  apply negb_true_iff in H0, H1, H2. auto.
Qed.

(** A name put after a directory: the directory is cleaned, the name
    stays. *)
Lemma Clean_append_name (P x : string) :
  P <> "" -> name_ok x = true ->
  filepath.Clean (P ++ "/" ++ x) = clean_prefix P ++ x.
Proof.
  intros HP Hx. destruct (name_ok_elem x Hx) as (E0 & E1 & E2 & Hsep).
  unfold filepath.Clean, clean_prefix.
  assert (String.eqb (P ++ "/" ++ x) "" = false) as ->.
  { destruct P; [congruence|]. now rewrite append_cons. }
  rewrite HasPrefix_app by assumption.
  change ("/" ++ x) with (String filepath.Separator x).
  rewrite Split_app_sep, (Split_no_sep x) by exact Hsep.
  rewrite fold_left_app. cbn [fold_left].
  set (st := fold_left _ _ _).
  unfold filepath.clean_step at 1. rewrite E0, E1, E2.
  cbn [rev]. unfold filepath.render.
  rewrite JoinStrings_snoc.
  destruct (HasPrefix P "/").
  - rewrite append_assoc. reflexivity.
  - destruct (rev st) eqn:E; reflexivity.
Qed.

Lemma HasPrefix_append (p x : string) : HasPrefix (p ++ x) p = true.
Proof.
  induction p as [|c p IH]; [apply HasPrefix_empty|].
  rewrite append_cons. cbn [HasPrefix]. now rewrite Ascii.eqb_refl.
Qed.

Lemma HasPrefix_trans (a b c : string) :
  HasPrefix a b = true -> HasPrefix b c = true -> HasPrefix a c = true.
Proof.
  revert a b. induction c as [|x c IH]; intros a b Hab Hbc;
    [apply HasPrefix_empty|].
  destruct b as [|y b]; [discriminate|]. destruct a as [|z a]; [discriminate|].
  cbn [HasPrefix] in *.
  destruct (Ascii.eqb x y) eqn:Exy; [|discriminate].
  destruct (Ascii.eqb y z) eqn:Eyz; [|discriminate].
  apply Ascii.eqb_eq in Exy, Eyz. subst. rewrite Ascii.eqb_refl.
  eapply IH; eassumption.
Qed.

Lemma JoinStrings_elems_not_empty (l : list string) :
  l <> [] -> List.Forall (fun e => elem_ok e = true) l ->
  JoinStrings l "/" <> "".
Proof.
  destruct l as [|a l]; [congruence|]. intros _ Hl.
  inversion Hl as [|? ? Ha _]; subst.
  destruct (elem_ok_head _ Ha) as (c & r & Hc & _).
  destruct (JoinStrings_head a l c r Hc) as [r' ->]. discriminate.
Qed.

(** The prefix that stands for a clean absolute directory. *)
Lemma clean_prefix_of_clean (p : string) :
  filepath.IsAbs p = true -> filepath.Clean p = p ->
  (p = "/" /\ clean_prefix p = "/") \/ (p <> "/" /\ clean_prefix p = p ++ "/").
Proof.
  unfold filepath.IsAbs. intros Habs Hclean.
  unfold clean_prefix. unfold filepath.Clean in Hclean.
  destruct (String.eqb p "") eqn:E0.
  { apply String.eqb_eq in E0. subst. discriminate. }
  rewrite Habs in *. unfold filepath.render in Hclean.
  set (out := fold_left _ _ _) in *.
  assert (Hok : stack_ok true out = true)
    by (apply clean_fold_stack_ok; [reflexivity | apply Split_elems_no_sep]).
  destruct (rev out) as [|a l] eqn:E.
  - left. now rewrite <- Hclean.
  - right. split.
    + intros ->. 
      assert (Hne : JoinStrings (a :: l) "/" <> "").
      { apply JoinStrings_elems_not_empty; [discriminate|].
        rewrite <- E. apply List.Forall_rev. now apply (stack_ok_elems true). }
      destruct (JoinStrings (a :: l) "/"); [congruence | discriminate].
    + rewrite <- Hclean. unfold filepath.Separator. reflexivity.
Qed.

Lemma Join2 (p x : string) :
  p <> "" -> filepath.Join [p; x] = filepath.Clean (p ++ "/" ++ x).
Proof.
  intros Hp.
  change (filepath.Join [p; x])
    with (if String.eqb p "" then filepath.Join [x]
          else filepath.Clean (JoinStrings [p; x] "/")).
  apply String.eqb_neq in Hp. now rewrite Hp.
Qed.

(** An entry of a clean absolute directory: its path is the directory,
    a separator and the name, and is clean and absolute again. *)
Lemma Join_entry (p x : string) :
  filepath.IsAbs p = true -> filepath.Clean p = p -> name_ok x = true ->
  filepath.Join [p; x] = (if String.eqb p "/" then "/" ++ x else p ++ "/" ++ x)
  /\ HasPrefix (filepath.Join [p; x]) p = true
  /\ filepath.IsAbs (filepath.Join [p; x]) = true
  /\ filepath.Clean (filepath.Join [p; x]) = filepath.Join [p; x].
Proof.
  intros Habs Hclean Hx. set (q := filepath.Join [p; x]).
  assert (Hne : p <> "") by (intros ->; discriminate).
  assert (Hq : q = filepath.Clean (p ++ "/" ++ x)) by now apply Join2.
  assert (Hshape : q = (if String.eqb p "/" then "/" ++ x else p ++ "/" ++ x)).
  { rewrite Hq, Clean_append_name by assumption.
    destruct (clean_prefix_of_clean p Habs Hclean) as [[-> ->] | [Hp ->]].
    - reflexivity.
    - apply String.eqb_neq in Hp. rewrite Hp. now rewrite append_assoc. }
  split; [exact Hshape|]. split; [|split].
  - rewrite Hshape. destruct (String.eqb p "/") eqn:E.
    + apply String.eqb_eq in E. subst p. apply HasPrefix_append.
    + apply HasPrefix_append.
  - unfold filepath.IsAbs in *. rewrite Hq, Clean_rooted.
    now rewrite HasPrefix_app.
  - rewrite Hq. apply Clean_idempotent.
Qed.

Lemma Abs_absolute (getwd : string + string) (path p : string) :
  absolute_wd getwd = true \/ filepath.IsAbs path = true ->
  filepath.Abs getwd path = inr p ->
  filepath.IsAbs p = true /\ filepath.Clean p = p.
Proof.
  unfold filepath.Abs. intros H.
  destruct (filepath.IsAbs path) eqn:Ep.
  - intros [= <-]. split; [|apply Clean_idempotent].
    unfold filepath.IsAbs in *. now rewrite Clean_rooted.
  - destruct H as [Hwd | H]; [|discriminate].
    destruct getwd as [msg|wd]; [discriminate|]. intros [= <-].
    cbn [absolute_wd] in Hwd.
    assert (Hne : wd <> "") by (intros ->; discriminate).
    rewrite Join2 by assumption. split; [|apply Clean_idempotent].
    unfold filepath.IsAbs in *. rewrite Clean_rooted.
    now rewrite HasPrefix_app.
Qed.

Lemma Abs_of_absolute (getwd : string + string) (p : string) :
  filepath.IsAbs p = true -> filepath.Clean p = p ->
  filepath.Abs getwd p = inr p.
Proof. intros Habs Hclean. unfold filepath.Abs. now rewrite Habs, Hclean. Qed.

Lemma Abs_idempotent (getwd : string + string) (path p : string) :
  absolute_wd getwd = true \/ filepath.IsAbs path = true ->
  filepath.Abs getwd path = inr p ->
  filepath.Abs getwd p = inr p.
Proof.
  intros H Hp. destruct (Abs_absolute getwd path p H Hp) as [Habs Hclean].
  now apply Abs_of_absolute.
Qed.

Lemma Abs_fails (getwd : string + string) (path msg : string) :
  filepath.Abs getwd path = inl msg
  <-> filepath.IsAbs path = false /\ getwd = inl msg.
Proof.
  unfold filepath.Abs. destruct (filepath.IsAbs path).
  - split; [discriminate | now intros [? _]].
  - destruct getwd as [m|wd].
    + split; [now intros [= ->] | now intros [_ [= ->]]].
    + split; [discriminate | now intros [_ ?]].
Qed.

Lemma Contains_byte_absent (s : string) (c : ascii) :
  all_bytes (fun x => negb (Ascii.eqb x c)) s = true ->
  Contains s (String c "") = false.
Proof.
  induction s as [|x s IH]; [reflexivity|]. simpl all_bytes.
  intros H. apply andb_prop in H as [Hx Hs].
  rewrite Contains_cons, (IH Hs), orb_false_r. cbn [HasPrefix].
  apply negb_true_iff in Hx. rewrite Ascii.eqb_sym, Hx. reflexivity.
Qed.

Lemma Contains_byte_present (a b : string) (c : ascii) :
  Contains (a ++ String c b) (String c "") = true.
Proof.
  induction a as [|x a IH].
  - change ("" ++ String c b) with (String c b).
    rewrite Contains_cons. cbn [HasPrefix].
    now rewrite Ascii.eqb_refl, HasPrefix_empty.
  - rewrite append_cons, Contains_cons, IH. apply orb_true_r.
Qed.

Lemma upto_last_sep_none (x : string) :
  all_bytes no_sep x = true -> filepath.upto_last_sep x = "".
Proof.
  intros Hx. destruct x as [|c x]; [reflexivity|].
  cbn [filepath.upto_last_sep].
  now rewrite (Contains_byte_absent (String c x) "/" Hx).
Qed.

Lemma upto_last_sep_app (a x : string) :
  all_bytes no_sep x = true ->
  filepath.upto_last_sep (a ++ String "/" x) = a ++ "/".
Proof.
  intros Hx. induction a as [|c a IH].
  - change ("" ++ String "/" x) with (String "/" x).
    cbn [filepath.upto_last_sep].
    assert (Contains (String "/" x) "/" = true) as ->
        by apply (Contains_byte_present "" x "/").
    now rewrite upto_last_sep_none.
  - rewrite !append_cons. cbn [filepath.upto_last_sep].
    assert (Contains (String c (a ++ String "/" x)) "/" = true) as ->
        by apply (Contains_byte_present (String c a) x "/").
    now rewrite IH.
Qed.

(** The directory part of a path made by [clean_prefix], cleaned, is the
    directory cleaned. *)
Lemma Clean_clean_prefix (P : string) :
  P <> "" -> filepath.Clean (clean_prefix P) = filepath.Clean P.
Proof.
  intros HP. unfold clean_prefix.
  unfold filepath.Clean at 2. apply String.eqb_neq in HP. rewrite HP.
  set (rooted := HasPrefix P "/").
  set (out := fold_left (filepath.clean_step rooted) (Split P filepath.Separator) []).
  assert (Hok : stack_ok rooted out = true)
    by (apply clean_fold_stack_ok; [reflexivity | apply Split_elems_no_sep]).
  pose proof (stack_ok_elems _ _ Hok) as Helems.
  apply List.Forall_rev in Helems.
  assert (Hsep : List.Forall (fun e => all_bytes no_sep e = true) (rev out)).
  { eapply List.Forall_impl; [|exact Helems]. intros e. apply elem_ok_no_sep. }
  assert (Hfold : forall a l, rev out = a :: l ->
            fold_left (filepath.clean_step rooted)
              (Split (JoinStrings (a :: l) "/" ++ String "/" "") "/") [] = out).
  { intros a l E. rewrite Split_app_sep, <- E.
    rewrite Split_JoinStrings by (try assumption; rewrite E; discriminate).
    rewrite fold_left_app, clean_fold_rev by assumption. reflexivity. }
  destruct rooted.
  - change ("/" ++ ?x) with (String "/" x). rewrite Clean_rooted_unfold.
    destruct (rev out) as [|a l] eqn:E; [reflexivity|].
    rewrite (Hfold a l eq_refl), E. reflexivity.
  - change ("" ++ ?x) with x.
    destruct (rev out) as [|a l] eqn:E; [reflexivity|].
    inversion Helems as [|? ? Ha _]; subst.
    destruct (elem_ok_head _ Ha) as (c & r & Hc & Hcs).
    destruct (JoinStrings_head a l c r Hc) as [r' Hj].
    assert (Hj' : JoinStrings (a :: l) "/" ++ "/" = String c (r' ++ "/"))
      by now rewrite Hj.
    rewrite Hj', Clean_relative_unfold by exact Hcs.
    rewrite <- Hj'. change "/" with (String "/" "") at 1.
    rewrite (Hfold a l eq_refl), E. reflexivity.
Qed.

Lemma Dir_clean_prefix (P x : string) :
  P <> "" -> all_bytes no_sep x = true ->
  filepath.Dir (clean_prefix P ++ x) = filepath.Clean P.
Proof.
  intros HP Hx. unfold filepath.Dir.
  rewrite <- (Clean_clean_prefix P HP). f_equal.
  unfold clean_prefix.
  destruct (HasPrefix P "/");
    destruct (rev _) as [|a l].
  - change (("/" ++ "") ++ x) with ("" ++ String "/" x).
    now rewrite upto_last_sep_app.
  - change ("/" ++ ?y) with (String "/" y).
    rewrite append_cons, append_assoc.
    change ("/" ++ x) with (String "/" x).
    rewrite <- append_cons, upto_last_sep_app by exact Hx. reflexivity.
  - change (("" ++ "") ++ x) with x. now apply upto_last_sep_none.
  - change ("" ++ ?y) with y. rewrite append_assoc.
    change ("/" ++ x) with (String "/" x).
    now rewrite upto_last_sep_app.
Qed.

Lemma cache_documents_dir_not_empty (cacheDir : string) :
  cache_documents_dir cacheDir <> "".
Proof.
  unfold cache_documents_dir. destruct cacheDir; discriminate.
Qed.

Lemma Join_documents (cacheDir : string) :
  filepath.Join [cacheDir; "documents"]
  = filepath.Clean (cache_documents_dir cacheDir).
Proof.
  unfold cache_documents_dir.
  destruct (String.eqb cacheDir "") eqn:E.
  - apply String.eqb_eq in E. subst. reflexivity.
  - apply String.eqb_neq in E. now apply Join2.
Qed.

(** [filepath.Ext] of a path that ends in a dot and an extension. *)
Lemma Ext_append (a rest : string) :
  all_bytes no_sep rest = true -> all_bytes no_dot rest = true ->
  filepath.Ext (a ++ String "." rest) = String "." rest.
Proof.
  intros Hsep Hdot. induction a as [|c a IH].
  - change ("" ++ String "." rest) with (String "." rest).
    cbn [filepath.Ext].
    rewrite (Contains_byte_absent rest "/" Hsep),
      (Contains_byte_absent rest "." Hdot). reflexivity.
  - rewrite append_cons. cbn [filepath.Ext].
    rewrite (Contains_byte_present a rest "."), orb_true_r. exact IH.
Qed.

Lemma append_inv_same_length (a b c d : string) :
  String.length a = String.length b -> a ++ c = b ++ d -> a = b /\ c = d.
Proof.
  revert b. induction a as [|x a IH]; intros [|y b] Hl E; try discriminate.
  - auto.
  - rewrite !append_cons in E. injection E as -> E. injection Hl as Hl.
    destruct (IH b Hl E) as [-> ->]. auto.
Qed.

(** X1.  [ValidatePath] accepts a path exactly when the path as given has
    no two dots in a row: cleaning a path brings in no dots, so the check
    of the cleaned path refuses nothing the first check lets through.  A
    name that merely contains two dots is refused as well. *)
Theorem ValidatePath_accepts_iff_no_dotdot (path : string) :
  (ValidatePath path = None <-> Contains path ".." = false)
  /\ (forall e, ValidatePath path = Some e
                <-> Contains path ".." = true /\ e = ErrPathTraversal path)
  /\ ValidatePath "notes..txt" = Some (ErrPathTraversal "notes..txt").
Proof.
  unfold ValidatePath.
  destruct (Contains path "..") eqn:E.
  - repeat split; try discriminate; try congruence.
    + now intros [_ ->].
  - rewrite (Clean_no_dotdot path E).
    repeat split; try discriminate; try congruence.
    now intros [? _].
Qed.

(** X2.  The document file and a metadata file of one cache directory are
    never the same file, whatever the two URLs; two URLs share a document
    file, or a metadata file, exactly when they have the same cache key. *)
Theorem cache_paths_distinct (cacheDir url1 url2 : string) :
  GetCachedDocumentPath cacheDir url1 <> GetCachedMetadataPath cacheDir url2
  /\ (GetCachedDocumentPath cacheDir url1 = GetCachedDocumentPath cacheDir url2
      <-> hashURL url1 = hashURL url2)
  /\ (GetCachedMetadataPath cacheDir url1 = GetCachedMetadataPath cacheDir url2
      <-> hashURL url1 = hashURL url2).
Proof.
  unfold GetCachedDocumentPath, GetCachedMetadataPath.
  rewrite !cached_path_shape by reflexivity.
  assert (Hl : String.length (hashURL url1) = String.length (hashURL url2))
    by now rewrite !hashURL_length.
  split; [|split; split].
  - intros E. apply append_inv_head in E.
    now destruct (append_inv_same_length _ _ _ _ Hl E).
  - intros E. apply append_inv_head in E.
    now destruct (append_inv_same_length _ _ _ _ Hl E).
  - now intros ->.
  - intros E. apply append_inv_head in E.
    now destruct (append_inv_same_length _ _ _ _ Hl E).
  - now intros ->.
Qed.

(** X3.  The document file and the metadata file of a URL lie in one
    directory, [documents] under the cache directory: that is the
    directory [Download] and [SaveMetadata] create before they write. *)
Theorem cache_files_share_directory (cacheDir url : string) :
  filepath.Dir (GetCachedDocumentPath cacheDir url)
  = filepath.Join [cacheDir; "documents"]
  /\ filepath.Dir (GetCachedMetadataPath cacheDir url)
     = filepath.Join [cacheDir; "documents"].
Proof.
  unfold GetCachedDocumentPath, GetCachedMetadataPath.
  rewrite !cached_path_shape, Join_documents by reflexivity.
  split; apply Dir_clean_prefix;
    try apply cache_documents_dir_not_empty;
    now apply cache_file_name.
Qed.

(** X4.  Both files of a cache entry carry an extension of the scanner's
    list: [.txt] for the document, [.json] for the metadata; so
    [IsTextFile] holds of the path a download returns, and of the
    metadata file beside it. *)
Theorem cache_files_are_text_files `{GoLib} (cacheDir url : string) :
  filepath.Ext (GetCachedDocumentPath cacheDir url) = ".txt"
  /\ IsTextFile (GetCachedDocumentPath cacheDir url) = true
  /\ filepath.Ext (GetCachedMetadataPath cacheDir url) = ".json"
  /\ IsTextFile (GetCachedMetadataPath cacheDir url) = true.
Proof.
  unfold IsTextFile, GetCachedDocumentPath, GetCachedMetadataPath.
  rewrite !cached_path_shape by reflexivity.
  assert (E1 : filepath.Ext (clean_prefix (cache_documents_dir cacheDir)
                             ++ hashURL url ++ documentExt) = ".txt").
  { rewrite <- append_assoc. apply (Ext_append _ "txt"); reflexivity. }
  assert (E2 : filepath.Ext (clean_prefix (cache_documents_dir cacheDir)
                             ++ hashURL url ++ metadataExt) = ".json").
  { change metadataExt with (".meta" ++ String "." "json").
    rewrite <- !append_assoc. apply (Ext_append _ "json"); reflexivity. }
  rewrite E1, E2. repeat split; reflexivity.
Qed.

(** ** What a fetch returns *)

Lemma substring_all (k : nat) (s : string) :
  (String.length s <= k)%nat -> String.substring 0 k s = s.
Proof.
  revert k. induction s as [|c s IH]; intros [|k] Hk; simpl in *;
    try reflexivity; try lia.
  now rewrite IH by lia.
Qed.

Lemma downloadWithValidation_ok `{GoLib} env d url w content meta w' :
  let req := {| Method := "GET"; ReqURL := url; ReqHeader := ∅ |} in
  let n := wrap64 (MaxSize (config d) + 1) in
  downloadWithValidation env d url w = (Ok (content, meta), w') ->
  exists resp,
    http_Do env req = inr resp
    /\ StatusCode resp = 200
    /\ isTextContentType (Header_Get (RespHeader resp) "Content-Type") = true
    /\ ContentLength resp <= MaxSize (config d)
    /\ content = String.substring 0 (Z.to_nat n) (Body resp)
    /\ len content <= MaxSize (config d)
    /\ (0 < n -> len (Body resp) < n -> BodyErr resp = None)
    /\ meta = {| meta_URL := url;
                 DownloadedAt := now env;
                 ContentHash := ComputeContentHash content;
                 ETag := Header_Get (RespHeader resp) "ETag";
                 LastModified := Header_Get (RespHeader resp) "Last-Modified";
                 ContentType := Header_Get (RespHeader resp) "Content-Type";
                 Size := len content |}
    /\ w' = add_events w [EvHTTP req; EvBodyRead (len content)].
Proof.
  intros req n. unfold downloadWithValidation, NewRequest, http_Client_Do,
    ReadAll_LimitReader. fold n.
  run. destruct (url_Parse url) as [msg|u]; [discriminate|]. simpl. fold req.
  destruct (http_Do env req) as [msg|resp]; [discriminate|]. simpl.
  destruct (StatusCode resp =? 200) eqn:Est; [|discriminate]. simpl.
  destruct (isTextContentType _) eqn:Etext; [|discriminate]. simpl.
  destruct (ContentLength resp >? MaxSize (config d)) eqn:Edecl; [discriminate|].
  rewrite Z.gtb_ltb in Edecl. apply Z.ltb_ge in Edecl. apply Z.eqb_eq in Est.
  intros Hrun. exists resp.
  destruct (n <=? 0) eqn:En; simpl in Hrun.
  - apply Z.leb_le in En.
    destruct (len "" >? MaxSize (config d)) eqn:Epost; [discriminate|].
    rewrite Z.gtb_ltb in Epost. apply Z.ltb_ge in Epost.
    injection Hrun as <- <- <-.
    replace (Z.to_nat n) with O by lia.
    assert (String.substring 0 0 (Body resp) = "") as -> by now destruct (Body resp).
    repeat split; try assumption; try reflexivity; try lia.
    unfold add_events. simpl. now rewrite <- app_assoc.
  - apply Z.leb_gt in En.
    set (got := String.substring 0 (Z.to_nat n) (Body resp)) in *.
    destruct (len (Body resp) <? n) eqn:Eshort.
    + destruct (BodyErr resp) as [msg|] eqn:Eerr; [discriminate|].
      simpl in Hrun.
      destruct (len got >? MaxSize (config d)) eqn:Epost; [discriminate|].
      rewrite Z.gtb_ltb in Epost. apply Z.ltb_ge in Epost.
      injection Hrun as <- <- <-.
      repeat split; try assumption; try reflexivity.
      unfold add_events. simpl. now rewrite <- app_assoc.
    + apply Z.ltb_ge in Eshort. simpl in Hrun.
      destruct (len got >? MaxSize (config d)) eqn:Epost; [discriminate|].
      rewrite Z.gtb_ltb in Epost. apply Z.ltb_ge in Epost.
      injection Hrun as <- <- <-.
      repeat split; try assumption; try reflexivity; try lia.
      unfold add_events. simpl. now rewrite <- app_assoc.
Qed.

(** X5.  With a limit below the largest [int64], a fetch that succeeds
    has read the body to its end and without a transfer error: the content
    is the whole body, it is no longer than the limit, and the metadata
    carries the URL, the time of the clock, the hash and the length of
    this content and the three headers of the response.  No file is
    touched. *)
Theorem downloadWithValidation_returns_whole_body `{GoLib}
    env d url w content meta w' :
  0 < MaxSize (config d) < MaxInt64 ->
  downloadWithValidation env d url w = (Ok (content, meta), w') ->
  exists resp,
    http_Do env {| Method := "GET"; ReqURL := url; ReqHeader := ∅ |} = inr resp
    /\ StatusCode resp = 200
    /\ content = Body resp
    /\ BodyErr resp = None
    /\ len content <= MaxSize (config d)
    /\ meta_URL meta = url
    /\ DownloadedAt meta = now env
    /\ ContentHash meta = ComputeContentHash content
    /\ Size meta = len content
    /\ ETag meta = Header_Get (RespHeader resp) "ETag"
    /\ LastModified meta = Header_Get (RespHeader resp) "Last-Modified"
    /\ ContentType meta = Header_Get (RespHeader resp) "Content-Type"
    /\ isTextContentType (ContentType meta) = true
    /\ files w' = files w.
Proof.
  intros HL Hrun.
  destruct (downloadWithValidation_ok _ _ _ _ _ _ _ Hrun)
    as (resp & Hdo & Hst & Htext & Hdecl & Hcontent & Hle & Herr & Hmeta & Hw).
  rewrite wrap64_small in * by (unfold MaxInt64 in *; lia).
  assert (Hlen : len (Body resp) <= MaxSize (config d)).
  { rewrite Hcontent in Hle. unfold len in *. rewrite substring_length in Hle. lia. }
  assert (Hall : content = Body resp).
  { rewrite Hcontent. apply substring_all. unfold len in Hlen. lia. }
  exists resp. subst meta w'. simpl.
  repeat split; try assumption; try reflexivity.
  apply Herr; lia.
Qed.

Lemma downloadWithValidation_returns_whole_body_witness :
  exists resp,
    http_Do (example_env (inr (example_response 200 "text/plain" 5 "hello")))
      {| Method := "GET"; ReqURL := example_url; ReqHeader := ∅ |} = inr resp
    /\ "hello" = Body resp.
Proof.
  pose (env := example_env (inr (example_response 200 "text/plain" 5 "hello"))).
  pose (run := downloadWithValidation (H := example_lib) env
                 (example_downloader 1024) example_url empty_world).
  destruct (downloadWithValidation_returns_whole_body (H := example_lib) env
              (example_downloader 1024) example_url empty_world "hello"
              {| meta_URL := example_url; DownloadedAt := example_time;
                 ContentHash := ComputeContentHash "hello"; ETag := "v1";
                 LastModified := ""; ContentType := "text/plain"; Size := 5 |}
              (snd run))
    as (resp & Hdo & _ & Hbody & _).
  - vm_compute. split; reflexivity.
  - vm_compute. reflexivity.
  - exists resp. split; assumption.
Defined.

(** X6.  With the limit at the largest [int64] the sum [MaxSize + 1] wraps
    around to a negative count: nothing of the body is read, and every
    response with status 200 and a text content type yields an empty
    content, of size 0, whatever the body holds. *)
Theorem downloadWithValidation_limit_overflow `{GoLib} env d url w resp :
  let req := {| Method := "GET"; ReqURL := url; ReqHeader := ∅ |} in
  MaxSize (config d) = MaxInt64 ->
  validateURL url = None ->
  http_Do env req = inr resp ->
  StatusCode resp = 200 ->
  isTextContentType (Header_Get (RespHeader resp) "Content-Type") = true ->
  ContentLength resp <= MaxInt64 ->
  downloadWithValidation env d url w
  = (Ok ("", {| meta_URL := url;
                DownloadedAt := now env;
                ContentHash := ComputeContentHash "";
                ETag := Header_Get (RespHeader resp) "ETag";
                LastModified := Header_Get (RespHeader resp) "Last-Modified";
                ContentType := Header_Get (RespHeader resp) "Content-Type";
                Size := 0 |}),
     add_events w [EvHTTP req; EvBodyRead 0]).
Proof.
  intros req HL Hurl Hdo Hst Htext Hdecl.
  destruct (validateURL_parses url Hurl) as [u Hparse].
  unfold downloadWithValidation, NewRequest, http_Client_Do, ReadAll_LimitReader.
  run. rewrite Hparse. simpl. fold req. rewrite Hdo, Hst, Htext, HL. simpl.
  assert ((ContentLength resp >? MaxInt64) = false) as ->
      by (rewrite Z.gtb_ltb; apply Z.ltb_ge; lia).
  f_equal. unfold add_events. simpl. now rewrite <- app_assoc.
Qed.

Lemma downloadWithValidation_limit_overflow_witness :
  fst (downloadWithValidation (H := example_lib)
         (example_env (inr (example_response 200 "text/plain" 5 "hello")))
         (example_downloader MaxInt64) example_url empty_world)
  = Ok ("", {| meta_URL := example_url; DownloadedAt := example_time;
               ContentHash := ComputeContentHash ""; ETag := "v1";
               LastModified := ""; ContentType := "text/plain"; Size := 0 |}).
Proof.
  rewrite (downloadWithValidation_limit_overflow (H := example_lib)
             (example_env (inr (example_response 200 "text/plain" 5 "hello")))
             (example_downloader MaxInt64) example_url empty_world
             (example_response 200 "text/plain" 5 "hello")).
  - reflexivity.
  - reflexivity.
  - reflexivity.
  - reflexivity.
  - reflexivity.
  - reflexivity.
  - vm_compute. discriminate.
Defined.

(** ** The files a download touches *)

Lemma fetch_and_store_files `{GoLib} env d url w r w' :
  let docPath := GetCachedDocumentPath (cacheDir d) url in
  let metaPath := GetCachedMetadataPath (cacheDir d) url in
  fetch_and_store env d url w = (r, w') ->
  (forall p, p <> docPath -> p <> metaPath -> files w' !! p = files w !! p)
  /\ match r with
     | Ok p => p = docPath /\ write_fault env docPath = None
               /\ exists content, files w' !! docPath = Some content
     | Err e =>
         files w' = files w
         \/ exists msg k content,
              write_fault env docPath = Some (msg, Some k)
              /\ files w' = <[docPath := String.substring 0 k content]> (files w)
     end.
Proof.
  intros docPath metaPath Hrun.
  pose proof (cached_paths_differ (cacheDir d) url) as Hdiff.
  unfold fetch_and_store, downloadWithValidation, NewRequest, http_Client_Do,
    ReadAll_LimitReader, SaveMetadata, os_MkdirAll, os_WriteFile in Hrun.
  fold docPath metaPath in Hrun, Hdiff. clearbody docPath metaPath.
  run.
  repeat (branch; try discriminate); pairs; simpl in *.
  all: split;
    [ intros p Hp1 Hp2; rewrite ?lookup_insert_ne by congruence; reflexivity | ].
  all: try (split; [reflexivity|]; split; [reflexivity|]; eexists;
            rewrite ?lookup_insert_ne by congruence; apply lookup_insert_eq).
  all: try (left; reflexivity).
  all: right;
    match goal with
    | E : write_fault _ _ = Some (?m, Some ?k) |- _ =>
        first [ exists m, k, ""; split; reflexivity
              | eexists _, _, _; split; reflexivity ]
    end.
Qed.

Lemma Download_routes `{GoLib} env d url w r w' :
  let docPath := GetCachedDocumentPath (cacheDir d) url in
  Download env d url w = (r, w') ->
  (files w' = files w
   /\ ((exists e, r = Err e)
       \/ (r = Ok docPath /\ exists c, files w !! docPath = Some c)))
  \/ (exists w0, files w0 = files w /\ fetch_and_store env d url w0 = (r, w')).
Proof.
  intros docPath.
  unfold Download, GetCachedPath, os_Stat, ValidateCache, LoadMetadata,
    os_ReadFile, checkCacheFreshness, NewRequest, http_Client_Do.
  fold docPath. clearbody docPath.
  run. intros Hrun.
  repeat (branch; try discriminate); pairs; simpl in *; try discriminate.
  all: first
    [ right; eexists; split; [|eassumption]; reflexivity
    | left; split; [reflexivity|]; left; eexists; reflexivity
    | left; split; [reflexivity|]; right; split; [reflexivity|]; eauto ].
Qed.

(** X7.  A download changes no file but the two cache files of its URL:
    every other file is, after the call, what it was before, whether the
    call succeeds or not. *)
Theorem Download_touches_only_its_cache_files `{GoLib} env d url w r w' :
  Download env d url w = (r, w') ->
  forall p,
    p <> GetCachedDocumentPath (cacheDir d) url ->
    p <> GetCachedMetadataPath (cacheDir d) url ->
    files w' !! p = files w !! p.
Proof.
  intros Hrun p Hp1 Hp2.
  destruct (Download_routes _ _ _ _ _ _ Hrun) as [[-> _] | (w0 & <- & Hfetch)];
    [reflexivity|].
  now apply (fetch_and_store_files _ _ _ _ _ _ Hfetch).
Qed.

Lemma Download_touches_only_its_cache_files_witness :
  files (snd (Download (H := example_lib)
                (example_env (inr (example_response 200 "text/plain" 5 "hello")))
                (example_downloader 1024) example_url other_file_world))
    !! "/etc/hosts"
  = Some "127.0.0.1 localhost".
Proof.
  pose (env := example_env (inr (example_response 200 "text/plain" 5 "hello"))).
  pose (run := Download (H := example_lib) env (example_downloader 1024)
                 example_url other_file_world).
  transitivity (files other_file_world !! "/etc/hosts"); [|reflexivity].
  apply (Download_touches_only_its_cache_files (H := example_lib) env
           (example_downloader 1024) example_url other_file_world
           (fst run) (snd run) (surjective_pairing run) "/etc/hosts").
  - vm_compute. discriminate.
  - vm_compute. discriminate.
Defined.

(** X8.  A download that fails leaves every file as it was, a cached copy
    of the document included, unless the write of the document itself
    broke off half-way: only then is the document file left with the
    bytes written so far. *)
Theorem failed_Download_keeps_cache `{GoLib} env d url w e w' :
  let docPath := GetCachedDocumentPath (cacheDir d) url in
  Download env d url w = (Err e, w') ->
  files w' = files w
  \/ exists msg k content,
       write_fault env docPath = Some (msg, Some k)
       /\ files w' = <[docPath := String.substring 0 k content]> (files w).
Proof.
  intros docPath Hrun.
  destruct (Download_routes _ _ _ _ _ _ Hrun) as [[-> _] | (w0 & <- & Hfetch)];
    [now left|].
  exact (proj2 (fetch_and_store_files _ _ _ _ _ _ Hfetch)).
Qed.

Lemma failed_Download_keeps_cache_witness :
  files (snd (Download (H := example_lib)
                (example_env (inr (example_response 404 "text/plain" 0 "")))
                (example_downloader 1024) example_url cached_world))
  = files cached_world.
Proof.
  pose (env := example_env (inr (example_response 404 "text/plain" 0 ""))).
  pose (run := Download (H := example_lib) env (example_downloader 1024)
                 example_url cached_world).
  destruct (failed_Download_keeps_cache (H := example_lib) env
              (example_downloader 1024) example_url cached_world
              (Errorf "download failed" (ErrDownloadFailed example_url "HTTP 404"))
              (snd run))
    as [Hsame | (msg & k & content & Hfault & _)].
  - vm_compute. reflexivity.
  - exact Hsame.
  - vm_compute in Hfault. discriminate Hfault.
Defined.

(** X9.  After a download that succeeds the document is in the cache at
    the path returned: the file exists, and [GetCachedPath] reports this
    path as present. *)
Theorem Download_leaves_document `{GoLib} env d url w p w' :
  Download env d url w = (Ok p, w') ->
  (exists content, files w' !! p = Some content)
  /\ forall env2, stat_fault env2 p = None ->
       GetCachedPath env2 d url w' = ((p, true, None), add_events w' [EvStat p]).
Proof.
  intros Hrun.
  assert (Hp : p = GetCachedDocumentPath (cacheDir d) url)
    by (eapply Download_path; eassumption).
  assert (Hfile : exists content, files w' !! p = Some content).
  { destruct (Download_routes _ _ _ _ _ _ Hrun)
      as [[Hfiles [[e He] | [_ Hc]]] | (w0 & Hw0 & Hfetch)].
    - discriminate.
    - rewrite Hp, Hfiles. exact Hc.
    - destruct (fetch_and_store_files _ _ _ _ _ _ Hfetch) as [_ (_ & _ & Hc)].
      now rewrite Hp. }
  split; [exact Hfile|].
  intros env2 Hstat. destruct Hfile as [content Hc].
  unfold GetCachedPath, os_Stat. rewrite <- Hp. run.
  now rewrite Hstat, Hc.
Qed.

Lemma Download_leaves_document_witness :
  exists content,
    files (snd (Download (H := example_lib)
                  (example_env (inr (example_response 200 "text/plain" 5 "hello")))
                  (example_downloader 1024) example_url empty_world))
      !! GetCachedDocumentPath "/cache" example_url
    = Some content.
Proof.
  pose (env := example_env (inr (example_response 200 "text/plain" 5 "hello"))).
  pose (run := Download (H := example_lib) env (example_downloader 1024)
                 example_url empty_world).
  refine (proj1 (Download_leaves_document (H := example_lib) env
                   (example_downloader 1024) example_url empty_world
                   (GetCachedDocumentPath "/cache" example_url) (snd run) _)).
  vm_compute. reflexivity.
Defined.

(** ** A download and the next one *)

Lemma ValidString_ascii (s : string) : isASCII s = true -> ValidString s = true.
Proof.
  unfold isASCII, ValidString. induction s as [|c s IH]; [reflexivity|].
  simpl all_bytes. intros Hs. apply andb_prop in Hs as [Hc Hs].
  cbn [ValidString_from]. rewrite (DecodeRune_ascii c s Hc).
  unfold is_ascii_byte in Hc. apply Z.ltb_lt in Hc.
  assert ((byte_val c =? RuneError) = false) as ->
      by (apply Z.eqb_neq; unfold RuneError; lia).
  simpl. now apply IH.
Qed.

Lemma lower_hex_ascii (c : ascii) : is_lower_hex c = true -> is_ascii_byte c = true.
Proof.
  destruct c as [[] [] [] [] [] [] [] []]; simpl; intros; try discriminate;
    reflexivity.
Qed.

Lemma ComputeContentHash_valid (content : string) :
  ValidString (ComputeContentHash content) = true.
Proof.
  apply ValidString_ascii. unfold isASCII, ComputeContentHash.
  apply (all_bytes_impl is_lower_hex); [apply lower_hex_ascii|].
  apply EncodeToString_lower_hex.
Qed.

Lemma Dir_cached_paths (cacheDir url : string) :
  filepath.Dir (GetCachedDocumentPath cacheDir url)
  = filepath.Join [cacheDir; "documents"]
  /\ filepath.Dir (GetCachedMetadataPath cacheDir url)
     = filepath.Join [cacheDir; "documents"].
Proof.
  unfold GetCachedDocumentPath, GetCachedMetadataPath.
  rewrite !cached_path_shape, Join_documents by reflexivity.
  split; apply Dir_clean_prefix;
    try apply cache_documents_dir_not_empty;
    now apply cache_file_name.
Qed.

(** What a fetch leaves in the cache when both writes go through. *)
Lemma fetch_and_store_stored `{GoLib} env d url w p w1 stamp :
  let docPath := GetCachedDocumentPath (cacheDir d) url in
  let metaPath := GetCachedMetadataPath (cacheDir d) url in
  fetch_and_store env d url w = (Ok p, w1) ->
  write_fault env metaPath = None ->
  format_time (now env) = Ok stamp ->
  exists content meta data w0,
    downloadWithValidation env d url
      (add_events w [EvLog LInfo ("Downloading document from " ++ url)])
    = (Ok (content, meta), w0)
    /\ json.MarshalIndent meta = Ok data
    /\ files w1 = <[metaPath := data]> (<[docPath := content]> (files w))
    /\ p = docPath.
Proof.
  intros docPath metaPath Hrun Hwrite Hstamp.
  destruct (Dir_cached_paths (cacheDir d) url) as [Hd1 Hd2].
  unfold fetch_and_store in Hrun.
  unfold log at 1 in Hrun. unfold bind at 1 2 in Hrun. unfold emit at 1 in Hrun.
  fold (add_events w [EvLog LInfo ("Downloading document from " ++ url)]) in Hrun.
  destruct (downloadWithValidation env d url _) as [[[content meta]|e] w0] eqn:Hd;
    [|discriminate].
  destruct (downloadWithValidation_ok _ _ _ _ _ _ _ Hd)
    as (resp & _ & _ & _ & _ & _ & _ & _ & Hmeta & Hw0).
  assert (Hm : exists data, json.MarshalIndent meta = Ok data).
  { unfold json.MarshalIndent. rewrite Hmeta. cbn [DownloadedAt].
    rewrite Hstamp. eexists. reflexivity. }
  destruct Hm as [data Hm].
  exists content, meta, data, w0. split; [reflexivity|]. split; [exact Hm|].
  unfold SaveMetadata, os_MkdirAll, os_WriteFile in Hrun.
  fold docPath metaPath in Hrun, Hd1, Hd2. rewrite Hd2, <- Hd1, Hm, Hwrite in Hrun.
  clearbody docPath metaPath. subst w0. run.
  destruct (mkdir_fault env (filepath.Dir docPath)); [discriminate|]. simpl in Hrun.
  destruct (write_fault env docPath) as [[msg [k|]]|]; try discriminate.
  simpl in Hrun. injection Hrun as <- <-. auto.
Qed.

Lemma Download_on_miss `{GoLib} env d url w :
  let docPath := GetCachedDocumentPath (cacheDir d) url in
  validateURL url = None ->
  stat_fault env docPath = None ->
  files w !! docPath = None ->
  Download env d url w
  = fetch_and_store env d url (add_events w [EvStat docPath]).
Proof.
  intros docPath Hurl Hstat Hdoc.
  unfold Download, GetCachedPath, os_Stat. fold docPath. run.
  now rewrite Hurl, Hstat, Hdoc.
Qed.

(** X10.  The metadata a download stores describes the document it
    stores: once a document that was not in the cache is fetched and both
    files are written, loading the metadata file gives the URL,
    the length and the SHA-256 hash of the very content that is in the
    document file, with the time of the fetch and the headers of the
    response (the strings being valid UTF-8 and the time printable). *)
Theorem stored_metadata_describes_document `{GoLib}
    env env2 d url w p w1 stamp :
  let docPath := GetCachedDocumentPath (cacheDir d) url in
  let metaPath := GetCachedMetadataPath (cacheDir d) url in
  let req := {| Method := "GET"; ReqURL := url; ReqHeader := ∅ |} in
  validateURL url = None ->
  stat_fault env docPath = None -> files w !! docPath = None ->
  Download env d url w = (Ok p, w1) ->
  write_fault env metaPath = None ->
  format_time (now env) = Ok stamp ->
  wellformed_time (now env) = true ->
  MaxSize (config d) <= MaxInt64 ->
  ValidString url = true ->
  (forall resp, http_Do env req = inr resp ->
     ValidString (Header_Get (RespHeader resp) "ETag") = true
     /\ ValidString (Header_Get (RespHeader resp) "Last-Modified") = true
     /\ ValidString (Header_Get (RespHeader resp) "Content-Type") = true) ->
  read_fault env2 metaPath = None ->
  exists content meta resp,
    http_Do env req = inr resp
    /\ files w1 !! p = Some content
    /\ LoadMetadata env2 metaPath w1 = (Ok meta, add_events w1 [EvReadFile metaPath])
    /\ meta_URL meta = url
    /\ Size meta = len content
    /\ ContentHash meta = ComputeContentHash content
    /\ DownloadedAt meta = now env
    /\ ETag meta = Header_Get (RespHeader resp) "ETag"
    /\ LastModified meta = Header_Get (RespHeader resp) "Last-Modified"
    /\ ContentType meta = Header_Get (RespHeader resp) "Content-Type".
Proof.
  intros docPath metaPath req Hok Hstat Hmiss Hrun Hwrite Hstamp Htime Hmax
    Hurl Hhdr Hread.
  rewrite (Download_on_miss env d url w Hok Hstat Hmiss) in Hrun.
  pose proof (cached_paths_differ (cacheDir d) url) as Hdiff.
  destruct (fetch_and_store_stored _ _ _ _ _ _ _ Hrun Hwrite Hstamp)
    as (content & meta & data & w0 & Hd & Hm & Hfiles & ->).
  destruct (downloadWithValidation_ok _ _ _ _ _ _ _ Hd)
    as (resp & Hdo & _ & _ & _ & _ & Hle & _ & Hmeta & _).
  fold req in Hdo. fold docPath metaPath in Hfiles, Hdiff |- *.
  assert (Hvalid : valid_meta meta = true).
  { rewrite Hmeta. unfold valid_meta. simpl.
    destruct (Hhdr resp Hdo) as (He & Hl & Hc).
    rewrite Hurl, ComputeContentHash_valid, He, Hl, Hc, Htime. simpl.
    unfold in_range. apply andb_true_intro. split; apply Z.leb_le;
      unfold len, MaxInt64 in *; lia. }
  exists content, meta, resp. split; [exact Hdo|]. split.
  { rewrite Hfiles, lookup_insert_ne by congruence. apply lookup_insert_eq. }
  split.
  { assert (Hlk : files w1 !! metaPath = Some data)
      by (rewrite Hfiles; apply lookup_insert_eq).
    unfold LoadMetadata, os_ReadFile. run.
    rewrite Hread, Hlk.
    now rewrite (Unmarshal_MarshalIndent meta data Hvalid Hm). }
  rewrite Hmeta. simpl. repeat split; reflexivity.
Qed.

Lemma stored_metadata_describes_document_witness :
  exists content meta resp,
    http_Do (example_env (inr (example_response 200 "text/plain" 5 "hello")))
      {| Method := "GET"; ReqURL := example_url; ReqHeader := ∅ |} = inr resp
    /\ files cached_world !! GetCachedDocumentPath "/cache" example_url
       = Some content
    /\ LoadMetadata (H := example_lib) (example_env (inl "down"))
         (GetCachedMetadataPath "/cache" example_url) cached_world
       = (Ok meta,
          add_events cached_world
            [EvReadFile (GetCachedMetadataPath "/cache" example_url)])
    /\ Size meta = len content
    /\ ContentHash meta = ComputeContentHash content.
Proof.
  pose (env := example_env (inr (example_response 200 "text/plain" 5 "hello"))).
  destruct (stored_metadata_describes_document (H := example_lib) env
              (example_env (inl "down")) (example_downloader 1024) example_url
              empty_world
              (GetCachedDocumentPath "/cache" example_url) cached_world
              "2024-01-01T12:30:15.25+01:00")
    as (content & meta & resp & Hdo & Hfile & Hload & _ & Hsize & Hhash & _).
  - reflexivity.
  - reflexivity.
  - reflexivity.
  - vm_compute. reflexivity.
  - reflexivity.
  - vm_compute. reflexivity.
  - vm_compute. reflexivity.
  - vm_compute. discriminate.
  - vm_compute. reflexivity.
  - intros resp Hdo. injection Hdo as <-. vm_compute. auto.
  - reflexivity.
  - exists content, meta, resp. auto.
Defined.

Lemma Download_unvalidated `{GoLib} env d url w cached data meta :
  let docPath := GetCachedDocumentPath (cacheDir d) url in
  let metaPath := GetCachedMetadataPath (cacheDir d) url in
  validateURL url = None ->
  ForceRefresh (config d) = false ->
  stat_fault env docPath = None -> files w !! docPath = Some cached ->
  read_fault env metaPath = None -> files w !! metaPath = Some data ->
  json.Unmarshal data = Ok meta ->
  ETag meta = "" -> LastModified meta = "" ->
  Download env d url w
  = (Ok docPath,
     add_events w [EvStat docPath; EvReadFile metaPath;
                   EvLog LDebug ("Using cached document for " ++ url)]).
Proof.
  intros docPath metaPath Hurl Hforce Hstat Hdoc Hread Hmeta Hjson He Hl.
  unfold Download, ValidateCache, GetCachedPath, os_Stat, LoadMetadata,
    os_ReadFile.
  fold docPath metaPath. run.
  rewrite Hurl, Hstat, Hdoc, Hforce. simpl.
  rewrite Hread, Hmeta, Hjson. simpl. rewrite He, Hl. simpl.
  f_equal. same_world.
Qed.

(** X11.  A document whose response carried neither [ETag] nor
    [Last-Modified] is not asked for again: once it is fetched and stored,
    a later download of the URL (force-refresh off, the two files
    readable) returns the cached path after reading the metadata, and
    sends no request at all, whatever the server would answer. *)
Theorem unvalidated_document_is_never_refetched `{GoLib}
    env env2 d url w p w1 stamp resp :
  let docPath := GetCachedDocumentPath (cacheDir d) url in
  let metaPath := GetCachedMetadataPath (cacheDir d) url in
  let req := {| Method := "GET"; ReqURL := url; ReqHeader := ∅ |} in
  validateURL url = None ->
  stat_fault env docPath = None -> files w !! docPath = None ->
  Download env d url w = (Ok p, w1) ->
  http_Do env req = inr resp ->
  Header_Get (RespHeader resp) "ETag" = "" ->
  Header_Get (RespHeader resp) "Last-Modified" = "" ->
  write_fault env metaPath = None ->
  format_time (now env) = Ok stamp ->
  wellformed_time (now env) = true ->
  MaxSize (config d) <= MaxInt64 ->
  ValidString url = true ->
  ValidString (Header_Get (RespHeader resp) "Content-Type") = true ->
  ForceRefresh (config d) = false ->
  stat_fault env2 docPath = None -> read_fault env2 metaPath = None ->
  Download env2 d url w1
  = (Ok p, add_events w1 [EvStat docPath; EvReadFile metaPath;
                          EvLog LDebug ("Using cached document for " ++ url)]).
Proof.
  intros docPath metaPath req Hurl Hstat1 Hmiss Hrun Hdo He Hl Hwrite Hstamp
    Htime Hmax Hvurl Hvct Hforce Hstat Hread.
  rewrite (Download_on_miss env d url w Hurl Hstat1 Hmiss) in Hrun.
  pose proof (cached_paths_differ (cacheDir d) url) as Hdiff.
  destruct (fetch_and_store_stored _ _ _ _ _ _ _ Hrun Hwrite Hstamp)
    as (content & meta & data & w0 & Hd & Hm & Hfiles & ->).
  destruct (downloadWithValidation_ok _ _ _ _ _ _ _ Hd)
    as (resp' & Hdo' & _ & _ & _ & _ & Hle & _ & Hmeta & _).
  fold req in Hdo'. rewrite Hdo in Hdo'. injection Hdo' as <-.
  fold docPath metaPath in Hfiles, Hdiff |- *.
  assert (Hvalid : valid_meta meta = true).
  { rewrite Hmeta. unfold valid_meta. simpl.
    rewrite Hvurl, ComputeContentHash_valid, He, Hl, Hvct, Htime. simpl.
    unfold in_range. apply andb_true_intro. split; apply Z.leb_le;
      unfold len, MaxInt64 in *; lia. }
  apply (Download_unvalidated env2 d url w1 content data meta);
    try assumption.
  - fold docPath. rewrite Hfiles, lookup_insert_ne by congruence.
    apply lookup_insert_eq.
  - fold metaPath. rewrite Hfiles. apply lookup_insert_eq.
  - now apply Unmarshal_MarshalIndent.
  - now rewrite Hmeta.
  - now rewrite Hmeta.
Qed.

Lemma unvalidated_document_is_never_refetched_witness :
  let w1 := snd (Download (H := example_lib)
                   (example_env (inr (plain_response "hello")))
                   (example_downloader 1024) example_url empty_world) in
  fst (Download (H := example_lib) (example_env (inl "network is down"))
         (example_downloader 1024) example_url w1)
  = Ok (GetCachedDocumentPath "/cache" example_url).
Proof.
  intros w1.
  rewrite (unvalidated_document_is_never_refetched (H := example_lib)
             (example_env (inr (plain_response "hello")))
             (example_env (inl "network is down"))
             (example_downloader 1024) example_url empty_world
             (GetCachedDocumentPath "/cache" example_url) w1
             "2024-01-01T12:30:15.25+01:00" (plain_response "hello")).
  all: first [vm_compute; reflexivity | vm_compute; discriminate].
Defined.

(** ** When a download goes to the server *)

(** X12.  A download goes straight to the fetch, without reading the
    metadata and without a HEAD request, when the document is not in the
    cache, when force-refresh is set, and when the cache file cannot be
    examined; in the last case the failure is logged as a warning and is
    not an error of the download. *)
Theorem Download_fetches_without_validation `{GoLib} env d url w :
  let docPath := GetCachedDocumentPath (cacheDir d) url in
  validateURL url = None ->
  (forall msg, stat_fault env docPath = Some msg ->
     Download env d url w
     = fetch_and_store env d url
         (add_events w
            [EvStat docPath;
             EvLog LWarn ("Failed to check cache for " ++ url
                          ++ ": failed to stat cached file: " ++ msg)]))
  /\ (stat_fault env docPath = None ->
      ForceRefresh (config d) = true \/ files w !! docPath = None ->
      Download env d url w
      = fetch_and_store env d url (add_events w [EvStat docPath])).
Proof.
  intros docPath Hurl.
  unfold Download, GetCachedPath, os_Stat. fold docPath. run.
  rewrite Hurl. split.
  - intros msg ->. simpl. f_equal. same_world.
  - intros -> Hcase. destruct (files w !! docPath) as [c|] eqn:Hdoc; simpl.
    + destruct Hcase as [-> | Hnone]; [|discriminate]. reflexivity.
    + reflexivity.
Qed.

Lemma Download_fetches_without_validation_witness :
  let env := example_env (inr (example_response 200 "text/plain" 5 "hello")) in
  Download (H := example_lib) env (example_downloader 1024) example_url
    empty_world
  = fetch_and_store (H := example_lib) env (example_downloader 1024) example_url
      (add_events empty_world
         [EvStat (GetCachedDocumentPath "/cache" example_url)]).
Proof.
  intros env.
  apply (proj2 (Download_fetches_without_validation (H := example_lib) env
                  (example_downloader 1024) example_url empty_world eq_refl)).
  - reflexivity.
  - right. reflexivity.
Defined.

(** X13.  A cached document whose metadata cannot be loaded (the file is
    missing or unreadable, or is not the JSON of an entry) is fetched
    again: the failure is logged as a warning, no HEAD request is sent
    and the download does not fail for it. *)
Theorem Download_refetches_on_unreadable_metadata `{GoLib}
    env d url w cached err w1 :
  let docPath := GetCachedDocumentPath (cacheDir d) url in
  let metaPath := GetCachedMetadataPath (cacheDir d) url in
  validateURL url = None ->
  ForceRefresh (config d) = false ->
  stat_fault env docPath = None -> files w !! docPath = Some cached ->
  LoadMetadata env metaPath (add_events w [EvStat docPath]) = (Err err, w1) ->
  w1 = add_events w [EvStat docPath; EvReadFile metaPath]
  /\ ValidateCache env d url (add_events w [EvStat docPath])
     = ((false, Some (Errorf "failed to load metadata" err)), w1)
  /\ Download env d url w
     = fetch_and_store env d url
         (add_events w1
            [EvLog LWarn ("Failed to validate cache for " ++ url
                          ++ ": failed to load metadata: " ++ Error err)]).
Proof.
  intros docPath metaPath Hurl Hforce Hstat Hdoc Hload.
  assert (Hw1 : w1 = add_events w [EvStat docPath; EvReadFile metaPath]).
  { unfold LoadMetadata, os_ReadFile in Hload. run.
    destruct (read_fault env metaPath); simpl in Hload;
      [injection Hload as _ <-; same_world|].
    destruct (files w !! metaPath) as [data|]; simpl in Hload;
      [|injection Hload as _ <-; same_world].
    destruct (json.Unmarshal data); simpl in Hload; [discriminate|].
    injection Hload as _ <-. same_world. }
  assert (Hvc : ValidateCache env d url (add_events w [EvStat docPath])
                = ((false, Some (Errorf "failed to load metadata" err)), w1)).
  { unfold ValidateCache. fold metaPath. unfold bind. now rewrite Hload. }
  split; [exact Hw1|]. split; [exact Hvc|].
  assert (Hgcp : GetCachedPath env d url w
                 = ((docPath, true, None), add_events w [EvStat docPath])).
  { unfold GetCachedPath, os_Stat. fold docPath. run. now rewrite Hstat, Hdoc. }
  unfold Download. rewrite Hurl. unfold bind at 1. rewrite Hgcp.
  cbv beta iota zeta. unfold bind at 1. unfold ret at 1. cbv beta iota zeta.
  rewrite Hforce. cbn [andb negb]. unfold bind at 1. rewrite Hvc.
  cbv beta iota zeta. unfold bind at 1. unfold log, emit.
  f_equal.
Qed.

Lemma Download_refetches_on_unreadable_metadata_witness :
  let env := example_env (inr (example_response 200 "text/plain" 5 "hello")) in
  fst (Download (H := example_lib) env (example_downloader 1024) example_url
         orphan_world)
  = Ok (GetCachedDocumentPath "/cache" example_url)
  /\ files (snd (Download (H := example_lib) env (example_downloader 1024)
                   example_url orphan_world))
       !! GetCachedDocumentPath "/cache" example_url
     = Some "hello".
Proof.
  intros env.
  pose (docPath := GetCachedDocumentPath "/cache" example_url).
  pose (metaPath := GetCachedMetadataPath "/cache" example_url).
  pose (load := LoadMetadata (H := example_lib) env metaPath
                  (add_events orphan_world [EvStat docPath])).
  destruct (Download_refetches_on_unreadable_metadata (H := example_lib) env
              (example_downloader 1024) example_url orphan_world "old"
              (Errorf "failed to read metadata file"
                 (LibError ("open " ++ metaPath ++ ": no such file or directory")))
              (snd load))
    as (_ & _ & Hrun).
  - reflexivity.
  - reflexivity.
  - reflexivity.
  - vm_compute. reflexivity.
  - vm_compute. reflexivity.
  - rewrite Hrun. vm_compute. split; reflexivity.
Defined.

(** ** The cache directory and the making of a downloader *)


Lemma Join_not_empty (a : string) (l : list string) :
  a <> "" -> filepath.Join (a :: l) <> "".
Proof.
  intros Ha.
  change (filepath.Join (a :: l))
    with (if String.eqb a "" then filepath.Join l
          else filepath.Clean (JoinStrings (a :: l) "/")).
  apply String.eqb_neq in Ha. rewrite Ha. apply Clean_not_empty.
Qed.





Lemma GetCacheDir_not_empty (goos : GOOS) (vars : gmap string string) dir :
  GetCacheDir goos vars = Ok dir -> dir <> "".
Proof.
  unfold GetCacheDir, os_UserHomeDir.
  destruct (String.eqb (os_Getenv vars CacheDirEnv) "") eqn:E0; simpl.
  2:{ intros Hd. injection Hd as <-. now apply String.eqb_neq. }
  destruct (String.eqb (os_Getenv vars "XDG_CACHE_HOME") "") eqn:Ex;
    destruct (String.eqb (os_Getenv vars "HOME") "") eqn:Eh;
    destruct goos; simpl; intros Hd; try discriminate;
    injection Hd as <-;
    apply Join_not_empty; try discriminate;
    now apply String.eqb_neq.
Qed.


(** X15.  [NewDownloader] touches no file.  When it succeeds the
    downloader carries the configuration as given, with a logger and with
    a positive time-out and size limit; its cache directory is the one of
    the configuration when that is not empty, and the one [GetCacheDir]
    resolves otherwise, never the empty path; this directory, and nothing
    else, has been created.  An invalid configuration is refused before
    anything is done. *)
Theorem NewDownloader_result goos vars env cfg w r w' :
  NewDownloader goos vars env cfg w = (r, w') ->
  files w' = files w
  /\ match r with
     | Ok d =>
         config d = cfg
         /\ Logger cfg = true /\ 0 < Timeout cfg /\ 0 < MaxSize cfg
         /\ cacheDir d <> ""
         /\ (if String.eqb (CacheDir cfg) ""
             then GetCacheDir goos vars = Ok (cacheDir d)
             else cacheDir d = CacheDir cfg)
         /\ mkdir_fault env (cacheDir d) = None
         /\ trace w'
            = (trace w ++
               [EvMkdirAll (cacheDir d);
                EvLog LDebug ("Initialized RAG downloader with cache directory: "
                              ++ cacheDir d)])%list
     | Err e =>
         (exists c, ValidateConfig cfg = Some c
                    /\ e = Errorf "invalid configuration" c
                    /\ kind_of e = KInvalidConfig /\ w' = w)
         \/ (ValidateConfig cfg = None /\ kind_of e = KLibrary)
     end.
Proof.
  unfold NewDownloader, EnsureCacheDir, os_MkdirAll.
  destruct (ValidateConfig cfg) as [c|] eqn:Hvalid.
  { intros Hrun. injection Hrun as <- <-. split; [reflexivity|]. left.
    exists c. repeat split.
    unfold ValidateConfig in Hvalid.
    destruct (negb (Logger cfg)); [now injection Hvalid as <-|].
    destruct (Timeout cfg <=? 0); [now injection Hvalid as <-|].
    destruct (MaxSize cfg <=? 0); [now injection Hvalid as <-|].
    discriminate. }
  assert (Hconf : Logger cfg = true /\ 0 < Timeout cfg /\ 0 < MaxSize cfg).
  { unfold ValidateConfig in Hvalid.
    destruct (Logger cfg); [|discriminate]. simpl in Hvalid.
    destruct (Timeout cfg <=? 0) eqn:Et; [discriminate|].
    destruct (MaxSize cfg <=? 0) eqn:Em; [discriminate|].
    apply Z.leb_gt in Et, Em. auto. }
  destruct (String.eqb (CacheDir cfg) "") eqn:Edir.
  - destruct (GetCacheDir goos vars) as [dir|err] eqn:Hdir.
    + run. destruct (mkdir_fault env dir) eqn:Hmk; intros Hrun;
        injection Hrun as <- <-; simpl; split; try reflexivity.
      * right. auto.
      * rewrite <- app_assoc. repeat split; try tauto.
        eapply GetCacheDir_not_empty; eassumption.
    + intros Hrun. injection Hrun as <- <-. split; [reflexivity|].
      right. split; [reflexivity|].
      unfold GetCacheDir, os_UserHomeDir in Hdir.
      repeat match type of Hdir with
             | context [if ?b then _ else _] => destruct b
             | context [match ?g with darwin => _ | _ => _ end] => destruct g
             end; simpl in Hdir; try discriminate; now injection Hdir as <-.
  - run. destruct (mkdir_fault env (CacheDir cfg)) eqn:Hmk; intros Hrun;
      injection Hrun as <- <-; simpl; split; try reflexivity.
    + right. auto.
    + rewrite <- app_assoc. repeat split; try tauto.
      now apply String.eqb_neq.
Qed.

Lemma NewDownloader_result_witness :
  let run := NewDownloader unix example_vars (example_env (inl "unused"))
               (DefaultConfig true) empty_world in
  files (snd run) = files empty_world
  /\ mkdir_fault (example_env (inl "unused")) "/home/u/.cache/don/rag" = None.
Proof.
  intros run.
  destruct (NewDownloader_result unix example_vars (example_env (inl "unused"))
              (DefaultConfig true) empty_world
              (Ok {| config := DefaultConfig true;
                     cacheDir := "/home/u/.cache/don/rag" |})
              (snd run))
    as (Hfiles & _ & _ & _ & _ & _ & _ & Hmk & _).
  - vm_compute. reflexivity.
  - split; [exact Hfiles | exact Hmk].
Defined.

(** ** The content type and the URL *)

Lemma Split_head_app (t rest : string) (sep : ascii) :
  all_bytes (fun c => negb (Ascii.eqb c sep)) t = true ->
  List.hd "" (Split (t ++ String sep rest) sep) = t.
Proof.
  intros Ht. now rewrite Split_app_sep, (Split_no_sep t sep Ht).
Qed.

Lemma isTextContentType_parameters `{GoLib} (t params : string) :
  all_bytes (fun c => negb (Ascii.eqb c ";")) t = true ->
  isTextContentType (t ++ ";" ++ params) = isTextContentType t.
Proof.
  intros Ht. unfold isTextContentType.
  change (";" ++ params) with (String ";" params).
  now rewrite Split_head_app, (Split_no_sep t ";" Ht).
Qed.

Lemma lower_byte_semicolon (c : ascii) :
  Ascii.eqb (lower_byte c) ";" = Ascii.eqb c ";".
Proof. destruct c as [[] [] [] [] [] [] [] []]; reflexivity. Qed.

Lemma Split_head_lower (s : string) :
  List.hd "" (Split (map_bytes lower_byte s) ";")
  = map_bytes lower_byte (List.hd "" (Split s ";")).
Proof.
  induction s as [|c s IH]; [reflexivity|]. simpl.
  rewrite lower_byte_semicolon. destruct (Ascii.eqb c ";"); [reflexivity|].
  pose proof (Split_not_nil s ";") as Hne.
  pose proof (Split_not_nil (map_bytes lower_byte s) ";") as Hne'.
  destruct (Split s ";") as [|h t]; [now elim Hne|].
  destruct (Split (map_bytes lower_byte s) ";") as [|h' t']; [now elim Hne'|].
  simpl in *. now rewrite IH.
Qed.

Lemma Split_head_ascii (s : string) :
  isASCII s = true -> isASCII (List.hd "" (Split s ";")) = true.
Proof.
  unfold isASCII. induction s as [|c s IH]; [reflexivity|]. simpl.
  intros Hs. apply andb_prop in Hs as [Hc Hs].
  destruct (Ascii.eqb c ";"); [reflexivity|].
  pose proof (Split_not_nil s ";") as Hne.
  destruct (Split s ";") as [|h t]; [now elim Hne|].
  simpl in *. now rewrite Hc, IH.
Qed.

Lemma isTextContentType_lower `{GoLib} (s : string) :
  isASCII s = true ->
  isTextContentType s
  = existsb (fun textType =>
               HasPrefix (TrimSpace (List.hd "" (Split (ToLower s) ";"))) textType)
      textTypes.
Proof.
  intros Hs. unfold isTextContentType, ToLower.
  now rewrite Hs, (Split_head_ascii s Hs), Split_head_lower.
Qed.

(** X16.  What follows the first semicolon of a content type has no
    part in the check: a type with parameters is accepted exactly when
    the type alone is.  Nor does the check tell upper case from lower
    case: two ASCII content types that differ in the case of their
    letters only get the same answer. *)
Theorem isTextContentType_ignores_parameters_and_case `{GoLib} :
  (forall t params,
      all_bytes (fun c => negb (Ascii.eqb c ";")) t = true ->
      isTextContentType (t ++ ";" ++ params) = isTextContentType t)
  /\ (forall s s',
        isASCII s = true -> isASCII s' = true -> ToLower s = ToLower s' ->
        isTextContentType s = isTextContentType s')
  /\ isTextContentType "TEXT/Markdown; charset=UTF-8" = true.
Proof.
  split; [exact isTextContentType_parameters|]. split; [|reflexivity].
  intros s s' Hs Hs' Hlow.
  now rewrite (isTextContentType_lower s Hs), (isTextContentType_lower s' Hs'), Hlow.
Qed.

(** X17.  A URL is let through exactly when it parses, its scheme is
    [http] or [https] and its host is not empty.  A URL that is refused
    makes [Download] fail with an [ErrInvalidURL] and without any effect:
    no request is sent, no file is looked at, nothing is logged. *)
Theorem Download_refuses_invalid_URL `{GoLib} (url : string) :
  (validateURL url = None <->
   exists u, url_Parse url = inr u
             /\ (Scheme u = "http" \/ Scheme u = "https") /\ Host u <> "")
  /\ (forall e, validateURL url = Some e ->
        kind_of e = KInvalidURL
        /\ forall env d w,
             Download env d url w = (Err (Errorf "invalid URL" e), w)).
Proof.
  split.
  - unfold validateURL. destruct (url_Parse url) as [msg|u].
    { split; [discriminate|]. intros (u & Hu & _). discriminate. }
    destruct (String.eqb (Scheme u) "http") eqn:E1;
      destruct (String.eqb (Scheme u) "https") eqn:E2;
      destruct (String.eqb (Host u) "") eqn:E3;
      rewrite ?String.eqb_eq, ?String.eqb_neq in *; simpl; split;
      try discriminate;
      try (intros _; exists u; tauto);
      intros (u' & Hu & Hs & Hh); injection Hu as <-;
      try congruence; destruct Hs; congruence.
  - intros e He. split.
    + unfold validateURL in He. destruct (url_Parse url) as [msg|u];
        [now injection He as <-|].
      destruct (_ && _); [now injection He as <-|].
      destruct (String.eqb _ _); [now injection He as <-|]. discriminate.
    + intros env d w. unfold Download. now rewrite He.
Qed.

(** ** More on the scanner *)

Lemma walkFunc_error `{GoLib} ctx absPath recursive path info err st e st' :
  walkFunc ctx absPath recursive path info err st = (WErr e, st') ->
  exists done, ctx (polls st) = Some done /\ e = LibError done.
Proof.
  unfold walkFunc. destruct (ctx (polls st)) as [done|].
  - intros Hrun. injection Hrun as <- _. eauto.
  - intros Hrun. repeat (branch; try discriminate); discriminate.
Qed.

Lemma walk_error `{GoLib} ctx absPath recursive n :
  forall path st e st',
    walk (walkFunc ctx absPath recursive) path n st = (WErr e, st') ->
    exists k done, ctx k = Some done /\ e = LibError done.
Proof.
  induction n as [name | name msg | name readErr entries IH | name target _]
    using node_nested_ind; intros path st e st' Hrun.
  4: { simpl in Hrun. apply walkFunc_error in Hrun as (done & Hk & ->). eauto. }
  - simpl in Hrun. apply walkFunc_error in Hrun as (done & Hk & ->). eauto.
  - simpl in Hrun. apply walkFunc_error in Hrun as (done & Hk & ->). eauto.
  - cbn [walk] in Hrun.
    destruct (walkFunc ctx absPath recursive path
                (Some (info_of (Dir name readErr entries))) readErr st)
      as [err1 st1] eqn:Hfn.
    assert (Hfirst : err1 = WErr e ->
                     exists k done, ctx k = Some done /\ e = LibError done).
    { intros ->. apply walkFunc_error in Hfn as (done & Hk & ->). eauto. }
    destruct readErr as [msg|]; [injection Hrun as -> _; now apply Hfirst|].
    destruct err1 as [| |e1]; try discriminate;
      [|injection Hrun as -> _; now apply Hfirst].
    clear Hfn Hfirst. revert st1 Hrun.
    induction IH as [|x xs Hx Hxs IHxs]; intros st1 Hrun; [discriminate|].
    destruct (walk (walkFunc ctx absPath recursive)
                (filepath.Join [path; node_name x]) x st1) as [r1 st2] eqn:Hwalk.
    destruct r1 as [| |e1].
    + eapply IHxs; eassumption.
    + destruct x; first [eapply IHxs; eassumption | discriminate].
    + injection Hrun as <- _. eapply Hx; eassumption.
Qed.

Lemma ValidatePath_None_iff (path : string) :
  ValidatePath path = None <-> Contains path ".." = false.
Proof.
  unfold ValidatePath. destruct (Contains path "..") eqn:E.
  - split; discriminate.
  - now rewrite (Clean_no_dotdot path E).
Qed.

Lemma ValidatePath_Some (path : string) (e : error) :
  ValidatePath path = Some e -> e = ErrPathTraversal path.
Proof.
  unfold ValidatePath. destruct (Contains path "..") eqn:E.
  - now intros [= <-].
  - now rewrite (Clean_no_dotdot path E).
Qed.

(** What [os.Stat] shows as a directory is a directory or a symbolic
    link. *)
Lemma node_Stat_dir (n : node) (info : FileInfo) :
  node_Stat n = inr info -> IsDir info = true ->
  node_isDir n = true \/ exists name target, n = Link name target.
Proof.
  destruct n as [nm | nm re en | nm msg | nm tg]; simpl.
  - intros [= <-]. discriminate.
  - auto.
  - discriminate.
  - eauto.
Qed.

Lemma node_Stat_of_dir (n : node) :
  node_isDir n = true -> node_Stat n = inr (info_of n) /\ IsDir (info_of n) = true.
Proof. destruct n; try discriminate. auto. Qed.

Lemma ScanDirectory_Err `{GoLib} ctx getwd fs dirPath recursive e log :
  ScanDirectory ctx getwd fs dirPath recursive = (Err e, log) ->
  (Contains dirPath ".." = true
   /\ e = Errorf "invalid directory path" (ErrPathTraversal dirPath))
  \/ (Contains dirPath ".." = false /\
      ((exists msg, filepath.IsAbs dirPath = false /\ getwd = inl msg
          /\ e = Errorf "failed to resolve absolute path" (LibError msg))
       \/ exists absPath,
            filepath.Abs getwd dirPath = inr absPath /\
            ((exists msg, node_Stat (fs absPath) = inl msg
                /\ e = Errorf "failed to stat directory" (LibError msg))
             \/ (exists info, node_Stat (fs absPath) = inr info
                   /\ IsDir info = false
                   /\ e = ErrInvalidPath (absPath ++ " is not a directory"))
             \/ (exists info k done,
                   node_Stat (fs absPath) = inr info /\ IsDir info = true
                   /\ ctx k = Some done
                   /\ e = Errorf "failed to walk directory" (LibError done))))).
Proof.
  unfold ScanDirectory, Walk.
  destruct (ValidatePath dirPath) as [err|] eqn:Hpath.
  { intros Hrun. injection Hrun as <- _. left.
    rewrite (ValidatePath_Some _ _ Hpath). split; [|reflexivity].
    destruct (Contains dirPath "..") eqn:E; [reflexivity|].
    apply ValidatePath_None_iff in E. congruence. }
  apply ValidatePath_None_iff in Hpath. intros Hrun. right.
  split; [exact Hpath|].
  destruct (filepath.Abs getwd dirPath) as [msg|absPath] eqn:Habs.
  { left. injection Hrun as <- _. apply Abs_fails in Habs as [Hrel ->]. eauto. }
  right. exists absPath. split; [reflexivity|].
  destruct (node_Stat (fs absPath)) as [msg|info] eqn:Hstat.
  { left. injection Hrun as <- _. eauto. }
  right. destruct (IsDir info) eqn:Hdir; cbn [negb] in Hrun.
  - right. destruct (walk _ absPath (fs absPath) _) as [r st] eqn:Hwalk.
    destruct r as [| |e1]; try discriminate.
    injection Hrun as <- _.
    destruct (walk_error _ _ _ _ _ _ _ _ Hwalk) as (k & done & Hk & ->).
    exists info, k, done. auto.
  - left. injection Hrun as <- _. eauto.
Qed.

(** X18.  A directory scan fails for five reasons only: the path has two
    dots in a row; the path is not absolute and the working directory
    cannot be told; the path cannot be examined; it is not a directory,
    also behind symbolic links; or the context is done while the tree is
    walked, the error then being the one of the context.  Each of the
    first four makes it fail, and so does a context that is done when the
    walk begins.  A directory that cannot be read or an entry that cannot
    be examined never makes the scan fail: a root that exists but cannot
    be read gives the empty list, with the failure left in the log as a
    warning. *)
Theorem ScanDirectory_failures `{GoLib} ctx getwd fs dirPath recursive :
  let scan := ScanDirectory ctx getwd fs dirPath recursive in
  (forall e log, scan = (Err e, log) ->
     (Contains dirPath ".." = true
      /\ e = Errorf "invalid directory path" (ErrPathTraversal dirPath))
     \/ (Contains dirPath ".." = false /\
         ((exists msg, filepath.IsAbs dirPath = false /\ getwd = inl msg
             /\ e = Errorf "failed to resolve absolute path" (LibError msg))
          \/ exists absPath,
               filepath.Abs getwd dirPath = inr absPath /\
               ((exists msg, node_Stat (fs absPath) = inl msg
                   /\ e = Errorf "failed to stat directory" (LibError msg))
                \/ (exists info, node_Stat (fs absPath) = inr info
                      /\ IsDir info = false
                      /\ e = ErrInvalidPath (absPath ++ " is not a directory"))
                \/ (exists info k done,
                      node_Stat (fs absPath) = inr info /\ IsDir info = true
                      /\ ctx k = Some done
                      /\ e = Errorf "failed to walk directory"
                              (LibError done))))))
  /\ (Contains dirPath ".." = true ->
      scan = (Err (Errorf "invalid directory path" (ErrPathTraversal dirPath)), []))
  /\ (Contains dirPath ".." = false ->
      (forall msg, filepath.IsAbs dirPath = false -> getwd = inl msg ->
         scan = (Err (Errorf "failed to resolve absolute path" (LibError msg)), []))
      /\ (forall absPath, filepath.Abs getwd dirPath = inr absPath ->
            (forall msg, node_Stat (fs absPath) = inl msg ->
               scan = (Err (Errorf "failed to stat directory" (LibError msg)), []))
            /\ (forall info, node_Stat (fs absPath) = inr info ->
                  IsDir info = false ->
                  scan = (Err (ErrInvalidPath (absPath ++ " is not a directory")),
                          []))
            /\ (forall info done, node_Stat (fs absPath) = inr info ->
                  IsDir info = true -> ctx O = Some done ->
                  scan = (Err (Errorf "failed to walk directory" (LibError done)),
                          []))
            /\ (forall name msg entries,
                  fs absPath = Dir name (Some msg) entries -> ctx O = None ->
                  scan = (Ok [],
                          [EvLog LWarn ("Error accessing path " ++ absPath ++ ": "
                                        ++ msg);
                           EvLog LInfo ("Scanned directory " ++ dirPath
                                        ++ ": found 0 text files")])))).
Proof.
  intros scan. split; [intros e log; apply ScanDirectory_Err|].
  subst scan. unfold ScanDirectory, Walk. split.
  - intros Hdots.
    destruct (ValidatePath dirPath) as [err|] eqn:Hpath.
    + now rewrite (ValidatePath_Some _ _ Hpath).
    + apply ValidatePath_None_iff in Hpath. congruence.
  - intros Hdots. apply ValidatePath_None_iff in Hdots. rewrite Hdots. split.
    + intros msg Hrel Hwd.
      now rewrite (proj2 (Abs_fails getwd dirPath msg) (conj Hrel Hwd)).
    + intros absPath Habs. rewrite Habs. split; [|split; [|split]].
      * now intros msg ->.
      * now intros info -> ->.
      * intros info done Hstat Hdir Hctx. rewrite Hstat, Hdir. cbn [negb].
        destruct (node_Stat_dir _ _ Hstat Hdir) as [Hn | (nm & tg & Hn)].
        -- destruct (fs absPath) as [nm | nm re en | nm msg | nm tg];
             try discriminate Hn.
           cbn [walk]. unfold walkFunc. cbn [polls]. rewrite Hctx.
           now destruct re.
        -- rewrite Hn. cbn [walk]. unfold walkFunc. cbn [polls].
           now rewrite Hctx.
      * intros name msg entries Hfs Hctx. rewrite Hfs.
        cbn [node_Stat info_of node_isDir IsDir negb walk].
        unfold walkFunc. cbn [polls]. rewrite Hctx. reflexivity.
Qed.

Lemma text_files_below `{GoLib} recursive root n :
  names_ok n = true ->
  forall path p,
    filepath.IsAbs path = true -> filepath.Clean path = path ->
    HasPrefix path root = true ->
    List.In p (text_files recursive root path n) ->
    filepath.IsAbs p = true /\ filepath.Clean p = p /\ HasPrefix p root = true.
Proof.
  induction n as [name | name msg | name readErr entries IH | name target _]
    using node_nested_ind; intros Hnames path p Habs Hclean Hroot Hin.
  4: { simpl in Hin. destruct (HasPrefix name "."); [destruct Hin|].
       destruct (IsTextFile path); [|destruct Hin].
       destruct Hin as [<- | []]. auto. }
  - simpl in Hin. destruct (HasPrefix name "."); [destruct Hin|].
    destruct (IsTextFile path); [|destruct Hin].
    destruct Hin as [<- | []]. auto.
  - destruct Hin.
  - cbn [text_files] in Hin. destruct readErr; [destruct Hin|].
    destruct (negb (String.eqb path root) && negb recursive); [destruct Hin|].
    cbn [names_ok] in Hnames.
    induction IH as [|x xs Hx Hxs IHxs]; [destruct Hin|].
    apply andb_prop in Hnames as [Hnames Hrest].
    apply andb_prop in Hnames as [Hname Hsub].
    apply in_app_or in Hin as [Hin | Hin].
    + destruct (Join_entry path (node_name x) Habs Hclean Hname)
        as (_ & Hpre & Habs' & Hclean').
      apply (Hx Hsub (filepath.Join [path; node_name x])); try assumption.
      exact (HasPrefix_trans _ _ _ Hpre Hroot).
    + now apply IHxs.
Qed.

Lemma names_ok_Dir name readErr entries x :
  names_ok (Dir name readErr entries) = true -> List.In x entries ->
  name_ok (node_name x) = true /\ names_ok x = true.
Proof.
  cbn [names_ok]. induction entries as [|y ys IH]; intros Hn Hin; [destruct Hin|].
  apply andb_prop in Hn as [Hn Hrest]. apply andb_prop in Hn as [Hname Hsub].
  destruct Hin as [<- | Hin]; [auto | now apply IH].
Qed.

Lemma text_files_Dir_in `{GoLib} recursive root path name readErr entries p :
  List.In p (text_files recursive root path (Dir name readErr entries)) ->
  exists x, List.In x entries
            /\ List.In p (text_files recursive root
                            (filepath.Join [path; node_name x]) x).
Proof.
  cbn [text_files]. destruct readErr; [intros []|].
  destruct (negb (String.eqb path root) && negb recursive); [intros []|].
  induction entries as [|y ys IH]; [intros []|].
  intros Hin. apply in_app_or in Hin as [Hin | Hin].
  - exists y. split; [now left | exact Hin].
  - destruct (IH Hin) as (x & Hx & Hp). exists x. split; [now right | exact Hp].
Qed.

Lemma HasPrefix_refl (s : string) : HasPrefix s s = true.
Proof. rewrite <- (append_nil_r s) at 1. apply HasPrefix_append. Qed.

Lemma HasPrefix_length (a b : string) :
  HasPrefix a b = true -> (String.length b <= String.length a)%nat.
Proof.
  revert a. induction b as [|y b IH]; intros [|x a] Hp;
    simpl in *; try lia; try discriminate.
  destruct (Ascii.eqb y x); [|discriminate]. apply IH in Hp. lia.
Qed.

Lemma Join_entry_longer (p x : string) :
  filepath.IsAbs p = true -> filepath.Clean p = p -> name_ok x = true ->
  (String.length p < String.length (filepath.Join [p; x]))%nat.
Proof.
  intros Habs Hclean Hx.
  destruct (Join_entry p x Habs Hclean Hx) as (-> & _).
  destruct (name_ok_elem _ Hx) as (E0 & _).
  destruct (String.eqb p "/") eqn:Eroot.
  - apply String.eqb_eq in Eroot. subst p. rewrite append_length.
    destruct x; [discriminate E0 | simpl; lia].
  - rewrite !append_length. simpl. lia.
Qed.

(** Every path found below a node begins with the path of the node. *)
Lemma text_files_prefix `{GoLib} recursive root n :
  forall path q,
    List.In q (text_files recursive root path n) ->
    names_ok n = true -> filepath.IsAbs path = true ->
    filepath.Clean path = path -> HasPrefix q path = true.
Proof.
  induction n as [name | name msg | name readErr entries IH | name target _]
    using node_nested_ind; intros path q Hin Hn Ha Hc.
  4: { simpl in Hin. destruct (HasPrefix name "."); [destruct Hin|].
       destruct (IsTextFile path); [|destruct Hin].
       destruct Hin as [<- | []]. apply HasPrefix_refl. }
  - simpl in Hin. destruct (HasPrefix name "."); [destruct Hin|].
    destruct (IsTextFile path); [|destruct Hin].
    destruct Hin as [<- | []]. apply HasPrefix_refl.
  - destruct Hin.
  - destruct (text_files_Dir_in _ _ _ _ _ _ _ Hin) as (x & Hx & Hp).
    destruct (names_ok_Dir _ _ _ _ Hn Hx) as [Hname Hsub].
    destruct (Join_entry path (node_name x) Ha Hc Hname)
      as (_ & Hpre & Ha' & Hc').
    refine (HasPrefix_trans _ _ _ _ Hpre).
    rewrite List.Forall_forall in IH. now apply (IH x Hx _ _ Hp).
Qed.

(** The paths found at a node that is not a directory are the path of the
    node. *)
Lemma text_files_not_dir `{GoLib} recursive root path n p :
  node_isDir n = false ->
  List.In p (text_files recursive root path n) -> p = path.
Proof.
  destruct n as [nm | nm re en | nm msg | nm tg]; try discriminate;
    intros _ Hin; simpl in Hin; try (now destruct Hin);
    destruct (HasPrefix nm "."); try (now destruct Hin);
    destruct (IsTextFile path); try (now destruct Hin);
    now destruct Hin as [<- | []].
Qed.

(** X19.  The paths a directory scan returns are absolute and clean and
    lie below the directory scanned, the working directory or the path
    given being absolute and the entries of the tree having names.  None
    of them is the path of the root, unless the root is a symbolic link to
    a directory: the scan then returns nothing but the path of the root
    itself. *)
Theorem ScanDirectory_returns_paths_below_root `{GoLib}
    ctx getwd fs dirPath recursive files log :
  absolute_wd getwd = true \/ filepath.IsAbs dirPath = true ->
  (forall absPath, filepath.Abs getwd dirPath = inr absPath ->
                   names_ok (fs absPath) = true) ->
  ScanDirectory ctx getwd fs dirPath recursive = (Ok files, log) ->
  exists absPath,
    filepath.Abs getwd dirPath = inr absPath
    /\ (node_isDir (fs absPath) = true
        \/ exists name target, fs absPath = Link name target)
    /\ forall p, List.In p files ->
         filepath.IsAbs p = true /\ filepath.Clean p = p
         /\ HasPrefix p absPath = true
         /\ (node_isDir (fs absPath) = true -> p <> absPath)
         /\ (forall name target, fs absPath = Link name target -> p = absPath).
Proof.
  intros Hwd Hnames Hrun.
  destruct (ScanDirectory_Ok _ _ _ _ _ _ _ Hrun)
    as (absPath & info & _ & Habs & Hstat & Hisdir & ->).
  exists absPath. split; [exact Habs|].
  split; [exact (node_Stat_dir _ _ Hstat Hisdir)|].
  intros p Hin. specialize (Hnames _ Habs).
  destruct (Abs_absolute getwd dirPath absPath Hwd Habs) as [Ha Hclean].
  destruct (text_files_below recursive absPath (fs absPath) Hnames absPath p
              Ha Hclean (HasPrefix_refl absPath) Hin) as (Hp1 & Hp2 & Hp3).
  repeat split; try assumption.
  - intros Hdir.
    destruct (fs absPath) as [nm | nm re en | nm msg | nm tg];
      try discriminate Hdir.
    destruct (text_files_Dir_in _ _ _ _ _ _ _ Hin) as (x & Hx & Hp).
    destruct (names_ok_Dir _ _ _ _ Hnames Hx) as [Hname Hsub].
    destruct (Join_entry absPath (node_name x) Ha Hclean Hname)
      as (_ & _ & Ha' & Hc').
    pose proof (text_files_prefix _ _ _ _ _ Hp Hsub Ha' Hc') as Hq.
    apply HasPrefix_length in Hq.
    pose proof (Join_entry_longer absPath (node_name x) Ha Hclean Hname) as Hl.
    intros ->. lia.
  - intros name target Hfs. rewrite Hfs in Hin.
    now apply (text_files_not_dir recursive absPath absPath (Link name target)).
Qed.

Lemma ScanDirectory_returns_paths_below_root_witness :
  exists absPath,
    filepath.Abs (inr "/") "/data/root" = inr absPath
    /\ HasPrefix "/data/root/sub/b.txt" absPath = true
    /\ "/data/root/sub/b.txt" <> absPath.
Proof.
  pose (run := ScanDirectory (H := example_lib) (fun _ => None) (inr "/")
                 example_local "/data/root" true).
  destruct (ScanDirectory_returns_paths_below_root (H := example_lib)
              (fun _ => None) (inr "/") example_local "/data/root" true
              ["/data/root/a.txt"; "/data/root/sub/b.txt"] (snd run))
    as (absPath & Habs & _ & Hall).
  - left. reflexivity.
  - intros absPath [= <-]. reflexivity.
  - vm_compute. reflexivity.
  - exists absPath. split; [exact Habs|].
    destruct (Hall "/data/root/sub/b.txt") as (_ & _ & Hpre & Hne & _).
    + right. left. reflexivity.
    + split; [exact Hpre|]. apply Hne.
      injection Habs as <-. reflexivity.
Defined.

(** X20.  [ScanFile] accepts a path exactly when the path has no two
    dots in a row, it can be made absolute, what [os.Stat] finds at its
    absolute form (behind symbolic links) is not a directory and the
    extension is a text one; it then returns the absolute form, and logs
    it.  The name plays no part: a hidden file is accepted, which a
    directory scan would pass over.  Otherwise it fails, in this order of
    the checks, with the error of the check that failed, and logs
    nothing. *)
Theorem ScanFile_result `{GoLib} getwd fs filePath r log :
  ScanFile getwd fs filePath = (r, log) ->
  match r with
  | Ok p =>
      filepath.Abs getwd filePath = inr p
      /\ Contains filePath ".." = false
      /\ (exists info, node_Stat (fs p) = inr info /\ IsDir info = false)
      /\ IsTextFile p = true
      /\ log = [EvLog LDebug ("Validated text file: " ++ p)]
      /\ (absolute_wd getwd = true \/ filepath.IsAbs filePath = true ->
          filepath.IsAbs p = true /\ filepath.Clean p = p)
  | Err e =>
      log = []
      /\ ((Contains filePath ".." = true
           /\ e = Errorf "invalid file path" (ErrPathTraversal filePath))
          \/ (Contains filePath ".." = false /\
              ((exists msg, filepath.IsAbs filePath = false /\ getwd = inl msg
                  /\ e = Errorf "failed to resolve absolute path" (LibError msg))
               \/ exists absPath,
                    filepath.Abs getwd filePath = inr absPath /\
                    ((exists msg, node_Stat (fs absPath) = inl msg
                        /\ e = Errorf "failed to stat file" (LibError msg))
                     \/ (exists info, node_Stat (fs absPath) = inr info
                           /\ IsDir info = true
                           /\ e = ErrInvalidPath
                                   (absPath ++ " is a directory, not a file"))
                     \/ (exists info, node_Stat (fs absPath) = inr info
                           /\ IsDir info = false
                           /\ IsTextFile absPath = false
                           /\ e = ErrNotTextFile absPath)))))
  end.
Proof.
  unfold ScanFile.
  destruct (ValidatePath filePath) as [err|] eqn:Hpath.
  { intros Hrun. injection Hrun as <- <-. split; [reflexivity|]. left.
    rewrite (ValidatePath_Some _ _ Hpath). split; [|reflexivity].
    destruct (Contains filePath "..") eqn:E; [reflexivity|].
    apply ValidatePath_None_iff in E. congruence. }
  apply ValidatePath_None_iff in Hpath.
  destruct (filepath.Abs getwd filePath) as [msg|absPath] eqn:Habs.
  { intros Hrun. injection Hrun as <- <-. split; [reflexivity|].
    right. split; [exact Hpath|]. left.
    apply Abs_fails in Habs as [Hrel ->]. eauto. }
  destruct (node_Stat (fs absPath)) as [msg|info] eqn:Hstat.
  { intros Hrun. injection Hrun as <- <-. split; [reflexivity|].
    right. split; [exact Hpath|]. right. exists absPath. split; [reflexivity|].
    left. eauto. }
  destruct (IsDir info) eqn:Hdir.
  { intros Hrun. injection Hrun as <- <-. split; [reflexivity|].
    right. split; [exact Hpath|]. right. exists absPath. split; [reflexivity|].
    right. left. eauto. }
  destruct (IsTextFile absPath) eqn:Etext; simpl; intros Hrun;
    injection Hrun as <- <-.
  - split; [reflexivity|]. split; [exact Hpath|].
    split; [exists info; auto|]. split; [exact Etext|].
    split; [reflexivity|].
    intros Hwd. exact (Abs_absolute getwd filePath absPath Hwd Habs).
  - split; [reflexivity|]. right. split; [exact Hpath|]. right.
    exists absPath. split; [reflexivity|]. right. right. eauto.
Qed.

Lemma ScanFile_result_witness :
  filepath.Abs (inr "/") "/data/.env.json" = inr "/data/.env.json"
  /\ Contains "/data/.env.json" ".." = false
  /\ IsTextFile (H := example_lib) "/data/.env.json" = true.
Proof.
  destruct (ScanFile_result (H := example_lib) (inr "/") example_local
              "/data/.env.json" (Ok "/data/.env.json")
              [EvLog LDebug "Validated text file: /data/.env.json"])
    as (Hp & Hdots & _ & Htext & _).
  - vm_compute. reflexivity.
  - auto.
Defined.

Lemma Ext_no_dot (name : string) :
  all_bytes no_sep name = true -> all_bytes no_dot name = true ->
  filepath.Ext name = "".
Proof.
  induction name as [|c name IH]; [reflexivity|]. simpl all_bytes.
  intros Hs Hd. apply andb_prop in Hs as [_ Hs]. apply andb_prop in Hd as [Hc Hd].
  cbn [filepath.Ext].
  rewrite (Contains_byte_absent name "/" Hs), (Contains_byte_absent name "." Hd).
  unfold no_dot in Hc. apply negb_true_iff in Hc. now rewrite Hc.
Qed.

Lemma Ext_after_sep (dir name : string) :
  all_bytes no_sep name = true ->
  filepath.Ext (dir ++ String "/" name) = filepath.Ext name.
Proof.
  intros Hs. induction dir as [|c dir IH].
  - change ("" ++ String "/" name) with (String "/" name).
    destruct name as [|d name]; [reflexivity|].
    cbn [filepath.Ext].
    destruct (Contains (String d name) "/" || Contains (String d name) ".") eqn:E.
    + reflexivity.
    + apply orb_false_elim in E as [E1 E2].
      cbn [filepath.Ext]. 
      rewrite Contains_cons in E1, E2.
      apply orb_false_elim in E1 as [_ E1]. apply orb_false_elim in E2 as [E2' E2].
      rewrite E1, E2. simpl. cbn [HasPrefix] in E2'.
      rewrite HasPrefix_empty in E2'. rewrite Ascii.eqb_sym.
      destruct (Ascii.eqb "." d); [discriminate | reflexivity].
  - rewrite append_cons. cbn [filepath.Ext].
    rewrite (Contains_byte_present dir name "/"). exact IH.
Qed.

(** X21.  A path whose last element has no dot is not a text file for
    the scanner, whatever the directory: files such as [README] or
    [Makefile] are passed over. *)
Theorem IsTextFile_needs_extension `{GoLib} (dir name : string) :
  all_bytes no_sep name = true -> all_bytes no_dot name = true ->
  IsTextFile name = false /\ IsTextFile (dir ++ "/" ++ name) = false.
Proof.
  intros Hs Hd. unfold IsTextFile.
  change ("/" ++ name) with (String "/" name).
  rewrite Ext_after_sep, Ext_no_dot by assumption. split; reflexivity.
Qed.

Lemma IsTextFile_needs_extension_witness :
  IsTextFile (H := example_lib) "Makefile" = false
  /\ IsTextFile (H := example_lib) "/data/Makefile" = false.
Proof.
  apply (IsTextFile_needs_extension (H := example_lib) "/data" "Makefile");
    reflexivity.
Defined.

(** ** Documents named in the configuration *)

Lemma emit_all_world (evs : list event) (w : World) :
  emit_all evs w = (tt, add_events w evs).
Proof.
  revert w. induction evs as [|e evs IH]; intros w.
  - unfold add_events. simpl. rewrite app_nil_r. now destruct w.
  - cbn [emit_all]. unfold bind, emit. rewrite IH.
    unfold add_events. simpl. now rewrite <- app_assoc.
Qed.

Lemma processDocuments_from_paths `{GoLib} env d ctx getwd local docs :
  absolute_wd getwd = true ->
  forall i acc w paths w',
    processDocuments_from env d ctx getwd local i docs acc w = (Ok paths, w') ->
    paths = (acc ++ flat_map (document_paths d getwd local) docs)%list.
Proof.
  intros Hwd. induction docs as [|doc docs IH]; intros i acc w paths w' Hrun.
  - injection Hrun as <- _. now rewrite app_nil_r.
  - cbn [processDocuments_from flat_map] in *. unfold document_paths at 1.
    unfold is_remote.
    destruct (HasPrefix doc "http://" || HasPrefix doc "https://").
    + unfold bind at 1 2 in Hrun. unfold log, emit in Hrun.
      destruct (Download env d doc _) as [[p|e] w1] eqn:Hdl; [|discriminate].
      apply Download_path in Hdl. subst p.
      unfold bind at 1 in Hrun.
      apply IH in Hrun. now rewrite Hrun, <- app_assoc.
    + destruct (filepath.Abs getwd doc) as [msg|absPath] eqn:Habs;
        [discriminate|].
      destruct (node_Stat (local absPath)) as [msg|info] eqn:Hstat;
        [discriminate|].
      destruct (IsDir info) eqn:Hdir.
      * unfold bind at 1 2 in Hrun. unfold log at 1, emit at 1 in Hrun.
        rewrite emit_all_world in Hrun.
        destruct (ScanDirectory (ctx i) getwd local absPath true)
          as [[files|e] evs] eqn:Hscan; cbn [fst snd] in Hrun; [|discriminate].
        apply ScanDirectory_Ok in Hscan
          as (absPath' & info' & _ & Habs' & _ & _ & Hfiles).
        rewrite (Abs_idempotent getwd doc absPath (or_introl Hwd) Habs) in Habs'.
        injection Habs' as <-.
        unfold bind at 1 in Hrun. unfold log, emit in Hrun.
        apply IH in Hrun. now rewrite Hrun, <- app_assoc, Hfiles.
      * unfold bind at 1 in Hrun. unfold log, emit in Hrun.
        apply IH in Hrun. now rewrite Hrun, <- app_assoc.
Qed.

(** X22.  When [processDocuments] succeeds, its result is, document by
    document and in the order given, the cache path of each URL, the
    absolute path of each local path that [os.Stat] does not show as a
    directory and, for each one it shows as a directory, the text files
    the scan finds in it and in all directories below it.  The scan
    follows no symbolic link: for a document that is itself a link to a
    directory the result holds the path of the link when its name is not
    hidden and has a text extension, and nothing otherwise. *)
Theorem processDocuments_paths `{GoLib} env d ctx getwd local docs w paths w' :
  absolute_wd getwd = true ->
  processDocuments env d ctx getwd local docs w = (Ok paths, w') ->
  paths = flat_map (document_paths d getwd local) docs
  /\ forall doc absPath name target info,
       is_remote doc = false ->
       filepath.Abs getwd doc = inr absPath ->
       local absPath = Link name target ->
       node_Stat target = inr info -> IsDir info = true ->
       document_paths d getwd local doc
       = if HasPrefix name "." then []
         else if IsTextFile absPath then [absPath] else [].
Proof.
  intros Hwd Hrun. unfold processDocuments in Hrun. split.
  - now apply (processDocuments_from_paths _ _ _ _ _ _ Hwd) in Hrun.
  - intros doc absPath name target info Hremote Habs Hlocal Hstat Hdir.
    unfold document_paths. rewrite Hremote, Habs, Hlocal.
    cbn [node_Stat]. rewrite Hstat. cbn [IsDir]. rewrite Hdir. reflexivity.
Qed.

Lemma processDocuments_paths_witness :
  [ GetCachedDocumentPath "/cache" example_url;
    "/data/root/a.txt"; "/data/root/sub/b.txt"; "/data/notes.bin";
    "/data/link.md" ]
  = flat_map (document_paths (H := example_lib) (example_downloader 1024)
                (inr "/") example_local)
      [ example_url; "/data/root"; "/data/notes.bin"; "/data/link.md" ].
Proof.
  pose (env := example_env (inr (example_response 200 "text/plain" 5 "hello"))).
  pose (run := processDocuments (H := example_lib) env (example_downloader 1024)
                 (fun _ _ => None) (inr "/") example_local
                 [ example_url; "/data/root"; "/data/notes.bin"; "/data/link.md" ]
                 empty_world).
  apply (processDocuments_paths (H := example_lib) env (example_downloader 1024)
           (fun _ _ => None) (inr "/") example_local
           [ example_url; "/data/root"; "/data/notes.bin"; "/data/link.md" ]
           empty_world _ (snd run)).
  - reflexivity.
  - vm_compute. reflexivity.
Defined.

(** X23.  A local document that [os.Stat] does not show as a directory
    is taken as it is named: its absolute path is returned without the
    checks of [ScanFile], whatever its extension and its name, and even
    with two dots in the path, which [ScanFile] refuses. *)
Theorem processDocuments_takes_local_file `{GoLib}
    env d ctx getwd local doc absPath info w :
  is_remote doc = false ->
  filepath.Abs getwd doc = inr absPath ->
  node_Stat (local absPath) = inr info -> IsDir info = false ->
  processDocuments env d ctx getwd local [doc] w
  = (Ok [absPath], add_events w [EvLog LDebug ("Adding file: " ++ absPath)])
  /\ (IsTextFile absPath = false \/ Contains doc ".." = true ->
      exists e, fst (ScanFile getwd local doc) = Err e).
Proof.
  intros Hremote Habs Hstat Hdir. split.
  - unfold processDocuments. cbn [processDocuments_from].
    unfold is_remote in Hremote. rewrite Hremote, Habs, Hstat, Hdir.
    unfold bind, log, emit, ret. reflexivity.
  - unfold ScanFile. rewrite Habs, Hstat, Hdir. intros [Htext | Hdots].
    + destruct (ValidatePath doc); [eauto|]. rewrite Htext. simpl. eauto.
    + assert (ValidatePath doc <> None) as Hv.
      { rewrite ValidatePath_None_iff. congruence. }
      destruct (ValidatePath doc); [eauto | congruence].
Qed.

Lemma processDocuments_takes_local_file_witness :
  fst (processDocuments (H := example_lib) (example_env (inl "unused"))
         (example_downloader 1024) (fun _ _ => None) (inr "/") example_local
         ["/data/notes.bin"] empty_world)
  = Ok ["/data/notes.bin"]
  /\ exists e, fst (ScanFile (H := example_lib) (inr "/") example_local
                      "/data/notes.bin") = Err e.
Proof.
  destruct (processDocuments_takes_local_file (H := example_lib)
              (example_env (inl "unused")) (example_downloader 1024)
              (fun _ _ => None) (inr "/") example_local "/data/notes.bin"
              "/data/notes.bin" {| Name := "notes.bin"; IsDir := false |}
              empty_world)
    as [Hrun Hscan].
  - reflexivity.
  - reflexivity.
  - reflexivity.
  - reflexivity.
  - split; [now rewrite Hrun|]. apply Hscan. left. reflexivity.
Defined.

Lemma processDocuments_from_failure `{GoLib} env d ctx getwd local docs :
  absolute_wd getwd = true ->
  forall i acc w e w',
    processDocuments_from env d ctx getwd local i docs acc w = (Err e, w') ->
    exists doc, List.In doc docs /\ document_failure env d ctx getwd local doc e.
Proof.
  intros Hwd. induction docs as [|doc docs IH]; intros i acc w e w' Hrun;
    [discriminate|].
  assert (Hlater : forall j acc1 w1,
             processDocuments_from env d ctx getwd local j docs acc1 w1
             = (Err e, w') ->
             exists doc0, List.In doc0 (doc :: docs)
                          /\ document_failure env d ctx getwd local doc0 e).
  { intros j acc1 w1 Hlater. destruct (IH _ _ _ _ _ Hlater) as (doc0 & Hin & Hcase).
    exists doc0. split; [now right | exact Hcase]. }
  cbn [processDocuments_from] in Hrun. unfold document_failure.
  destruct (HasPrefix doc "http://" || HasPrefix doc "https://") eqn:Hremote.
  - unfold bind at 1 2 in Hrun. unfold log, emit in Hrun.
    destruct (Download env d doc _) as [[p|err] w1] eqn:Hdl.
    + unfold bind at 1 in Hrun. exact (Hlater _ _ _ Hrun).
    + injection Hrun as <- <-. exists doc. split; [now left|]. left.
      split; [exact Hremote|]. eauto.
  - destruct (filepath.Abs getwd doc) as [msg|absPath] eqn:Habs.
    { injection Hrun as <- <-. exists doc. split; [now left|]. right. left.
      split; [exact Hremote|]. apply Abs_fails in Habs as [Hrel ->]. eauto. }
    destruct (node_Stat (local absPath)) as [msg|info] eqn:Hstat.
    { injection Hrun as <- <-. exists doc. split; [now left|]. right. right.
      split; [exact Hremote|]. exists absPath. split; [exact Habs|]. left.
      exists msg. rewrite Hstat. auto. }
    destruct (IsDir info) eqn:Hdir.
    + unfold bind at 1 2 in Hrun. unfold log at 1, emit at 1 in Hrun.
      rewrite emit_all_world in Hrun.
      destruct (ScanDirectory (ctx i) getwd local absPath true)
        as [[files|err] evs] eqn:Hscan; cbn [fst snd] in Hrun.
      * unfold bind at 1 in Hrun. exact (Hlater _ _ _ Hrun).
      * injection Hrun as <- <-. exists doc. split; [now left|]. right. right.
        split; [exact Hremote|]. exists absPath. split; [exact Habs|]. right.
        exists info, err. rewrite Hstat.
        split; [reflexivity|]. split; [exact Hdir|]. split; [reflexivity|].
        pose proof (Abs_idempotent getwd doc absPath (or_introl Hwd) Habs) as Hsame.
        apply ScanDirectory_Err in Hscan
          as [[Hdots ->] | [_ [(m & Hrel & -> & _) | (p & Hp & Hcase)]]].
        -- left. auto.
        -- rewrite (proj2 (Abs_fails (inl m) absPath m) (conj Hrel eq_refl)) in Hsame.
           discriminate Hsame.
        -- rewrite Hsame in Hp. injection Hp as <-.
           destruct Hcase as [(m & Hm & _) | [(i0 & Hi0 & Hnd & _)
                                              | (i0 & k & done & _ & _ & Hk & ->)]].
           ++ rewrite Hstat in Hm. discriminate Hm.
           ++ rewrite Hstat in Hi0. injection Hi0 as <-. congruence.
           ++ right. eauto.
    + unfold bind at 1 in Hrun. exact (Hlater _ _ _ Hrun).
Qed.

(** X24.  [processDocuments] fails only because of one of its
    documents, with an error that names it: a URL whose download fails, a
    local path that is not absolute while the working directory cannot be
    told, a local path that cannot be examined, or a local directory
    whose scan fails, which happens when its absolute path has two dots
    in a row or the context is done, the error then being the one of the
    context.  A local file never makes it fail. *)
Theorem processDocuments_failure `{GoLib} env d ctx getwd local docs w e w' :
  absolute_wd getwd = true ->
  processDocuments env d ctx getwd local docs w = (Err e, w') ->
  exists doc, List.In doc docs /\ document_failure env d ctx getwd local doc e.
Proof.
  intros Hwd Hrun. unfold processDocuments in Hrun.
  exact (processDocuments_from_failure _ _ _ _ _ _ Hwd _ _ _ _ _ Hrun).
Qed.

Lemma processDocuments_failure_witness :
  exists doc,
    List.In doc ["/data/notes.bin"; "/data/missing"]
    /\ document_failure (H := example_lib) (example_env (inl "unused"))
         (example_downloader 1024) (fun _ _ => None) (inr "/") example_local doc
         (Errorf "failed to access path '/data/missing'"
            (LibError "stat /data/missing: no such file or directory")).
Proof.
  pose (run := processDocuments (H := example_lib) (example_env (inl "unused"))
                 (example_downloader 1024) (fun _ _ => None) (inr "/")
                 example_local ["/data/notes.bin"; "/data/missing"] empty_world).
  apply (processDocuments_failure (H := example_lib) (example_env (inl "unused"))
           (example_downloader 1024) (fun _ _ => None) (inr "/") example_local
           ["/data/notes.bin"; "/data/missing"] empty_world _ (snd run)).
  - reflexivity.
  - vm_compute. reflexivity.
Defined.

(** ** Further edge cases *)

(** X25.  The default configuration is a valid one: with a logger,
    [NewDownloader] makes of it a downloader on the directory that
    [GetCacheDir] resolves, once that directory is created; without a
    logger it is refused as an invalid configuration. *)
Theorem NewDownloader_with_DefaultConfig goos vars env w dir :
  GetCacheDir goos vars = Ok dir ->
  mkdir_fault env dir = None ->
  NewDownloader goos vars env (DefaultConfig true) w
  = (Ok {| config := DefaultConfig true; cacheDir := dir |},
     add_events w
       [EvMkdirAll dir;
        EvLog LDebug ("Initialized RAG downloader with cache directory: " ++ dir)])
  /\ NewDownloader goos vars env (DefaultConfig false) w
     = (Err (Errorf "invalid configuration"
               (ErrInvalidConfig "logger is required")), w).
Proof.
  intros Hdir Hmk. split; [|reflexivity].
  unfold NewDownloader, EnsureCacheDir, os_MkdirAll.
  change (ValidateConfig (DefaultConfig true)) with (@None error).
  change (String.eqb (CacheDir (DefaultConfig true)) "") with true.
  cbv iota. rewrite Hdir. run. rewrite Hmk. simpl. f_equal. same_world.
Qed.

Lemma NewDownloader_with_DefaultConfig_witness :
  fst (NewDownloader unix example_vars (example_env (inl "unused"))
         (DefaultConfig true) empty_world)
  = Ok {| config := DefaultConfig true; cacheDir := "/home/u/.cache/don/rag" |}.
Proof.
  destruct (NewDownloader_with_DefaultConfig unix example_vars
              (example_env (inl "unused")) empty_world "/home/u/.cache/don/rag")
    as [Hrun _].
  - vm_compute. reflexivity.
  - reflexivity.
  - now rewrite Hrun.
Defined.

(** X26.  Looking into the cache changes no file: [GetCachedPath],
    [LoadMetadata] and [ValidateCache] leave every file as it is, whatever
    they return. *)
Theorem cache_queries_are_read_only `{GoLib} env d url path w :
  files (snd (GetCachedPath env d url w)) = files w
  /\ files (snd (LoadMetadata env path w)) = files w
  /\ files (snd (ValidateCache env d url w)) = files w.
Proof.
  split; [|split].
  - unfold GetCachedPath, os_Stat. run.
    destruct (stat_fault env _); [reflexivity|].
    now destruct (files w !! _).
  - unfold LoadMetadata, os_ReadFile. run.
    destruct (read_fault env path); [reflexivity|].
    destruct (files w !! path) as [data|]; [|reflexivity]. simpl.
    now destruct (json.Unmarshal data).
  - unfold ValidateCache, LoadMetadata, os_ReadFile, checkCacheFreshness,
      NewRequest, http_Client_Do. run.
    destruct (read_fault env _); [reflexivity|].
    destruct (files w !! _) as [data|]; [|reflexivity]. simpl.
    destruct (json.Unmarshal data) as [meta|e]; [|reflexivity]. simpl.
    destruct (String.eqb (ETag meta) "" && String.eqb (LastModified meta) "");
      [reflexivity|].
    destruct (url_Parse url); [reflexivity|]. simpl.
    destruct (http_Do env _) as [msg|resp]; [reflexivity|]. simpl.
    now destruct (StatusCode resp =? 304).
Qed.

(** X27.  A response without a [Content-Type] header is refused as not
    being text, before its length is looked at and before any of its
    body is read. *)
Theorem missing_content_type_is_refused `{GoLib} env d url w resp :
  let req := {| Method := "GET"; ReqURL := url; ReqHeader := ∅ |} in
  validateURL url = None ->
  http_Do env req = inr resp ->
  StatusCode resp = 200 ->
  RespHeader resp !! "Content-Type" = None ->
  downloadWithValidation env d url w
  = (Err (ErrNotTextFile "content type: "), add_events w [EvHTTP req]).
Proof.
  intros req Hurl Hdo Hst Hct.
  destruct (validateURL_parses url Hurl) as [u Hparse].
  unfold downloadWithValidation, NewRequest, http_Client_Do, Header_Get.
  change (CanonicalMIMEHeaderKey "Content-Type") with "Content-Type".
  run. rewrite Hparse. simpl. fold req. rewrite Hdo, Hst, Hct. simpl.
  reflexivity.
Qed.

Lemma missing_content_type_is_refused_witness :
  fst (downloadWithValidation (H := example_lib)
         (example_env (inr (untyped_response "hello")))
         (example_downloader 1024) example_url empty_world)
  = Err (ErrNotTextFile "content type: ").
Proof.
  rewrite (missing_content_type_is_refused (H := example_lib)
             (example_env (inr (untyped_response "hello")))
             (example_downloader 1024) example_url empty_world
             (untyped_response "hello")).
  - reflexivity.
  - reflexivity.
  - reflexivity.
  - reflexivity.
  - reflexivity.
Defined.

(** ** Scans compared *)

Lemma text_files_recursive_more `{GoLib} root n :
  forall path p,
    List.In p (text_files false root path n) ->
    List.In p (text_files true root path n).
Proof.
  induction n as [name | name msg | name readErr entries IH | name target _]
    using node_nested_ind; intros path p Hin.
  4: exact Hin.
  - exact Hin.
  - exact Hin.
  - cbn [text_files] in *. destruct readErr; [destruct Hin|].
    rewrite andb_false_r.
    destruct (negb (String.eqb path root) && negb false); [destruct Hin|].
    induction IH as [|x xs Hx Hxs IHxs]; [destruct Hin|].
    apply in_app_or in Hin as [Hin | Hin]; apply in_or_app.
    + left. now apply Hx.
    + right. now apply IHxs.
Qed.

(** X28.  A recursive scan of a directory returns every file that a
    scan of the same directory without recursion returns. *)
Theorem recursive_scan_finds_more `{GoLib}
    ctx1 ctx2 getwd fs dirPath files1 log1 files2 log2 :
  ScanDirectory ctx1 getwd fs dirPath false = (Ok files1, log1) ->
  ScanDirectory ctx2 getwd fs dirPath true = (Ok files2, log2) ->
  forall p, List.In p files1 -> List.In p files2.
Proof.
  intros H1 H2 p.
  apply ScanDirectory_Ok in H1 as (a1 & i1 & _ & Ha1 & _ & _ & ->).
  apply ScanDirectory_Ok in H2 as (a2 & i2 & _ & Ha2 & _ & _ & ->).
  rewrite Ha1 in Ha2. injection Ha2 as <-.
  apply text_files_recursive_more.
Qed.

Lemma recursive_scan_finds_more_witness :
  List.In "/data/root/a.txt" ["/data/root/a.txt"; "/data/root/sub/b.txt"].
Proof.
  pose (run1 := ScanDirectory (H := example_lib) (fun _ => None) (inr "/")
                  example_local "/data/root" false).
  pose (run2 := ScanDirectory (H := example_lib) (fun _ => None) (inr "/")
                  example_local "/data/root" true).
  apply (recursive_scan_finds_more (H := example_lib) (fun _ => None)
           (fun _ => None) (inr "/") example_local "/data/root"
           ["/data/root/a.txt"] (snd run1)
           ["/data/root/a.txt"; "/data/root/sub/b.txt"] (snd run2)).
  - vm_compute. reflexivity.
  - vm_compute. reflexivity.
  - left. reflexivity.
Defined.

(** X29.  A path that a directory scan returns is in the form [ScanFile]
    works on (absolute and clean, so that [filepath.Abs] leaves it as it
    is) and has a text extension.  [ScanFile] therefore accepts it under
    the very path returned, with three exceptions: the path has two dots
    in a row (the scan checks the path of the root only), [os.Stat] fails
    on it (a symbolic link that leads nowhere), or [os.Stat] finds a
    directory there (a symbolic link to a directory, which the scan lists
    without following it). *)
Theorem scanned_files_pass_ScanFile `{GoLib}
    ctx getwd fs dirPath recursive files log :
  absolute_wd getwd = true \/ filepath.IsAbs dirPath = true ->
  (forall absPath, filepath.Abs getwd dirPath = inr absPath ->
                   names_ok (fs absPath) = true) ->
  ScanDirectory ctx getwd fs dirPath recursive = (Ok files, log) ->
  forall p, List.In p files ->
    filepath.Abs getwd p = inr p
    /\ IsTextFile p = true
    /\ ScanFile getwd fs p
       = if Contains p ".." then
           (Err (Errorf "invalid file path" (ErrPathTraversal p)), [])
         else
           match node_Stat (fs p) with
           | inl msg => (Err (Errorf "failed to stat file" (LibError msg)), [])
           | inr info =>
               if IsDir info then
                 (Err (ErrInvalidPath (p ++ " is a directory, not a file")), [])
               else (Ok p, [EvLog LDebug ("Validated text file: " ++ p)])
           end.
Proof.
  intros Hwd Hnames Hrun p Hin.
  destruct (ScanDirectory_Ok _ _ _ _ _ _ _ Hrun)
    as (absPath & info & _ & Habs & _ & _ & ->).
  specialize (Hnames _ Habs).
  destruct (Abs_absolute getwd dirPath absPath Hwd Habs) as [Ha Hclean].
  destruct (text_files_below recursive _ (fs absPath) Hnames _ p
              Ha Hclean (HasPrefix_refl _) Hin) as (Hp1 & Hp2 & _).
  destruct (text_files_are_visible_text_files _ _ _ _ _ Hin)
    as (nm & _ & _ & Htext).
  pose proof (Abs_of_absolute getwd p Hp1 Hp2) as Hself.
  split; [exact Hself|]. split; [exact Htext|].
  unfold ScanFile. destruct (Contains p "..") eqn:Hdots.
  - destruct (ValidatePath p) as [err|] eqn:Hv.
    + now rewrite (ValidatePath_Some _ _ Hv).
    + apply ValidatePath_None_iff in Hv. congruence.
  - apply ValidatePath_None_iff in Hdots. rewrite Hdots, Hself.
    destruct (node_Stat (fs p)) as [msg|i]; [reflexivity|].
    destruct (IsDir i); [reflexivity|]. now rewrite Htext.
Qed.

Lemma scanned_files_pass_ScanFile_witness :
  ScanFile (H := example_lib) (inr "/") example_local "/data/docs/a.txt"
  = (Ok "/data/docs/a.txt",
     [EvLog LDebug "Validated text file: /data/docs/a.txt"])
  /\ ScanFile (H := example_lib) (inr "/") example_local "/data/docs/more.md"
     = (Err (ErrInvalidPath "/data/docs/more.md is a directory, not a file"), [])
  /\ ScanFile (H := example_lib) (inr "/") example_local "/data/docs/old.txt"
     = (Err (Errorf "failed to stat file"
               (LibError "stat old.txt: no such file or directory")), []).
Proof.
  pose (run := ScanDirectory (H := example_lib) (fun _ => None) (inr "/")
                 example_local "/data/docs" true).
  pose proof (scanned_files_pass_ScanFile (H := example_lib)
                (fun _ => None) (inr "/") example_local "/data/docs" true
                ["/data/docs/a.txt"; "/data/docs/more.md"; "/data/docs/old.txt";
                 "/data/docs/z.txt"] (snd run)
                (or_introl eq_refl)) as Hall.
  assert (Hnames : forall absPath,
             filepath.Abs (inr "/") "/data/docs" = inr absPath ->
             names_ok (example_local absPath) = true)
    by (intros absPath [= <-]; reflexivity).
  specialize (Hall Hnames eq_refl).
  split; [|split].
  - destruct (Hall "/data/docs/a.txt") as (_ & _ & Hscan);
      [left; reflexivity | exact Hscan].
  - destruct (Hall "/data/docs/more.md") as (_ & _ & Hscan);
      [right; left; reflexivity | exact Hscan].
  - destruct (Hall "/data/docs/old.txt") as (_ & _ & Hscan);
      [right; right; left; reflexivity | exact Hscan].
Defined.

(** ** What reaches the cache *)

Lemma fetch_and_store_writes `{GoLib} env d url w r w' evs content :
  let docPath := GetCachedDocumentPath (cacheDir d) url in
  fetch_and_store env d url w = (r, w') ->
  trace w' = (trace w ++ evs)%list ->
  List.In (EvWriteFile docPath content) evs ->
  exists meta w0,
    downloadWithValidation env d url
      (add_events w [EvLog LInfo ("Downloading document from " ++ url)])
    = (Ok (content, meta), w0).
Proof.
  intros docPath Hrun Htrace Hin.
  pose proof (cached_paths_differ (cacheDir d) url) as Hdiff.
  unfold fetch_and_store in Hrun.
  unfold log at 1 in Hrun. unfold bind at 1 2 in Hrun. unfold emit at 1 in Hrun.
  fold (add_events w [EvLog LInfo ("Downloading document from " ++ url)]) in Hrun.
  destruct (downloadWithValidation env d url _) as [[[content' meta]|e] w0] eqn:Hd.
  - destruct (downloadWithValidation_ok _ _ _ _ _ _ _ Hd)
      as (resp & _ & _ & _ & _ & _ & _ & _ & _ & Hw0).
    unfold SaveMetadata, os_MkdirAll, os_WriteFile in Hrun.
    fold docPath in Hrun, Hdiff.
    set (metaPath := GetCachedMetadataPath (cacheDir d) url) in *.
    clearbody docPath metaPath. subst w0. run.
    repeat (branch; try discriminate); pairs; simpl in *;
      rewrite <- ?app_assoc in Htrace; apply trace_tail in Htrace; subst evs;
      simpl in Hin;
      repeat match goal with
             | D : _ \/ _ |- _ => destruct D
             | F : False |- _ => destruct F
             | E : _ = EvWriteFile _ _ |- _ =>
                 first [discriminate E | injection E as; subst]
             end;
      try congruence; eauto.
  - unfold downloadWithValidation, NewRequest, http_Client_Do,
      ReadAll_LimitReader in Hd.
    run.
    repeat (branch; try discriminate); pairs; simpl in *;
      rewrite <- ?app_assoc in Htrace; apply trace_tail in Htrace; subst evs;
      simpl in Hin;
      repeat match goal with
             | D : _ \/ _ |- _ => destruct D
             | F : False |- _ => destruct F
             | E : _ = EvWriteFile _ _ |- _ => discriminate E
             end.
Qed.

(** X30.  Nothing reaches the document file that has not passed the
    checks: whenever a download writes the document file, what it writes
    is the beginning of the body of a response with status 200 and a text
    content type, and is no longer than the size limit. *)
Theorem cached_content_is_validated `{GoLib} env d url w r w' evs content :
  let docPath := GetCachedDocumentPath (cacheDir d) url in
  let req := {| Method := "GET"; ReqURL := url; ReqHeader := ∅ |} in
  Download env d url w = (r, w') ->
  trace w' = (trace w ++ evs)%list ->
  List.In (EvWriteFile docPath content) evs ->
  exists resp,
    http_Do env req = inr resp
    /\ StatusCode resp = 200
    /\ isTextContentType (Header_Get (RespHeader resp) "Content-Type") = true
    /\ ContentLength resp <= MaxSize (config d)
    /\ len content <= MaxSize (config d)
    /\ exists n, content = String.substring 0 n (Body resp).
Proof.
  intros docPath req Hrun Htrace Hin.
  destruct (Download_before_fetch _ _ _ _ _ _ Hrun)
    as [(evs0 & Ht0 & Hnone) | (w0 & evs0 & Hfetch & Ht0 & Hnone)].
  - rewrite Ht0 in Htrace. apply trace_tail in Htrace. subst evs0.
    now elim (Hnone _ _ Hin).
  - assert (Hsplit : exists evs1, trace w' = (trace w0 ++ evs1)%list
                                  /\ evs = (evs0 ++ evs1)%list).
    { unfold fetch_and_store, downloadWithValidation, NewRequest,
        http_Client_Do, ReadAll_LimitReader, SaveMetadata, os_MkdirAll,
        os_WriteFile in Hfetch.
      run.
      repeat (branch; try discriminate); pairs; simpl in *;
        rewrite <- ?app_assoc in *; simpl in *;
        (eexists; split; [reflexivity|]);
        rewrite Ht0, <- ?app_assoc in Htrace; apply trace_tail in Htrace;
        now rewrite Htrace. }
    destruct Hsplit as (evs1 & Ht1 & ->).
    apply in_app_or in Hin as [Hin | Hin]; [now elim (Hnone _ _ Hin)|].
    destruct (fetch_and_store_writes _ _ _ _ _ _ _ _ Hfetch Ht1 Hin)
      as (meta & w1 & Hd).
    destruct (downloadWithValidation_ok _ _ _ _ _ _ _ Hd)
      as (resp & Hdo & Hst & Htext & Hdecl & Hcontent & Hle & _).
    exists resp. repeat split; try assumption. eauto.
Qed.

Lemma cached_content_is_validated_witness :
  exists resp,
    http_Do (example_env (inr (example_response 200 "text/plain" 5 "hello")))
      {| Method := "GET"; ReqURL := example_url; ReqHeader := ∅ |} = inr resp
    /\ StatusCode resp = 200
    /\ len "hello" <= MaxSize (config (example_downloader 1024)).
Proof.
  pose (env := example_env (inr (example_response 200 "text/plain" 5 "hello"))).
  pose (run := Download (H := example_lib) env (example_downloader 1024)
                 example_url empty_world).
  destruct (cached_content_is_validated (H := example_lib) env
              (example_downloader 1024) example_url empty_world
              (fst run) (snd run) (trace (snd run)) "hello")
    as (resp & Hdo & Hst & _ & _ & Hle & _).
  - apply surjective_pairing.
  - reflexivity.
  - vm_compute. tauto.
  - exists resp. auto.
Defined.

